(* ===== verification/_CoqProject ===== *)
-Q . S2P
Prelude.v
JsBuiltins.v
Prog.v
Monitor.v
Interface.v
Fake.v
Config.v
Bootstrap.v
ActionLoop.v
Flow.v
Lifecycle.v
Machine.v
Discipline.v
Rejection.v
Stages.v
Wellformed.v
Unrolling.v
Metering.v
Liveness.v
Scenarios.v
Ledger.v
Restart.v
Unbounded.v
Adequacy.v
EndToEnd.v
