(* ===== verification/Prelude.v ===== *)
(** * rng-ts-cli: a verification development for the oracle lifecycle driver

    The program ([src/src/index.ts]) is a command line script that drives
    the life cycle of an on-chain oracle identity through the [rng-ts-lib]
    library: it asks the operator for the configuration, mints an oracle
    DID, initiates a random number request, registers the DID, and then
    loops for ever on two operator actions (generate a new number and
    publish it through an oracle update; query the published number).
    After every transaction it sleeps for 120 seconds.  Two module level
    variables carry the state from one stage to the next:
    [BASE_ORACLEDID] (the DID unit and its [registered] flag) and
    [CURR_ORACLE_UPDATED_TX] (the head of the oracle's update chain).

    ** Files, in dependency order

    Libraries, independent of the script:
    - [Prelude] (this file): tactics, the hint databases and the lemmas on
      strings shared by all files.
    - [JsBuiltins]: the ECMAScript built-ins the script calls, on strings
      of code units below 256: [trim], [slice], [parseInt], [ToBoolean]
      (class [Truthy]), [JSON.stringify] on strings, [Error].  Numbers are
      [NaN] or an exact integer.  Theorems: [trim] is characterised by
      its decomposition, which is unique; [parseInt] ignores what [trim]
      removes and reads back the decimal numeral of any integer;
      [JSON.parse] reads back what [JSON.stringify] wrote; [slice(0, n)]
      is a prefix.
    - [Prog]: programs as finite trees ([Prog]) whose nodes are requests
      to the outside world and whose leaves return or throw; [M] adds
      threaded state; [run] executes a program against any [World] (a
      handler that answers a request or leaves it pending for ever);
      [wp] is the weakest precondition over all replies, sound and
      complete for [run]; [iterate] is a loop body run n times.
    - [Monitor]: safety properties of traces as automata, the logic [mwp]
      that proves every run of a program is accepted, and its tactics.
      A monitor is also a contract between a program and a world:
      [mwp] is the client's side, [honours] the server's, and
      [mwp_honoured] shows that a client and a server that keep the same
      contract get on (good replies only, states that stay related).

    The model of the script:
    - [Interface]: the requests of the script (inquirer prompts, the
      console, ora spinners, the timer, the constructor and the six
      operations of the RNG instance), their replies, the events of a
      trace, the record [Globals] of the two variables and the small
      steps every stage is made of ([sleep], [require_tx], ...).
    - [Fake]: worlds that answer from scripted queues, among them [happy],
      the scenario of the specification; used by the witnesses.
    - [Config]: [networkData], the start-up questions and the
      construction of the RNG instance (lines 6-83).  Theorems: the
      configuration as a function of the answers, when it exists, the
      [TypeError] of an absent answer, and (as a lemma) that the network
      selector is not validated.
    - [Bootstrap]: the stages [mintOracle], [initRNG], [registerOracle]
      and their sequence [bootstrap] (lines 85-156).
    - [ActionLoop]: [generate], [query], one [iteration] of
      [while (true)] (lines 158-227), [loop n] and the whole script
      [main n].

    The theorems about the script:
    - [Flow]: where the start-up answers go: to the constructor, and
      nowhere else.  The script is the eight questions followed by the
      constructor on the configuration of the answers and by a program
      in which the answers do not occur.
    - [Lifecycle]: the state machine of the specification (Unstarted,
      Minted, Initialized, Registered, and Regenerating for a generate
      action) as a monitor.  Every run of [main n] is a run of the
      machine (refinement), the variables mirror its state, and hence
      the sequencing, single-head and immutability properties of the
      requests; the machine with the specification's stricter success
      condition for init rejects a run.
    - [Machine]: the same machine as a transition relation, one rule
      for each transition of the specification, and its paths.  The
      monitor of [Lifecycle] steps exactly where a rule applies; by
      induction on the rules no phase is re-entered and the unit never
      changes; every run of [main n] is a path from [Unstarted], which
      ends in [Registered] with the values of the two variables when
      the script returns.
    - [Discipline]: three more monitors and what acceptance by each
      means: a failed stage is fatal and the only cause of a throw; no
      request reaches the RNG instance before the wait after the
      previous transaction; at most one spinner runs and none while the
      operator is prompted.
    - [Rejection]: calls that fail.  A [Host] answers a request with a
      value, with an error (a promise that rejects, a call that throws)
      or never; [execute] ends the process at the first error, since
      the script has no [try].  An execution is the run against the
      world that resolves what the host resolves, settled at its end
      ([execute_settle]), so the monitors accept the executions as they
      accept the runs; the process dies of a failed call, of the error
      of a failed stage or of an absent start-up answer, and of nothing
      else.
    - [Stages]: for each stage, the exact events, result and variables
      of every run that returns and of every run that throws; a run
      left waiting is the beginning of one of those ([settles] of
      [Prog]).  The bootstrap, the loop and the script are their stages
      in sequence ([then_post] of [Prog]): [main_run] describes every
      run of the script.
    - [Wellformed]: the typing invariant of the two variables (a head,
      when set, is a non-empty hash; the registered flag is never set
      without a head), true at the start
      and kept by the start-up, every stage, every action, the loop and
      the script.
    - [Unrolling]: a run of [main n] that did not return is the run of
      every longer unrolling; one that returned consumed exactly n
      answers to the action prompt.
    - [Metering]: what a run costs, as a monitor that counts: at most
      9 + 2n lines typed, at most 3 + 2n transactions, one timer of
      120 seconds for each transaction and no other; exactly
      9 + n + k lines and 3 + 2k transactions when [main n] returns
      after k generate actions.
    - [Liveness]: against a world that answers every request well, the
      script returns from any number of iterations.
    - [Scenarios]: the three scenarios of the specification, evaluated.
    - [Ledger]: the contract of the executor and its chain, modelled
      from the specification (sections 3, 4.1, 4.2, 5) as a world: a
      ledger with a clock that the timers advance, which refuses a
      transaction submitted before the last one is confirmed, a
      register of an identity that is not minted or of a seed already
      used, and an update that does not name the head of the identity's
      chain; for every client, chains only grow at their head.  The
      operator is a keyboard: the lines typed, of which [inquire] (the
      contract of [inquirer.prompt]) takes one for each question, in
      order, and resolves to the object of the answers by name.  On a
      chain that confirms within 120 seconds the ledger
      honours the lifecycle and the waits, so it never refuses the
      script, and the script throws nothing; when [main] returns, the
      update chain of the identity on
      the ledger is the register and the updates of the run, and its
      head is the transaction in [CURR_ORACLE_UPDATED_TX].  On a chain
      that confirms later the script never gets past its first init.
    - [Restart]: the script started on a ledger that already holds
      identities, as a process that starts again finds it, behind a
      network on which any call may fail with its effect or without
      ([flaky], a [Host]): the two variables are in the memory of the
      process, so the script mints and registers a new identity and
      leaves every chain that was there as it was; the ledger stays
      well formed, and a confirmation wait after the process stops,
      wherever that is, it is ready for the next one.
    - [Unbounded]: the script with its unbounded loop as an interaction
      tree ([ITree.iter]); it is [main n] followed by the rest of the
      loop, for every n.
    - [Adequacy]: [exec], an executable interpreter of interaction trees
      against a world, with fuel for the silent steps and the events.
      When [main n] threw or is left waiting, [exec] of the unbounded
      script gives exactly that run (with enough fuel, and no other with
      any fuel); against a cooperative world [exec] never ends.
    - [EndToEnd]: the script, the ledger and the keyboard together.
      Progress: on a chain that confirms in time, 9 + 2n typed lines
      take [main n] to its end, whatever they say.  The unbounded
      script with finitely many lines has one run, in which every
      prompt is answered and every transaction accepted, and which ends
      waiting for the operator at a prompt.

    ** Correspondence with the code

    Every call the script makes to the outside ([await]ed or not) is one
    [Vis] node, in source order: the request carries the arguments, the
    continuation receives the value the call resolved to.  [throw] is
    the [Throw] leaf: nothing catches it, so it ends the process.  The
    two variables are threaded as the state of [M Globals]; reading
    [BASE_ORACLEDID.unit] on [null], or [.trim()] on an absent answer,
    throws the [TypeError] JavaScript throws.  Field reads on the answers
    of a prompt yield [undefined] ([None]) when the field is absent.
    Definitions keep the names of the source: [mintOracle] is the code
    around [oracleMintData], [onChainingMintingOracle] the text of the
    spinner of that name, and so on.

    ** Fuel

    The only unbounded construct is [while (true)].  [loop n] runs n
    iterations and returns the variables; the theorems hold for every n.
    [Unrolling] shows the cut is harmless: every iteration starts with a
    prompt, so against a world that answers k action prompts the run of
    [main n] is the same for all n > k; [Unbounded] shows that [main n]
    is a prefix of the script with its real loop, and [Adequacy] that
    the run of a [main n] that did not return is the run of the real
    loop.  [exec] takes fuel because the real loop need not end: one
    unit per node of the tree it visits.  Its theorems quantify the
    fuel: a result exists for some fuel and is the same for every fuel
    that gives one; against a cooperative world no fuel gives one.
    [Discipline]'s and [Lifecycle]'s witnesses evaluate [main 0],
    [main 1] and [main 2] against [happy], which answers two action
    prompts; [Ledger]'s evaluate [main 2] on a chain that names its
    transactions T1, T2, ... as the scenarios of the specification do,
    with the twelve lines the operator types there; [Restart]'s
    evaluates [main 1] on the ledger that run left.  The bounds of
    [Metering] are the counts of the source: nine questions and three
    transactions before the loop, at most two questions and two
    transactions in an iteration; they hold for every n and every
    world, and [EndToEnd] needs no more lines than these.

    ** Not modelled

    The inside of [rng-ts-lib] (transaction building, signing, Blockfrost
    and Ogmios calls), of [inquirer], [ora] and [chalk]: the script only
    calls them, and their source is not in the repository; they appear
    as requests whose replies are arbitrary, so every theorem outside
    [Ledger], [Restart] and [EndToEnd] holds whatever they do.  [Ledger]
    is a model
    of what the specification says of the executor and of the prompts,
    not of the libraries: a typed line is taken whole as the answer (no
    line editing, validation or default values), its clock
    moves only while a timer runs (the least favourable case for the
    script, which relies on time passing), and its identifiers are any
    non-empty strings.  Wall-clock time outside [Ledger]: [sleep] is an
    event carrying its duration.  What the libraries do when a call
    fails beyond the error they report ([Rejection] takes the error and
    the world after it from the host).  Persistent state: the script
    has none, which is what [Restart] shows.  Code units above 255 and
    the rounding of integers above 2^53 to doubles (the script only
    compares numbers with 1 and 2).  Every line of the script is modelled; what is left
    out lies in the libraries it calls. *)

From Stdlib Require Export ZArith Lia List Ascii String.
From stdpp Require Export base tactics option list strings.

(** ** Tactics *)

(** Case analysis on the scrutinee of a [match] or [if] of the goal. *)
Ltac break_match :=
  match goal with
  | |- context [match ?x with _ => _ end] =>
      let E := fresh "E" in destruct x eqn:E
  end.

(** The same in a hypothesis. *)
Ltac break_match_hyp :=
  match goal with
  | H : context [match ?x with _ => _ end] |- _ =>
      let E := fresh "E" in destruct x eqn:E
  end.

(** Split the pairs, conjunctions and existentials of the context. *)
Ltac destruct_all :=
  repeat match goal with
    | H : _ /\ _ |- _ => destruct H
    | H : exists _, _ |- _ => destruct H
    | p : _ * _ |- _ => destruct p
    end.

(** ** Hint databases *)

(** [js]: facts about strings and built-ins, used with [auto with js].
    [js_rw]: equations oriented as simplifications, used with
    [autorewrite with js_rw]. *)
Create HintDb js.
Create Rewrite HintDb js_rw.
#[export] Hint Constants Opaque : js.
#[export] Hint Variables Opaque : js.

(** ** Strings as sequences of code units *)

Section strings.
Implicit Types s t u : string.
Implicit Types c : ascii.

Lemma append_nil_l s : EmptyString +:+ s = s.
Proof. reflexivity. Qed.

Lemma append_cons c s t : String c s +:+ t = String c (s +:+ t).
Proof. reflexivity. Qed.

Lemma append_nil_r s : s +:+ EmptyString = s.
Proof. induction s; rewrite ?append_cons; [done | congruence]. Qed.

Lemma append_assoc s t u : (s +:+ t) +:+ u = s +:+ (t +:+ u).
Proof. induction s; rewrite ?append_cons; [done | congruence]. Qed.

Lemma length_append s t :
  String.length (s +:+ t) = String.length s + String.length t.
Proof. induction s; rewrite ?append_cons; cbn; [done | congruence]. Qed.

Lemma append_eq_nil s t :
  s +:+ t = EmptyString -> s = EmptyString /\ t = EmptyString.
Proof. destruct s; rewrite ?append_cons; [auto | discriminate]. Qed.

Lemma substring_0_length s n :
  String.length (String.substring 0 n s) = Nat.min n (String.length s).
Proof.
  revert s; induction n as [|n IH]; intros [|c s]; cbn; auto.
Qed.

Lemma substring_0_prefix s n :
  exists t, s = String.substring 0 n s +:+ t.
Proof.
  revert s; induction n as [|n IH]; intros [|c s]; cbn; eauto.
  destruct (IH s) as [t Ht]. exists t. rewrite append_cons. congruence.
Qed.

Lemma substring_0_all s n :
  String.length s <= n -> String.substring 0 n s = s.
Proof.
  revert s; induction n as [|n IH]; intros [|c s]; cbn; auto; try lia.
  intros H. f_equal. apply IH. lia.
Qed.

End strings.

#[export] Hint Rewrite append_nil_l append_cons append_nil_r append_assoc
  length_append : js_rw.
#[export] Hint Resolve append_nil_r append_assoc : js.

