(* ===== verification/JsBuiltins.v ===== *)
(** * JsBuiltins: the ECMAScript built-ins the script calls

    Strings are sequences of code units below 256 ([string]); a value
    that may be [undefined] is an [option].  Numbers are [NaN] or an
    exact integer.  The definitions follow the algorithms of the
    ECMAScript specification: [String.prototype.trim] (TrimString),
    [String.prototype.slice], [parseInt] with no radix argument,
    [ToBoolean], [JSON.stringify] on a string or [undefined]
    (QuoteJSONString), [Error(message)] and the string conversion of a
    template literal. *)

From S2P Require Import Prelude.

#[local] Open Scope Z_scope.

(** ** Numbers *)

(** The result of [parseInt]: not-a-number or an integer. *)
Inductive number : Type :=
| NaN
| Num (z : Z).

#[export] Instance number_eq_dec : EqDecision number.
Proof. solve_decision. Defined.

(** [x === z] for a number [x] and an integer literal [z]: [NaN] is equal
    to nothing. *)
Definition strict_eq (x : number) (z : Z) : bool :=
  match x with
  | NaN => false
  | Num y => bool_decide (y = z)
  end.

(** ** ToBoolean *)

(** The truth value JavaScript gives a value in a condition. *)
Class Truthy (A : Type) := truthy : A -> bool.
#[global] Hint Mode Truthy ! : typeclass_instances.

(** The empty string is falsy, every other string is truthy. *)
#[export] Instance string_truthy : Truthy string :=
  fun s => match s with EmptyString => false | String _ _ => true end.

(** [undefined] is falsy; a defined value has its own truth value. *)
#[export] Instance option_truthy `{Truthy A} : Truthy (option A) :=
  fun o => match o with None => false | Some a => truthy a end.

(** [NaN] and zero are falsy. *)
#[export] Instance number_truthy : Truthy number :=
  fun x => match x with NaN => false | Num z => negb (bool_decide (z = 0)) end.

(** ** White space and trimming *)

(** WhiteSpace and LineTerminator code units below 256: TAB, LF, VT, FF,
    CR, SP and NBSP. *)
Definition is_white (c : ascii) : bool :=
  match c with
  | "009" | "010" | "011" | "012" | "013" | " " | "160" => true
  | _ => false
  end%char.

(** [String.prototype.trimStart]. *)
Fixpoint trimStart (s : string) : string :=
  match s with
  | EmptyString => EmptyString
  | String c s' => if is_white c then trimStart s' else s
  end.

(** [String.prototype.trimEnd]: a code unit is dropped when it is white
    and everything after it was dropped. *)
Fixpoint trimEnd (s : string) : string :=
  match s with
  | EmptyString => EmptyString
  | String c s' =>
      match trimEnd s' with
      | EmptyString => if is_white c then EmptyString else String c EmptyString
      | t => String c t
      end
  end.

(** [String.prototype.trim]. *)
Definition trim (s : string) : string := trimEnd (trimStart s).

(** A string all of whose code units are white space. *)
Fixpoint all_white (s : string) : bool :=
  match s with
  | EmptyString => true
  | String c s' => is_white c && all_white s'
  end.

(** The first code unit, if any. *)
Definition first_char (s : string) : option ascii :=
  match s with EmptyString => None | String c _ => Some c end.

(** The last code unit, if any. *)
Fixpoint last_char (s : string) : option ascii :=
  match s with
  | EmptyString => None
  | String c EmptyString => Some c
  | String _ s' => last_char s'
  end.

(** No white space at either end. *)
Definition trimmed (s : string) : bool :=
  match first_char s, last_char s with
  | Some c, Some d => negb (is_white c) && negb (is_white d)
  | _, _ => true
  end.

(** ** slice *)

(** The index normalisation of [slice]: a negative index counts from the
    end, and the result is clamped to [0, len]. *)
Definition clamp_index (len i : Z) : Z :=
  if i <? 0 then Z.max (len + i) 0 else Z.min i len.

(** [s.slice(start, end)]. *)
Definition slice (s : string) (start end_ : Z) : string :=
  let len := Z.of_nat (String.length s) in
  let from := clamp_index len start in
  let to := clamp_index len end_ in
  String.substring (Z.to_nat from) (Z.to_nat (Z.max (to - from) 0)) s.

(** ** parseInt *)

(** The value of a code unit as a digit: 0-9, then a-z and A-Z as 10-35. *)
Definition digit_value (c : ascii) : option Z :=
  let n := Z.of_N (N_of_ascii c) in
  if (48 <=? n) && (n <=? 57) then Some (n - 48)
  else if (97 <=? n) && (n <=? 122) then Some (n - 87)
  else if (65 <=? n) && (n <=? 90) then Some (n - 55)
  else None.

(** The value of a code unit that is a digit of radix [R]. *)
Definition radix_digit (R : Z) (c : ascii) : option Z :=
  match digit_value c with
  | Some d => if d <? R then Some d else None
  | None => None
  end.

(** The integer denoted by the longest prefix of radix-[R] digits of [s],
    accumulated from [acc]. *)
Fixpoint parse_digits (R : Z) (acc : Z) (s : string) : Z :=
  match s with
  | EmptyString => acc
  | String c s' =>
      match radix_digit R c with
      | Some d => parse_digits R (acc * R + d) s'
      | None => acc
      end
  end.

(** Steps 4-6 of [parseInt]: the sign and the rest of the string. *)
Definition strip_sign (s : string) : Z * string :=
  match s with
  | String c r =>
      if decide (c = "-"%char) then (-1, r)
      else if decide (c = "+"%char) then (1, r)
      else (1, s)
  | EmptyString => (1, s)
  end.

(** Steps 8-11 with no radix argument: the radix is 16 after a [0x] or
    [0X] prefix, which is removed, and 10 otherwise. *)
Definition strip_prefix (s : string) : Z * string :=
  match s with
  | String c (String x r) =>
      if decide (c = "0"%char /\ (x = "x"%char \/ x = "X"%char))
      then (16, r) else (10, s)
  | _ => (10, s)
  end.

(** Steps 12-16: [NaN] when no digit follows, else the signed value. *)
Definition parse_body (sign R : Z) (s : string) : number :=
  match s with
  | EmptyString => NaN
  | String c _ =>
      match radix_digit R c with
      | Some _ => Num (sign * parse_digits R 0 s)
      | None => NaN
      end
  end.

(** [parseInt(s)] on a string. *)
Definition parseInt (s : string) : number :=
  let '(sign, s1) := strip_sign (trimStart s) in
  let '(R, s2) := strip_prefix s1 in
  parse_body sign R s2.

(** The string conversion of a value that may be [undefined], as a
    template literal or [parseInt] applies it. *)
Definition ToString (v : option string) : string :=
  match v with
  | Some s => s
  | None => "undefined"
  end.

(** ** Decimal numerals *)

(** The code unit of a decimal digit. *)
Definition digit_char (d : Z) : ascii := ascii_of_N (Z.to_N (48 + d)).

(** The digits of a non-negative integer in front of [acc], most
    significant first; [fuel] bounds the number of digits. *)
Fixpoint decimal_go (fuel : nat) (n : Z) (acc : string) : string :=
  match fuel with
  | O => acc
  | S fuel' =>
      let acc' := String (digit_char (n mod 10)) acc in
      if n <? 10 then acc' else decimal_go fuel' (n / 10) acc'
  end.

(** The numeral of a non-negative integer: it has at most [n + 1]
    digits. *)
Definition numeral (n : Z) : string := decimal_go (S (Z.to_nat n)) n EmptyString.

(** The decimal numeral of an integer, as [Number.prototype.toString]
    prints it. *)
Definition decimal (z : Z) : string :=
  if z <? 0 then String "-" (numeral (- z)) else numeral z.

(** A string that cannot continue a numeral: it is empty or starts with
    a code unit that is neither a digit nor a letter. *)
Definition ends_numeral (t : string) : bool :=
  match t with
  | EmptyString => true
  | String c _ => match digit_value c with None => true | Some _ => false end
  end.

(** ** JSON.stringify and Error *)

(** The double quote and the backslash. *)
Definition dquote : ascii := "034"%char.
Definition backslash : ascii := "092"%char.

(** A number below 16 as a lower-case hexadecimal digit. *)
Definition hex_digit (n : N) : ascii :=
  if (n <? 10)%N then ascii_of_N (48 + n) else ascii_of_N (87 + n).

(** The escape sequence QuoteJSONString gives one code unit. *)
Definition json_escape (c : ascii) : string :=
  let bs := String backslash in
  match c with
  | "008"%char => bs "b"
  | "009"%char => bs "t"
  | "010"%char => bs "n"
  | "012"%char => bs "f"
  | "013"%char => bs "r"
  | "034"%char => bs (String dquote EmptyString)
  | "092"%char => bs (String backslash EmptyString)
  | _ =>
      let n := N_of_ascii c in
      if (n <? 32)%N
      then bs ("u00" +:+ String (hex_digit (n / 16)) (String (hex_digit (n mod 16)) EmptyString))
      else String c EmptyString
  end.

(** The escaped contents of a string. *)
Fixpoint json_body (s : string) : string :=
  match s with
  | EmptyString => EmptyString
  | String c s' => json_escape c +:+ json_body s'
  end.

(** [JSON.stringify(v)] for a string or [undefined]: [undefined] stays
    [undefined], a string is escaped and quoted. *)
Definition JSON_stringify (v : option string) : option string :=
  match v with
  | None => None
  | Some s => Some (String dquote (json_body s +:+ String dquote EmptyString))
  end.

(** ** JSON.parse on the text of a string *)

(** The value of a hexadecimal digit. *)
Definition hex_value (c : ascii) : option N :=
  match radix_digit 16 c with
  | Some d => Some (Z.to_N d)
  | None => None
  end.

(** The code unit a two-character escape stands for. *)
Definition json_unescape (e : ascii) : option ascii :=
  match e with
  | "b" => Some "008"
  | "t" => Some "009"
  | "n" => Some "010"
  | "f" => Some "012"
  | "r" => Some "013"
  | "034" => Some dquote
  | "092" => Some backslash
  | "/" => Some "/"
  | _ => None
  end%char.

(** Put a code unit in front of what was read. *)
Definition read_cons (c : ascii) (x : option (string * string)) : option (string * string) :=
  match x with
  | Some (v, rest) => Some (String c v, rest)
  | None => None
  end.

(** Read the contents of a JSON string up to its closing quote: the
    contents decoded, and what follows the quote. *)
Fixpoint json_read (s : string) : option (string * string) :=
  match s with
  | EmptyString => None
  | String c r =>
      if decide (c = dquote) then Some (EmptyString, r)
      else if decide (c = backslash) then
        match r with
        | String e r' =>
            match json_unescape e with
            | Some x => read_cons x (json_read r')
            | None =>
                match e, r' with
                | "u"%char, String a (String b (String h (String l r''))) =>
                    match hex_value a, hex_value b, hex_value h, hex_value l with
                    | Some 0%N, Some 0%N, Some x, Some y =>
                        read_cons (ascii_of_N (16 * x + y)) (json_read r'')
                    | _, _, _, _ => None
                    end
                | _, _ => None
                end
            end
        | EmptyString => None
        end
      else if (N_of_ascii c <? 32)%N then None
      else read_cons c (json_read r)
  end.

(** [JSON.parse] on the text of a string, with no white space around
    it. *)
Definition JSON_parse (s : string) : option string :=
  match s with
  | String c r =>
      if decide (c = dquote)
      then match json_read r with
           | Some (v, EmptyString) => Some v
           | _ => None
           end
      else None
  | EmptyString => None
  end.

(** A thrown error object: its constructor's name and its message. *)
Record JsError : Type := mkError { err_name : string; err_message : string }.

#[export] Instance JsError_eq_dec : EqDecision JsError.
Proof. solve_decision. Defined.

(** [Error(message)]: an [undefined] message leaves the message empty. *)
Definition Error (message : option string) : JsError :=
  {| err_name := "Error"; err_message := default EmptyString message |}.

(** The [TypeError] V8 raises when property [reading] is read on [base],
    which is [undefined] or [null]. *)
Definition TypeError (base reading : string) : JsError :=
  {| err_name := "TypeError";
     err_message :=
       "Cannot read properties of " +:+ base +:+ " (reading '" +:+ reading +:+ "')" |}.

#[global] Arguments truthy : simpl never.
#[global] Arguments trim : simpl never.
#[global] Arguments slice : simpl never.
#[global] Arguments parseInt : simpl never.
#[global] Arguments ToString : simpl never.
#[global] Arguments JSON_stringify : simpl never.
#[global] Arguments Error : simpl never.
#[global] Arguments TypeError : simpl never.
#[global] Arguments JSON_parse : simpl never.
#[global] Arguments numeral : simpl never.
#[global] Arguments decimal : simpl never.

(** * Properties *)

(** ** White space *)

Section white.
Implicit Types s t : string.
Implicit Types c : ascii.

Lemma white_not_digit R c : is_white c = true -> radix_digit R c = None.
Proof.
  destruct c as [[] [] [] [] [] [] [] []]; try discriminate; reflexivity.
Qed.

Lemma white_not_sign c :
  is_white c = true -> c <> "-"%char /\ c <> "+"%char /\ c <> "0"%char.
Proof. intros H; repeat split; intros ->; discriminate. Qed.

Lemma all_white_app s t :
  all_white (s +:+ t) = all_white s && all_white t.
Proof.
  induction s as [|c s IH]; [done|].
  rewrite append_cons. cbn. rewrite IH. by destruct (is_white c).
Qed.

Lemma trimStart_white s : all_white s = true -> trimStart s = EmptyString.
Proof.
  induction s as [|c s IH]; [done|]. cbn.
  destruct (is_white c); [exact IH | discriminate].
Qed.

Lemma trimEnd_white s : all_white s = true -> trimEnd s = EmptyString.
Proof.
  induction s as [|c s IH]; [done|]. cbn.
  destruct (is_white c); [|discriminate]. intros H; by rewrite IH.
Qed.

Lemma trimEnd_nil_white s : trimEnd s = EmptyString -> all_white s = true.
Proof.
  induction s as [|c s IH]; [done|]. cbn.
  destruct (trimEnd s); [|discriminate].
  destruct (is_white c); [auto | discriminate].
Qed.

End white.

(** ** trim *)

Section trim.
Implicit Types s t l r : string.

(** What [trimStart] removes is white, and what it leaves does not start
    with white space. *)
Lemma trimStart_decompose s :
  exists l, s = l +:+ trimStart s /\ all_white l = true.
Proof.
  induction s as [|c s (l & Hs & Hl)]; [by exists EmptyString|]. cbn.
  destruct (is_white c) eqn:Hc; [|by exists EmptyString].
  exists (String c l). rewrite append_cons, <- Hs. cbn. by rewrite Hc.
Qed.

Lemma trimStart_head s c : first_char (trimStart s) = Some c -> is_white c = false.
Proof.
  induction s as [|d s IH]; [done|]. cbn.
  destruct (is_white d) eqn:Hd; [exact IH|]. cbn. congruence.
Qed.

Lemma trimEnd_decompose s :
  exists r, s = trimEnd s +:+ r /\ all_white r = true.
Proof.
  induction s as [|c s (r & Hs & Hr)]; [by exists EmptyString|]. cbn.
  destruct (trimEnd s) as [|d t] eqn:E.
  - rewrite append_nil_l in Hs. subst r. destruct (is_white c) eqn:Hc.
    + exists (String c s). cbn. by rewrite Hc.
    + by exists s.
  - exists r. rewrite !append_cons. rewrite append_cons in Hs. by rewrite <- Hs.
Qed.

Lemma trimEnd_last s c : last_char (trimEnd s) = Some c -> is_white c = false.
Proof.
  induction s as [|d s IH]; [done|]. cbn.
  destruct (trimEnd s) as [|e t] eqn:E.
  - destruct (is_white d) eqn:Hd; cbn; congruence.
  - exact IH.
Qed.

(** [trimEnd] keeps the first code unit of what it leaves. *)
Lemma trimEnd_head s :
  trimEnd s = EmptyString \/ first_char (trimEnd s) = first_char s.
Proof.
  destruct s as [|c s]; [by left|]. cbn.
  destruct (trimEnd s); [destruct (is_white c)|]; auto.
Qed.

Lemma trimStart_id s :
  (forall c, first_char s = Some c -> is_white c = false) -> trimStart s = s.
Proof.
  destruct s as [|c s]; [done|]. cbn. intros H. by rewrite (H c).
Qed.

Lemma trimEnd_id s :
  (forall c, last_char s = Some c -> is_white c = false) -> trimEnd s = s.
Proof.
  induction s as [|c s IH]; [done|]. cbn. intros H.
  destruct s as [|d s]; [cbn; by rewrite (H c)|].
  rewrite IH by exact H. done.
Qed.

Lemma trimmed_trim s : trimmed (trim s) = true.
Proof.
  unfold trimmed, trim.
  destruct (first_char (trimEnd (trimStart s))) as [c|] eqn:Hh; [|done].
  destruct (last_char (trimEnd (trimStart s))) as [d|] eqn:Hl; [|done].
  rewrite (trimEnd_last _ _ Hl).
  destruct (trimEnd_head (trimStart s)) as [E|E].
  - rewrite E in Hh. discriminate.
  - rewrite E in Hh. by rewrite (trimStart_head _ _ Hh).
Qed.

Lemma last_char_cons c s : is_Some (last_char (String c s)).
Proof.
  revert c; induction s as [|d s IH]; intros c; [by eexists|].
  exact (IH d).
Qed.

Lemma trimmed_fix s : trimmed s = true -> trim s = s.
Proof.
  unfold trimmed, trim. destruct s as [|x s]; [done|].
  destruct (last_char_cons x s) as [d Hd]. rewrite Hd. cbn [first_char].
  intros [Hx Hl]%andb_true_iff.
  rewrite trimStart_id by (intros c [= <-]; by destruct (is_white x)).
  apply trimEnd_id. intros c Hc. rewrite Hd in Hc.
  injection Hc as <-. by destruct (is_white d).
Qed.

End trim.

(** ** White space around a string *)

Section around.
Implicit Types s t u l r : string.

Lemma trimStart_app_white l u :
  all_white l = true -> trimStart (l +:+ u) = trimStart u.
Proof.
  induction l as [|c l IH]; [done|]. rewrite append_cons. cbn.
  destruct (is_white c); [exact IH | discriminate].
Qed.

Lemma trimEnd_app_white u r :
  all_white r = true -> trimEnd (u +:+ r) = trimEnd u.
Proof.
  intros Hr. induction u as [|c u IH].
  - rewrite append_nil_l. by apply trimEnd_white.
  - rewrite append_cons. cbn. by rewrite IH.
Qed.

Lemma trimStart_app u r :
  trimStart (u +:+ r) =
  if all_white u then trimStart r else trimStart u +:+ r.
Proof.
  induction u as [|c u IH]; [done|]. rewrite append_cons. cbn.
  destruct (is_white c); [exact IH | done].
Qed.

Lemma trimStart_idempotent s : trimStart (trimStart s) = trimStart s.
Proof. apply trimStart_id, trimStart_head. Qed.

End around.

(** ** parseInt ignores trailing white space *)

(** A white string starts with neither a sign, nor a digit, nor [x]. *)
Section white_first.
Variable r : string.
Hypothesis Hr : all_white r = true.

Lemma white_cases :
  r = EmptyString \/ exists c r', r = String c r' /\ is_white c = true.
Proof using Hr.
  destruct r as [|c r']; [by left|]. right. exists c, r'.
  cbn in Hr. by apply andb_true_iff in Hr as [-> _].
Qed.

Lemma strip_sign_white : strip_sign r = (1, r).
Proof using Hr.
  destruct white_cases as [->|(c & r' & -> & Hc)]; [done|].
  destruct (white_not_sign c Hc) as (? & ? & ?).
  cbn. by repeat case_decide.
Qed.

Lemma strip_prefix_white : strip_prefix r = (10, r).
Proof using Hr.
  destruct white_cases as [->|(c & r' & -> & Hc)]; [done|].
  destruct (white_not_sign c Hc) as (? & ? & ?).
  cbn. destruct r'; [done|]. case_decide; [tauto | done].
Qed.

Lemma strip_prefix_cons_white a : strip_prefix (String a r) = (10, String a r).
Proof using Hr.
  destruct white_cases as [->|(c & r' & -> & Hc)]; [done|].
  cbn. case_decide as H; [|done]. destruct H as [_ [->| ->]]; discriminate.
Qed.

Lemma parse_body_white sign R : parse_body sign R r = NaN.
Proof using Hr.
  destruct white_cases as [->|(c & r' & -> & Hc)]; [done|].
  cbn. by rewrite white_not_digit.
Qed.

Lemma parse_digits_white R acc : parse_digits R acc r = acc.
Proof using Hr.
  destruct white_cases as [->|(c & r' & -> & Hc)]; [done|].
  cbn. by rewrite white_not_digit.
Qed.

Lemma parse_digits_app_white R acc u :
  parse_digits R acc (u +:+ r) = parse_digits R acc u.
Proof using Hr.
  revert acc; induction u as [|c u IH]; intros acc.
  - apply parse_digits_white.
  - rewrite append_cons. cbn. destruct (radix_digit R c); [apply IH | done].
Qed.

Lemma parse_body_app_white sign R u :
  parse_body sign R (u +:+ r) = parse_body sign R u.
Proof using Hr.
  destruct u as [|c u]; [apply parse_body_white|].
  unfold parse_body. rewrite append_cons. cbv beta iota.
  rewrite <- append_cons. by rewrite parse_digits_app_white.
Qed.

Lemma parse_prefix_app_white sign u :
  (let '(R, s2) := strip_prefix (u +:+ r) in parse_body sign R s2) =
  (let '(R, s2) := strip_prefix u in parse_body sign R s2).
Proof using Hr.
  destruct u as [|a [|b u]]; rewrite ?append_cons, ?append_nil_l.
  - rewrite strip_prefix_white. apply parse_body_white.
  - rewrite strip_prefix_cons_white.
    apply (parse_body_app_white sign 10 (String a EmptyString)).
  - cbn. case_decide; [apply parse_body_app_white|].
    apply (parse_body_app_white sign 10 (String a (String b u))).
Qed.

Lemma parse_sign_app_white u :
  (let '(sign, s1) := strip_sign (u +:+ r) in
   let '(R, s2) := strip_prefix s1 in parse_body sign R s2) =
  (let '(sign, s1) := strip_sign u in
   let '(R, s2) := strip_prefix s1 in parse_body sign R s2).
Proof using Hr.
  destruct u as [|a u]; rewrite ?append_cons, ?append_nil_l.
  - rewrite strip_sign_white. apply (parse_prefix_app_white 1 EmptyString).
  - cbn. repeat case_decide; try apply parse_prefix_app_white.
    apply (parse_prefix_app_white 1 (String a u)).
Qed.

Lemma parseInt_app_white u : parseInt (u +:+ r) = parseInt u.
Proof using Hr.
  unfold parseInt. rewrite trimStart_app.
  destruct (all_white u) eqn:Hu.
  - by rewrite (trimStart_white r), (trimStart_white u).
  - apply parse_sign_app_white.
Qed.

End white_first.

(** ** parseInt reads back a decimal numeral *)

Section numerals.
Implicit Types (n d z : Z) (s t acc : string).

Lemma radix_digit_char d : 0 <= d < 10 -> radix_digit 10 (digit_char d) = Some d.
Proof.
  intros H.
  assert (d = 0 \/ d = 1 \/ d = 2 \/ d = 3 \/ d = 4 \/ d = 5 \/ d = 6 \/ d = 7 \/
          d = 8 \/ d = 9) as Hd by lia.
  repeat destruct Hd as [->|Hd]; try subst d; reflexivity.
Qed.

Lemma digit_char_plain d :
  0 <= d < 10 ->
  is_white (digit_char d) = false /\ digit_char d <> "-"%char /\
  digit_char d <> "+"%char /\ (digit_char d = "0"%char -> d = 0).
Proof.
  intros H.
  assert (d = 0 \/ d = 1 \/ d = 2 \/ d = 3 \/ d = 4 \/ d = 5 \/ d = 6 \/ d = 7 \/
          d = 8 \/ d = 9) as Hd by lia.
  repeat destruct Hd as [->|Hd]; try subst d; repeat split; done.
Qed.

Lemma ends_numeral_digits R (a : Z) t :
  ends_numeral t = true -> parse_digits R a t = a.
Proof.
  destruct t as [|c t]; [done|]. cbn. unfold radix_digit.
  by destruct (digit_value c).
Qed.

(** Enough fuel: one digit per factor of ten. *)
Lemma parse_decimal_go fuel n acc :
  0 <= n < 10 ^ Z.of_nat fuel ->
  parse_digits 10 0 (decimal_go fuel n acc) = parse_digits 10 n acc.
Proof.
  revert n acc; induction fuel as [|fuel IH]; intros n acc Hn.
  - cbn in Hn. by replace n with 0 by lia.
  - cbn [decimal_go].
    assert (Hd : 0 <= n mod 10 < 10) by (apply Z.mod_pos_bound; lia).
    destruct (n <? 10) eqn:E.
    + cbn [parse_digits]. rewrite radix_digit_char by done.
      rewrite Z.mod_small by lia. done.
    + rewrite IH.
      * cbn [parse_digits]. rewrite radix_digit_char by done.
        f_equal. rewrite (Z.div_mod n 10) at 3 by lia. lia.
      * rewrite Nat2Z.inj_succ, Z.pow_succ_r in Hn by lia.
        split; [apply Z.div_pos; lia | apply Z.div_lt_upper_bound; lia].
Qed.

Lemma decimal_go_first fuel n acc :
  0 <= n < 10 ^ Z.of_nat (S fuel) ->
  exists d s, 0 <= d < 10 /\ decimal_go (S fuel) n acc = String (digit_char d) s /\
    (d = 0 -> n = 0 /\ s = acc).
Proof.
  revert n acc; induction fuel as [|fuel IH]; intros n acc Hn;
    cbn [decimal_go];
    assert (Hd : 0 <= n mod 10 < 10) by (apply Z.mod_pos_bound; lia);
    destruct (n <? 10) eqn:E.
  - exists (n mod 10), acc. rewrite Z.mod_small by lia. repeat split; lia.
  - cbn in Hn. lia.
  - exists (n mod 10), acc. rewrite Z.mod_small by lia. repeat split; lia.
  - destruct (IH (n / 10) (String (digit_char (n mod 10)) acc)) as (d & s & Hd' & Hs & H0).
    + rewrite Nat2Z.inj_succ, Z.pow_succ_r in Hn by lia.
      split; [apply Z.div_pos; lia | apply Z.div_lt_upper_bound; lia].
    + exists d, s. split; [done|]. split; [done|]. intros ->.
      destruct H0 as [H0 _]; [done|].
      assert (1 <= n / 10) by (apply Z.div_le_lower_bound; lia). lia.
Qed.

Lemma pow10_gt n : 0 <= n -> n < 10 ^ Z.of_nat (S (Z.to_nat n)).
Proof.
  intros Hn. rewrite Nat2Z.inj_succ, Z2Nat.id by lia.
  pose proof (Z.pow_gt_lin_r 10 (Z.succ n)). lia.
Qed.

Lemma decimal_go_app fuel n acc t :
  decimal_go fuel n acc +:+ t = decimal_go fuel n (acc +:+ t).
Proof.
  revert n acc; induction fuel as [|fuel IH]; intros n acc; [done|].
  cbn [decimal_go]. destruct (n <? 10); [done|]. by rewrite IH.
Qed.

(** What follows a numeral is not the [x] of a hexadecimal prefix. *)
Lemma strip_prefix_zero t :
  ends_numeral t = true -> strip_prefix (String "0" t) = (10, String "0" t).
Proof.
  destruct t as [|x t]; [done|]. cbn.
  destruct (decide _) as [[_ [->| ->]]|]; [discriminate.. | done].
Qed.

Lemma strip_prefix_nonzero c s : c <> "0"%char -> strip_prefix (String c s) = (10, String c s).
Proof.
  intros Hc. destruct s as [|x s]; [done|]. cbn.
  destruct (decide _) as [[? _]|]; [done | done].
Qed.

Lemma numeral_first n :
  0 <= n -> exists d s, 0 <= d < 10 /\ numeral n = String (digit_char d) s /\
    (d = 0 -> n = 0 /\ s = EmptyString).
Proof. intros Hn. apply decimal_go_first. split; [done | by apply pow10_gt]. Qed.

Lemma parse_digits_numeral n t :
  0 <= n -> ends_numeral t = true -> parse_digits 10 0 (numeral n +:+ t) = n.
Proof.
  intros Hn Ht. unfold numeral. rewrite decimal_go_app, append_nil_l.
  rewrite parse_decimal_go by (split; [done | by apply pow10_gt]).
  by apply ends_numeral_digits.
Qed.

Lemma parse_numeral sign n t :
  0 <= n -> ends_numeral t = true ->
  (let '(R, s2) := strip_prefix (numeral n +:+ t) in parse_body sign R s2) =
  Num (sign * n).
Proof.
  intros Hn Ht. pose proof (parse_digits_numeral n t Hn Ht) as Hp.
  destruct (numeral_first n Hn) as (d & s & Hd & Hs & H0).
  rewrite Hs in *. rewrite append_cons in *.
  assert (strip_prefix (String (digit_char d) (s +:+ t)) =
          (10, String (digit_char d) (s +:+ t))) as ->.
  { destruct (decide (d = 0)) as [->|Hd0].
    - destruct H0 as [_ ->]; [done|]. by apply strip_prefix_zero.
    - apply strip_prefix_nonzero. intros E.
      by apply (proj2 (proj2 (proj2 (digit_char_plain d Hd)))) in E. }
  unfold parse_body. rewrite radix_digit_char by done. by rewrite Hp.
Qed.

Lemma trimStart_cons_plain c s : is_white c = false -> trimStart (String c s) = String c s.
Proof. intros H. cbn. by rewrite H. Qed.

Lemma strip_sign_minus s : strip_sign (String "-" s) = (-1, s).
Proof. reflexivity. Qed.

Lemma strip_sign_plain c s :
  c <> "-"%char -> c <> "+"%char -> strip_sign (String c s) = (1, String c s).
Proof. intros. cbn. by rewrite !decide_False. Qed.

Lemma parseInt_decimal_tail z t :
  ends_numeral t = true -> parseInt (decimal z +:+ t) = Num z.
Proof.
  intros Ht. unfold parseInt, decimal. destruct (z <? 0) eqn:E.
  - rewrite append_cons, trimStart_cons_plain, strip_sign_minus by done.
    rewrite parse_numeral by (done || lia). f_equal. lia.
  - destruct (numeral_first z ltac:(lia)) as (d & s & Hd & Hs & _).
    destruct (digit_char_plain d Hd) as (Hw & Hm & Hp & _).
    assert (strip_sign (trimStart (numeral z +:+ t)) = (1, numeral z +:+ t)) as ->.
    { rewrite Hs, append_cons, trimStart_cons_plain, strip_sign_plain by done. done. }
    rewrite parse_numeral by (done || lia). f_equal. lia.
Qed.
End numerals.

Lemma parseInt_of_trim (s : string) : parseInt (trim s) = parseInt s.
Proof.
  destruct (trimEnd_decompose (trimStart s)) as (r & Ht & Hr).
  unfold trim. rewrite <- (parseInt_app_white r Hr), <- Ht.
  unfold parseInt. by rewrite trimStart_idempotent.
Qed.

(** ** JSON.parse reads back what JSON.stringify wrote *)

Lemma json_read_escape (c : ascii) (r : string) :
  json_read (json_escape c +:+ r) = read_cons c (json_read r).
Proof.
  destruct c as [[] [] [] [] [] [] [] []]; reflexivity.
Qed.

Lemma json_read_body (s r : string) :
  json_read (json_body s +:+ String dquote r) = Some (s, r).
Proof.
  induction s as [|c s IH]; [done|]. cbn [json_body].
  rewrite append_assoc, json_read_escape, IH. done.
Qed.

Lemma JSON_parse_stringify (s : string) :
  JSON_stringify (Some s) ≫= JSON_parse = Some s.
Proof.
  unfold JSON_stringify. cbn. unfold JSON_parse.
  rewrite decide_True by done. rewrite json_read_body. done.
Qed.

(** [JSON.stringify] keeps its arguments apart, [undefined] included. *)
Lemma JSON_stringify_inj (v v' : option string) :
  JSON_stringify v = JSON_stringify v' -> v = v'.
Proof.
  destruct v as [s|], v' as [s'|]; try done. intros E.
  pose proof (JSON_parse_stringify s) as H. rewrite E, JSON_parse_stringify in H.
  congruence.
Qed.

(** ** Main results on the built-ins *)

(** [trim] removes exactly the white space at both ends: the argument
    is the result between two runs of white space, and the result neither
    starts nor ends with white space. *)
Lemma trim_decompose (s : string) :
  exists l r, s = l +:+ JsBuiltins.trim s +:+ r /\
    all_white l = true /\ all_white r = true /\
    trimmed (JsBuiltins.trim s) = true.
Proof.
  destruct (trimStart_decompose s) as (l & Hs & Hl).
  destruct (trimEnd_decompose (trimStart s)) as (r & Ht & Hr).
  exists l, r. unfold trim at 1. rewrite <- Ht, <- Hs.
  auto using trimmed_trim.
Qed.

(** [trim] is the only such decomposition: a string with no white
    space at its ends, surrounded by white space, is what [trim] returns. *)
Lemma trim_unique (s l t r : string) :
  s = l +:+ t +:+ r -> all_white l = true -> all_white r = true ->
  trimmed t = true -> JsBuiltins.trim s = t.
Proof.
  intros -> Hl Hr Ht. unfold trim.
  rewrite trimStart_app_white, trimStart_app by done.
  destruct (all_white t) eqn:Hw.
  - rewrite (trimStart_white r Hr). rewrite <- (trimmed_fix t Ht).
    unfold trim. by rewrite (trimStart_white t Hw).
  - rewrite trimEnd_app_white by done. by apply trimmed_fix.
Qed.

(** C40: [trim] is characterised by its decomposition: [t] is the result
    of trimming [s] exactly when [s] is [t] between two runs of white
    space and [t] neither starts nor ends with white space. *)
Theorem trim_spec (s t : string) :
  JsBuiltins.trim s = t <->
  exists l r, s = l +:+ t +:+ r /\
    all_white l = true /\ all_white r = true /\ trimmed t = true.
Proof.
  split; [intros <-; apply trim_decompose|].
  intros (l & r & ? & ? & ? & ?). by eapply trim_unique.
Qed.

Lemma trim_spec_witness : JsBuiltins.trim " 0x1f  " = "0x1f".
Proof.
  apply (trim_spec " 0x1f  " "0x1f"). exists " ", "  ".
  repeat apply conj; reflexivity.
Defined.

(** Trimming twice is trimming once. *)
Theorem trim_idempotent (s : string) :
  JsBuiltins.trim (JsBuiltins.trim s) = JsBuiltins.trim s.
Proof. apply trimmed_fix, trimmed_trim. Qed.

(** [parseInt] does not see the white space [trim] removes: the
    [.trim()] applied to the network answer before [parseInt] changes
    nothing, and the untrimmed output length parses as if trimmed. *)
Theorem parseInt_trim (s : string) :
  JsBuiltins.parseInt (JsBuiltins.trim s) = JsBuiltins.parseInt s.
Proof. apply parseInt_of_trim. Qed.

(** [s.slice(0, n)] is the prefix of [s] of length [min n |s|]. *)
Theorem slice_prefix (s : string) (n : Z) :
  0 <= n ->
  String.length (JsBuiltins.slice s 0 n) = Nat.min (Z.to_nat n) (String.length s) /\
  exists t, s = JsBuiltins.slice s 0 n +:+ t.
Proof.
  intros Hn. unfold slice, clamp_index.
  replace (0 <? 0) with false by done.
  replace (n <? 0) with false by lia.
  replace (Z.to_nat (Z.min 0 _)) with 0%nat by lia.
  split; [|apply substring_0_prefix].
  rewrite substring_0_length. lia.
Qed.

Lemma slice_prefix_witness :
  String.length (JsBuiltins.slice "a1b2c3d4e5" 0 6) = 6%nat /\
  exists t, "a1b2c3d4e5" = JsBuiltins.slice "a1b2c3d4e5" 0 6 +:+ t.
Proof. apply (slice_prefix "a1b2c3d4e5" 6). lia. Defined.



(** C39: [JSON.parse] reads back the string [JSON.stringify] wrote: the
    message of the error thrown by a failed mint determines the reason
    the RNG instance gave. *)
Theorem JSON_stringify_roundtrip (s : string) :
  JsBuiltins.JSON_stringify (Some s) ≫= JSON_parse = Some s.
Proof. apply JSON_parse_stringify. Qed.
