(* ===== verification/Prog.v ===== *)
(** * Prog: programs that talk to the outside world

    A generic library, independent of the script.  A [Signature] names the
    requests a program may make, the type of the reply to each, the events
    a completed request leaves in a trace, and the values a program may
    throw.  A program ([Prog]) is a finite tree: it returns, throws, or
    makes a request and continues with the reply (one [await]).  [M] is
    [Prog] with a threaded state, for the module level variables of a
    script.

    [run] executes a program against a [World], a handler that answers a
    request or leaves it pending for ever.  [wp] is the weakest
    precondition of a program over every reply the world may give; it is
    sound and complete for [run] ([wp_sound], [wp_complete]).
    [then_post] composes the postconditions of the parts of a sequence
    ([wp_then]); [settles] extends a postcondition of the runs that
    ended to the runs left waiting ([wp_settles]).
    [prog_equiv] relates programs that differ only in how their
    continuations are written; the monad laws hold up to it. *)

From S2P Require Import Prelude.

(** ** Signatures *)

Class Signature : Type := {
  Req : Type;
  Reply : Req -> Type;
  Event : Type;
  event_of : forall c : Req, Reply c -> Event;
  Err : Type;
  Req_eq_dec :: EqDecision Req
}.

Declare Scope prog_scope.
Delimit Scope prog_scope with prog.

Section definitions.
Context `{Sig : Signature}.

(** ** Programs *)

Inductive Prog (A : Type) : Type :=
| Ret (a : A)
| Throw (e : Err)
| Vis (c : Req) (k : Reply c -> Prog A).

#[global] Arguments Ret {A} a.
#[global] Arguments Throw {A} e.
#[global] Arguments Vis {A} c k.

(** Sequencing: run [p], then [f] on its result; a throw ends both. *)
Fixpoint bind {A B : Type} (p : Prog A) (f : A -> Prog B) : Prog B :=
  match p with
  | Ret a => f a
  | Throw e => Throw e
  | Vis c k => Vis c (fun r => bind (k r) f)
  end.

(** Programs equal up to the extension of their continuations. *)
Inductive prog_equiv {A : Type} : Prog A -> Prog A -> Prop :=
| equiv_Ret a : prog_equiv (Ret a) (Ret a)
| equiv_Throw e : prog_equiv (Throw e) (Throw e)
| equiv_Vis c k k' :
    (forall r, prog_equiv (k r) (k' r)) -> prog_equiv (Vis c k) (Vis c k').

(** ** Programs with state *)

Definition M (S A : Type) : Type := S -> Prog (A * S).

Definition mret {S A : Type} (a : A) : M S A := fun s => Ret (a, s).

Definition mbind {S A B : Type} (m : M S A) (f : A -> M S B) : M S B :=
  fun s => bind (m s) (fun x => f (fst x) (snd x)).

(** Read and write the state. *)
Definition get {S : Type} : M S S := fun s => Ret (s, s).
Definition put {S : Type} (s' : S) : M S unit := fun _ => Ret (tt, s').

(** Make a request and wait for its reply. *)
Definition call {S : Type} (c : Req) : M S (Reply c) :=
  fun s => Vis c (fun r => Ret (r, s)).

(** Throw: the rest of the program does not run. *)
Definition throw {S A : Type} (e : Err) : M S A := fun _ => Throw e.

(** [n] rounds of a loop body. *)
Fixpoint iterate {S : Type} (n : nat) (body : M S unit) : M S unit :=
  match n with
  | O => mret tt
  | Datatypes.S n' => mbind body (fun _ => iterate n' body)
  end.

(** ** Execution against a world *)

(** How a run ends: with a result, with a thrown value, or waiting for a
    reply that never comes. *)
Inductive Outcome (A : Type) : Type :=
| Done (a : A)
| Thrown (e : Err)
| Pending (c : Req).

#[global] Arguments Done {A} a.
#[global] Arguments Thrown {A} e.
#[global] Arguments Pending {A} c.

(** A world answers a request and moves on, or never answers. *)
Class World (W : Type) : Type :=
  handle : forall c : Req, W -> option (Reply c * W).

(** The events of a run in order, its outcome and the world it leaves. *)
Record Run (A W : Type) : Type := mkRun {
  trace : list Event;
  outcome : Outcome A;
  final : W
}.

#[global] Arguments mkRun {A W} trace outcome final.
#[global] Arguments trace {A W} r.
#[global] Arguments outcome {A W} r.
#[global] Arguments final {A W} r.

(** Put an event in front of a run. *)
Definition cons_event {A W : Type} (e : Event) (r : Run A W) : Run A W :=
  mkRun (e :: trace r) (outcome r) (final r).

Fixpoint run {A W : Type} `{World W} (p : Prog A) (w : W) : Run A W :=
  match p with
  | Ret a => mkRun [] (Done a) w
  | Throw e => mkRun [] (Thrown e) w
  | Vis c k =>
      match handle c w with
      | None => mkRun [] (Pending c) w
      | Some (r, w') => cons_event (event_of c r) (run (k r) w')
      end
  end.

(** What follows a run of [p] in a run of [bind p f]. *)
Definition then_run {A B W : Type} `{World W}
    (r : Run A W) (f : A -> Prog B) : Run B W :=
  match outcome r with
  | Done a =>
      let r' := run (f a) (final r) in
      mkRun (trace r ++ trace r') (outcome r') (final r')
  | Thrown e => mkRun (trace r) (Thrown e) (final r)
  | Pending c => mkRun (trace r) (Pending c) (final r)
  end.

(** ** Weakest preconditions *)

(** [wp p Q]: whatever the world replies, and wherever it stops replying,
    the trace and the outcome of [p] satisfy [Q]. *)
Fixpoint wp {A : Type} (p : Prog A)
    (Q : list Event -> Outcome A -> Prop) : Prop :=
  match p with
  | Ret a => Q [] (Done a)
  | Throw e => Q [] (Thrown e)
  | Vis c k =>
      Q [] (Pending c) /\
      forall r, wp (k r) (fun t o => Q (event_of c r :: t) o)
  end.

(** The postcondition of [p] that makes [bind p f] satisfy [Q]. *)
Definition bind_post {A B : Type} (f : A -> Prog B)
    (Q : list Event -> Outcome B -> Prop) (t : list Event) (o : Outcome A) : Prop :=
  match o with
  | Done a => wp (f a) (fun t' o' => Q (t ++ t') o')
  | Thrown e => Q t (Thrown e)
  | Pending c => Q t (Pending c)
  end.

(** The postcondition of [bind p f] made of a postcondition [P] of [p]
    and postconditions [Q a] of the [f a]: the run is a run of [p] that
    returned followed by a run of [f], or a run of [p] that did not
    return. *)
Definition then_post {A B : Type} (P : list Event -> Outcome A -> Prop)
    (Q : A -> list Event -> Outcome B -> Prop)
    (t : list Event) (o : Outcome B) : Prop :=
  (exists t1 a t2, t = t1 ++ t2 /\ P t1 (Done a) /\ Q a t2 o) \/
  match o with
  | Done _ => False
  | Thrown e => P t (Thrown e)
  | Pending c => P t (Pending c)
  end.

Definition is_pending {A : Type} (o : Outcome A) : bool :=
  match o with Pending _ => true | _ => false end.

(** [Q] of the runs that ended; of a run left waiting, that it is the
    beginning of a run that ended and satisfies [Q], in which the
    request it waits for is answered next. *)
Definition settles {A : Type} (Q : list Event -> Outcome A -> Prop)
    (t : list Event) (o : Outcome A) : Prop :=
  match o with
  | Pending c =>
      exists r rest o', is_pending o' = false /\ Q (t ++ event_of c r :: rest) o'
  | _ => Q t o
  end.

(** ** The replay world *)

(** A reply prepared for one request. *)
Record Canned : Type := mkCanned { canned_req : Req; canned_reply : Reply canned_req }.

(** The reply a canned answer gives request [c], if it was prepared for it. *)
Definition canned_for (c : Req) (a : Canned) : option (Reply c) :=
  match decide (canned_req a = c) with
  | left e => Some (eq_rect (canned_req a) Reply (canned_reply a) c e)
  | right _ => None
  end.

(** The world that replays a list of prepared answers, in order, and stops
    answering at the first request that does not match. *)
#[export] Instance replay_world : World (list Canned) :=
  fun c w =>
    match w with
    | [] => None
    | a :: w' => match canned_for c a with
                 | Some r => Some (r, w')
                 | None => None
                 end
    end.

End definitions.

#[global] Arguments Canned {Sig}.
#[global] Arguments mkCanned {Sig} canned_req canned_reply.

Notation "x <- m ;; k" := (mbind m (fun x => k))
  (at level 100, m at next level, right associativity) : prog_scope.
Notation "m ;; k" := (mbind m (fun _ => k))
  (at level 100, right associativity) : prog_scope.

#[export] Instance prog_equiv_inst `{Signature} {A : Type} : Equiv (Prog A) :=
  prog_equiv.

(** * Properties *)

Section properties.
Context `{Sig : Signature}.

(** ** Equivalence of programs *)

Section equiv.
Context {A : Type}.
Implicit Types p q : Prog A.

Lemma prog_equiv_refl p : p ≡ p.
Proof. induction p; constructor; auto. Qed.

Lemma prog_equiv_sym p q : p ≡ q -> q ≡ p.
Proof. induction 1; constructor; auto. Qed.

Lemma prog_equiv_Vis_inv c k q :
  Vis c k ≡ q -> exists k', q = Vis c k' /\ forall r, k r ≡ k' r.
Proof.
  intros H. inversion H as [| |c' k1 k' Hk]; subst.
  match goal with
  | E : existT _ _ = existT _ _ |- _ =>
      apply (Eqdep_dec.inj_pair2_eq_dec Req Req_eq_dec) in E as ->
  end.
  by exists k'.
Qed.

Lemma prog_equiv_trans p q u : p ≡ q -> q ≡ u -> p ≡ u.
Proof.
  intros H; revert u. induction H as [a|e|c k k' Hk IH]; intros u Hu; [done..|].
  apply prog_equiv_Vis_inv in Hu as (k'' & -> & Hk'').
  constructor. intros r. by apply IH.
Qed.

#[export] Instance prog_equiv_equivalence : Equivalence (≡@{Prog A}).
Proof.
  split; [exact prog_equiv_refl | exact prog_equiv_sym | exact prog_equiv_trans].
Qed.

End equiv.

(** ** The monad laws *)

Lemma bind_ret_l {A B} (a : A) (f : A -> Prog B) : bind (Ret a) f = f a.
Proof. reflexivity. Qed.

Lemma bind_ret_r {A} (p : Prog A) : bind p Ret ≡ p.
Proof. induction p; constructor; auto. Qed.

Lemma bind_assoc {A B C} (p : Prog A) (f : A -> Prog B) (g : B -> Prog C) :
  bind (bind p f) g ≡ bind p (fun a => bind (f a) g).
Proof. induction p; cbn; [reflexivity | constructor | constructor; auto]. Qed.

Lemma bind_equiv {A B} (p q : Prog A) (f g : A -> Prog B) :
  p ≡ q -> (forall a, f a ≡ g a) -> bind p f ≡ bind q g.
Proof. intros H Hf. induction H; cbn; [apply Hf | constructor | constructor; auto]. Qed.

#[export] Instance bind_proper {A B} :
  Proper ((≡) ==> pointwise_relation A (≡) ==> (≡)) (@bind _ A B).
Proof. intros p q H f g Hf. by apply bind_equiv. Qed.

(** ** Runs *)

Section runs.
Context {W : Type} `{HW : !World W}.

Lemma run_bind {A B} (p : Prog A) (f : A -> Prog B) (w : W) :
  run (bind p f) w = then_run (run p w) f.
Proof.
  revert w; induction p as [a|e|c k IH]; intros w; cbn.
  - by destruct (run (f a) w).
  - done.
  - destruct (handle c w) as [[r w']|]; [|done].
    rewrite IH. unfold then_run, cons_event; cbn.
    by destruct (outcome (run (k r) w')).
Qed.

Lemma run_equiv {A} (p q : Prog A) (w : W) : p ≡ q -> run p w = run q w.
Proof.
  intros H; revert w. induction H as [a|e|c k k' Hk IH]; intros w; [done..|].
  cbn. destruct (handle c w) as [[r w']|]; [|done]. by rewrite IH.
Qed.

#[export] Instance run_proper {A} : Proper ((≡) ==> (=) ==> (=)) (@run _ A W _).
Proof. intros p q H w ? <-. by apply run_equiv. Qed.

Lemma run_vis_some {A} (c : Req) (k : Reply c -> Prog A) (w w' : W) r :
  handle c w = Some (r, w') ->
  run (Vis c k) w = cons_event (event_of c r) (run (k r) w').
Proof. intros E. cbn. by rewrite E. Qed.

Lemma run_vis_none {A} (c : Req) (k : Reply c -> Prog A) (w : W) :
  handle c w = None -> run (Vis c k) w = mkRun [] (Pending c) w.
Proof. intros E. cbn. by rewrite E. Qed.

(** What every reply of the world satisfies, every event of a run
    satisfies. *)
Lemma run_trace_Forall {A} (P : Event -> Prop) (p : Prog A) (w : W) :
  (forall c w r w', handle c w = Some (r, w') -> P (event_of c r)) ->
  Forall P (trace (run p w)).
Proof.
  intros HP. revert w; induction p as [a|e|c k IH]; intros w; cbn; [done..|].
  destruct (handle c w) as [[r w']|] eqn:E; [|done].
  cbn. constructor; [by eapply HP | apply IH].
Qed.

(** Against a world that answers every request no run is left waiting. *)
Lemma run_not_pending {A} (p : Prog A) (w : W) c :
  (forall c w, is_Some (handle c w)) -> outcome (run p w) <> Pending c.
Proof.
  intros HW'. revert w; induction p as [a|e|c' k IH]; intros w; cbn; [done..|].
  destruct (HW' c' w) as [[r w'] ->]. apply IH.
Qed.

(** A run is left waiting on a request the final world does not
    answer. *)
Lemma run_pending_handle {A} (p : Prog A) (w : W) c :
  outcome (run p w) = Pending c -> handle c (final (run p w)) = None.
Proof.
  revert w; induction p as [a|e|c' k IH]; intros w; cbn; [done..|].
  destruct (handle c' w) as [[r w']|] eqn:E; cbn; [apply IH|].
  by intros [= <-].
Qed.

(** What every step of the world preserves relates the world at the
    start of a run to the world at its end. *)
Lemma run_final_rel {A} (R : relation W) (p : Prog A) (w : W) :
  (forall w, R w w) -> (forall w1 w2 w3, R w1 w2 -> R w2 w3 -> R w1 w3) ->
  (forall c w r w', handle c w = Some (r, w') -> R w w') -> R w (final (run p w)).
Proof.
  intros Hrefl Htrans HR. revert w; induction p as [a|e|c k IH]; intros w; [done..|].
  destruct (handle c w) as [[r w']|] eqn:E;
    [rewrite (run_vis_some _ _ _ _ _ E)|by rewrite (run_vis_none _ _ _ E)].
  cbn. eapply Htrans; [by eapply HR|apply IH].
Qed.

(** A run that did not return is the run of whatever follows it. *)
Lemma then_run_stuck {A} (r : Run A W) (f : A -> Prog A) :
  (forall a, outcome r <> Done a) -> then_run r f = r.
Proof.
  intros H. unfold then_run. destruct r as [t [a|e|c] w]; cbn in *; [|done..].
  by destruct (H a).
Qed.

(** The trace of a run is extended by what follows it. *)
Lemma then_run_prefix {A B} (r : Run A W) (f : A -> Prog B) :
  trace r `prefix_of` trace (then_run r f).
Proof.
  unfold then_run. destruct (outcome r); cbn; [|done..].
  by apply prefix_app_r.
Qed.

Lemma run_bind_stuck {A} (p : Prog A) (f : A -> Prog A) (w : W) :
  (forall a, outcome (run p w) <> Done a) -> run (bind p f) w = run p w.
Proof. rewrite run_bind. apply then_run_stuck. Qed.

Lemma run_bind_prefix {A B} (p : Prog A) (f : A -> Prog B) (w : W) :
  trace (run p w) `prefix_of` trace (run (bind p f) w).
Proof. rewrite run_bind. apply then_run_prefix. Qed.

End runs.

(** ** Weakest preconditions *)

Section wp.
Context {A : Type}.
Implicit Types p : Prog A.
Implicit Types Q : list Event -> Outcome A -> Prop.

Lemma wp_mono p Q Q' :
  (forall t o, Q t o -> Q' t o) -> wp p Q -> wp p Q'.
Proof.
  revert Q Q'; induction p as [a|e|c k IH]; intros Q Q' HQ; cbn; auto.
  intros [H0 H]. split; [auto|]. intros r. eapply IH; [|apply H]. cbn; auto.
Qed.

Lemma wp_conj p Q Q' :
  wp p Q -> wp p Q' -> wp p (fun t o => Q t o /\ Q' t o).
Proof.
  revert Q Q'; induction p as [a|e|c k IH]; intros Q Q'; cbn; auto.
  intros [H0 H] [H0' H']. split; [auto|]. intros r. by apply IH.
Qed.

Lemma wp_equiv p q Q : p ≡ q -> wp p Q -> wp q Q.
Proof.
  intros H; revert Q. induction H as [a|e|c k k' Hk IH]; intros Q; [done..|].
  cbn. intros [H0 H]. split; [done|]. intros r. by apply IH.
Qed.

Lemma wp_bind {B} p (f : A -> Prog B) (Q : list Event -> Outcome B -> Prop) :
  wp (bind p f) Q <-> wp p (bind_post f Q).
Proof.
  revert Q; induction p as [a|e|c k IH]; intros Q; cbn; [done..|].
  split; intros [H0 H]; (split; [done|]); intros r; specialize (H r).
  - apply IH in H. eapply wp_mono; [|exact H].
    intros t [a|e|c']; cbn; auto.
  - apply IH. eapply wp_mono; [|exact H].
    intros t [a|e|c']; cbn; auto.
Qed.

(** Sequencing, with an intermediate postcondition. *)
Lemma wp_bind_intro {B} p (f : A -> Prog B) Q
    (Q' : list Event -> Outcome B -> Prop) :
  wp p Q -> (forall t o, Q t o -> bind_post f Q' t o) -> wp (bind p f) Q'.
Proof. intros H HQ. apply wp_bind. by eapply wp_mono. Qed.

(** [wp] holds of every run. *)
Lemma wp_sound p Q {W : Type} `{HW : !World W} (w : W) :
  wp p Q -> Q (trace (run p w)) (outcome (run p w)).
Proof.
  revert Q w; induction p as [a|e|c k IH]; intros Q w; cbn; [done..|].
  intros [H0 H]. destruct (handle c w) as [[r w']|]; [|done].
  cbn. apply (IH r (fun t o => Q (event_of c r :: t) o)), H.
Qed.

End wp.

(** ** Postconditions of sequences and of paths left waiting *)

Section paths.
Context `{Hinh : forall c, Inhabited (Reply c)}.

(** Sequencing, with a postcondition for each part. *)
Lemma wp_then {A B} (p : Prog A) (f : A -> Prog B) Q
    (Q' : A -> list Event -> Outcome B -> Prop) :
  wp p Q -> (forall a, wp (f a) (Q' a)) -> wp (bind p f) (then_post Q Q').
Proof.
  intros HP HQ. eapply wp_bind_intro; [exact HP|].
  intros t [a|e|c] H; cbn; [|by right..].
  eapply wp_mono; [|apply HQ]. intros t2 o H2. left. by exists t, a, t2.
Qed.

(** When every request has a reply, a program has a path that ends. *)
Lemma wp_path {A} (p : Prog A) Q :
  wp p Q -> exists t o, is_pending o = false /\ Q t o.
Proof.
  revert Q; induction p as [a|e|c k IH]; intros Q; cbn.
  - intros H. by exists [], (Done a).
  - intros H. by exists [], (Thrown e).
  - intros [_ H]. destruct (IH inhabitant _ (H inhabitant)) as (t & o & ? & ?). eauto.
Qed.

(** So what holds of the paths that end says where a path left waiting
    was heading. *)
Lemma wp_settles {A} (p : Prog A) Q :
  wp p Q -> wp p (settles Q).
Proof.
  revert Q; induction p as [a|e|c k IH]; intros Q; cbn; [done..|].
  intros [_ H]. split.
  - destruct (wp_path _ _ (H inhabitant)) as (t & o & ? & ?). by exists inhabitant, t, o.
  - intros r. eapply wp_mono; [|exact (IH r _ (H r))]. by intros t [a|e|c'].
Qed.

End paths.

(** ** Replay: every path of a program is a run *)

Section replay.
Context {A : Type}.

Lemma canned_for_same (c : Req) (r : Reply c) :
  canned_for c (mkCanned c r) = Some r.
Proof.
  unfold canned_for; cbn. destruct (decide (c = c)) as [e|]; [|done].
  by rewrite (proof_irrel e eq_refl).
Qed.

Lemma run_replay_cons (c : Req) (r : Reply c) (k : Reply c -> Prog A) w :
  run (Vis c k) (mkCanned c r :: w) = cons_event (event_of c r) (run (k r) w).
Proof. cbn. by rewrite canned_for_same. Qed.

(** A property of all runs in the replay world is a weakest
    precondition. *)
Lemma wp_complete (p : Prog A) (Q : list Event -> Outcome A -> Prop) :
  (forall w : list Canned, Q (trace (run p w)) (outcome (run p w))) -> wp p Q.
Proof.
  revert Q; induction p as [a|e|c k IH]; intros Q H; cbn.
  - exact (H []).
  - exact (H []).
  - split; [exact (H [])|]. intros r. apply IH. intros w.
    specialize (H (mkCanned c r :: w)). by rewrite run_replay_cons in H.
Qed.

End replay.

(** ** Programs with state *)

Section state.
Context {S : Type}.

Lemma wp_mbind {A B} (m : M S A) (f : A -> M S B) (s : S)
    (Q : list Event -> Outcome (B * S) -> Prop) :
  wp (mbind m f s) Q <->
  wp (m s) (bind_post (fun x => f (fst x) (snd x)) Q).
Proof. apply wp_bind. Qed.

Lemma wp_mbind_intro {A B} (m : M S A) (f : A -> M S B) (s : S) Q
    (Q' : list Event -> Outcome (B * S) -> Prop) :
  wp (m s) Q ->
  (forall t o, Q t o -> bind_post (fun x => f (fst x) (snd x)) Q' t o) ->
  wp (mbind m f s) Q'.
Proof. apply wp_bind_intro. Qed.

Lemma wp_call (c : Req) (s : S) (Q : list Event -> Outcome (Reply c * S) -> Prop) :
  wp (call c s) Q <->
  Q [] (Pending c) /\ forall r, Q [event_of c r] (Done (r, s)).
Proof. reflexivity. Qed.

Lemma iterate_succ (n : nat) (body : M S unit) (s : S) :
  iterate (Datatypes.S n) body s =
  bind (body s) (fun x => iterate n body (snd x)).
Proof. reflexivity. Qed.

(** A loop of [n + m] rounds is [n] rounds followed by [m] rounds. *)
Lemma iterate_add (n m : nat) (body : M S unit) (s : S) :
  iterate (n + m) body s ≡
  bind (iterate n body s) (fun x => iterate m body (snd x)).
Proof.
  revert s; induction n as [|n IH]; intros s; [reflexivity|].
  cbn [Nat.add]. rewrite !iterate_succ, bind_assoc.
  apply bind_equiv; [reflexivity|]. intros x. apply IH.
Qed.

(** More rounds do not change a run that did not return, and only
    extend the trace of one that did. *)
Lemma run_iterate_stuck {W : Type} `{HW : !World W}
    (n m : nat) (body : M S unit) (s : S) (w : W) :
  (forall x, outcome (run (iterate n body s) w) <> Done x) ->
  run (iterate (n + m) body s) w = run (iterate n body s) w.
Proof. intros H. rewrite (run_equiv _ _ w (iterate_add n m body s)). by apply run_bind_stuck. Qed.

Lemma run_iterate_prefix {W : Type} `{HW : !World W}
    (n m : nat) (body : M S unit) (s : S) (w : W) :
  trace (run (iterate n body s) w) `prefix_of`
  trace (run (iterate (n + m) body s) w).
Proof. rewrite (run_equiv _ _ w (iterate_add n m body s)). apply run_bind_prefix. Qed.

End state.

End properties.

(** Runs are compared, not unfolded, outside this file. *)
#[global] Arguments run : simpl never.
