(* ===== verification/Monitor.v ===== *)
(** * Monitor: safety properties of traces, and a logic to prove them

    A generic library.  A [Monitor] is a deterministic automaton that
    reads the events of a run and gets stuck on the first event that
    violates the property it watches; it also says which requests may be
    issued and which values may be thrown in each of its states, which
    constrains a request that is never answered and the way a run dies.  [mwp] is the weakest precondition specialised to a
    monitor: every run of the program is accepted, and the results it
    returns satisfy a postcondition on the monitor's state.  Its rules
    follow the structure of programs, so a property of the whole script
    is proved stage by stage and, for the loop, by an invariant. *)

From S2P Require Import Prelude Prog.

Section definitions.
Context `{Sig : Signature}.

Record Monitor : Type := mkMonitor {
  mstate : Type;
  mstep : mstate -> Event -> option mstate;
  mallow : mstate -> Req -> bool;
  mthrows : mstate -> Err -> bool
}.

(** The state a monitor reaches on a trace, if it accepts it. *)
Fixpoint mrun (Mo : Monitor) (s : mstate Mo) (t : list Event) : option (mstate Mo) :=
  match t with
  | [] => Some s
  | e :: t' =>
      match mstep Mo s e with
      | Some s' => mrun Mo s' t'
      | None => None
      end
  end.

(** What a monitor requires of the end of a run. *)
Definition mpost {A : Type} (Mo : Monitor) (Q : A -> mstate Mo -> Prop)
    (s : mstate Mo) (o : Outcome A) : Prop :=
  match o with
  | Done a => Q a s
  | Thrown e => mthrows Mo s e = true
  | Pending c => mallow Mo s c = true
  end.

(** A run is accepted from state [s]. *)
Definition accepts {A : Type} (Mo : Monitor) (s : mstate Mo)
    (t : list Event) (o : Outcome A) : Prop :=
  exists s', mrun Mo s t = Some s' /\ mpost Mo (fun _ _ => True) s' o.

(** Every run of [p] is accepted from [s], and leaves the monitor in a
    state that satisfies [Q] when it returns. *)
Definition mwp {A : Type} (Mo : Monitor) (p : Prog A) (s : mstate Mo)
    (Q : A -> mstate Mo -> Prop) : Prop :=
  wp p (fun t o => exists s', mrun Mo s t = Some s' /\ mpost Mo Q s' o).

(** The monitor that accepts what two monitors both accept. *)
Definition both (M1 M2 : Monitor) : Monitor := {|
  mstate := mstate M1 * mstate M2;
  mstep := fun s e =>
    match mstep M1 (fst s) e, mstep M2 (snd s) e with
    | Some s1, Some s2 => Some (s1, s2)
    | _, _ => None
    end;
  mallow := fun s c => mallow M1 (fst s) c && mallow M2 (snd s) c;
  mthrows := fun s e => mthrows M1 (fst s) e && mthrows M2 (snd s) e
|}.

(** The monitor that accepts every run: with it [mwp] only speaks of the
    results a program returns. *)
Definition top : Monitor := {|
  mstate := unit;
  mstep := fun _ _ => Some tt;
  mallow := fun _ _ => true;
  mthrows := fun _ _ => true
|}.

(** Every result [p] returns satisfies [Q]. *)
Definition returns {A : Type} (p : Prog A) (Q : A -> Prop) : Prop :=
  mwp top p tt (fun a _ => Q a).

(** A world honours a monitor, for a relation [R] between the monitor's
    states and the world's and a predicate [good] of events: to a request
    the monitor allows, in related states, the world gives a good reply
    and moves to a state related to the monitor's next state.  This is
    the server's side of the contract a monitor states; [mwp] is the
    client's side. *)
Definition honours (Mo : Monitor) {W : Type} `{HW : !World W}
    (R : mstate Mo -> W -> Prop) (good : Event -> Prop) : Prop :=
  forall s w c r w',
    R s w -> mallow Mo s c = true -> handle c w = Some (r, w') ->
    good (event_of c r) /\
    forall s', mstep Mo s (event_of c r) = Some s' -> R s' w'.

(** A world that answers as another does, when it answers. *)
Definition below {W : Type} (H1 H2 : World W) : Prop :=
  forall c w r w', @handle _ W H1 c w = Some (r, w') -> @handle _ W H2 c w = Some (r, w').

End definitions.

#[global] Arguments mwp : simpl never.

(** * Properties *)

Section properties.
Context `{Sig : Signature}.
Variable Mo : Monitor.
Implicit Types s : mstate Mo.

Lemma mrun_app s t t' :
  mrun Mo s (t ++ t') = mrun Mo s t ≫= fun s' => mrun Mo s' t'.
Proof.
  revert s; induction t as [|e t IH]; intros s; [done|]. cbn.
  destruct (mstep Mo s e); [apply IH | done].
Qed.

Section rules.
Context {A : Type}.
Implicit Types p : Prog A.
Implicit Types Q : A -> mstate Mo -> Prop.

Lemma mwp_ret a s Q : Q a s -> mwp Mo (Ret a) s Q.
Proof. intros H. by exists s. Qed.

Lemma mwp_throw e s Q : mthrows Mo s e = true -> mwp Mo (Throw e : Prog A) s Q.
Proof. intros H. by exists s. Qed.

Lemma mwp_vis c k s Q :
  mallow Mo s c = true ->
  (forall r, exists s', mstep Mo s (event_of c r) = Some s' /\ mwp Mo (k r) s' Q) ->
  mwp Mo (Vis c k) s Q.
Proof.
  intros Hc Hk. split; [by exists s|]. intros r.
  destruct (Hk r) as (s' & Hs & H). eapply wp_mono; [|exact H].
  cbn. intros t o (s'' & Ht & Ho). exists s''. by rewrite Hs.
Qed.

Lemma mwp_mono p s Q Q' :
  (forall a s', Q a s' -> Q' a s') -> mwp Mo p s Q -> mwp Mo p s Q'.
Proof.
  intros HQ. apply wp_mono. intros t o (s' & Ht & Ho). exists s'.
  split; [done|]. destruct o; cbn in *; auto.
Qed.

Lemma mwp_equiv p q s Q : p ≡ q -> mwp Mo p s Q -> mwp Mo q s Q.
Proof. apply wp_equiv. Qed.

Lemma mwp_bind {B} p (f : A -> Prog B) s (Q : B -> mstate Mo -> Prop) :
  mwp Mo p s (fun a s' => mwp Mo (f a) s' Q) -> mwp Mo (bind p f) s Q.
Proof.
  intros H. apply wp_bind. eapply wp_mono; [|exact H].
  intros t [a|e|c] (s' & Ht & Ho); cbn in *.
  - eapply wp_mono; [|exact Ho]. intros t' o' (s'' & Ht' & Ho').
    exists s''. by rewrite mrun_app, Ht.
  - exists s'. by rewrite app_nil_r || auto.
  - exists s'. auto.
Qed.

(** The runs of a program that satisfies [mwp] are accepted and end as
    the monitor and the postcondition require. *)
Lemma mwp_run p s Q {W : Type} `{HW : !World W} (w : W) :
  mwp Mo p s Q ->
  exists s', mrun Mo s (trace (run p w)) = Some s' /\
    mpost Mo Q s' (outcome (run p w)).
Proof. intros H. exact (wp_sound p _ w H). Qed.

(** The runs of a program that satisfies [mwp] are accepted. *)
Lemma mwp_sound p s Q {W : Type} `{HW : !World W} (w : W) :
  mwp Mo p s Q -> accepts Mo s (trace (run p w)) (outcome (run p w)).
Proof.
  intros (s' & Ht & Ho)%(mwp_run p s Q w).
  exists s'. split; [done|]. by destruct (outcome (run p w)).
Qed.

(** When such a run returns, the monitor's state satisfies [Q]. *)
Lemma mwp_sound_done p s Q {W : Type} `{HW : !World W} (w : W) a :
  mwp Mo p s Q -> outcome (run p w) = Done a ->
  exists s', mrun Mo s (trace (run p w)) = Some s' /\ Q a s'.
Proof.
  intros (s' & Ht & HQ)%(mwp_run p s Q w) Ho.
  rewrite Ho in HQ. by exists s'.
Qed.

End rules.

(** What [returns] promises of a run. *)
Lemma returns_run {A} (p : Prog A) (Q : A -> Prop)
    {W : Type} `{HW : !World W} (w : W) a :
  returns p Q -> outcome (run p w) = Done a -> Q a.
Proof.
  intros H Ho. pose proof (wp_sound p _ w H) as (s' & _ & HQ).
  by rewrite Ho in HQ.
Qed.

(** ** Programs with state *)

Section state.
Context {S : Type}.

Lemma mwp_mret {A} (a : A) (g : S) s (Q : A * S -> mstate Mo -> Prop) :
  Q (a, g) s -> mwp Mo (mret a g) s Q.
Proof. apply mwp_ret. Qed.

Lemma mwp_mbind {A B} (m : M S A) (f : A -> M S B) (g : S) s
    (Q : B * S -> mstate Mo -> Prop) :
  mwp Mo (m g) s (fun x s' => mwp Mo (f (fst x) (snd x)) s' Q) ->
  mwp Mo (mbind m f g) s Q.
Proof. apply mwp_bind. Qed.

Lemma mwp_call (c : Req) (g : S) s (Q : Reply c * S -> mstate Mo -> Prop) :
  mallow Mo s c = true ->
  (forall r, exists s', mstep Mo s (event_of c r) = Some s' /\ Q (r, g) s') ->
  mwp Mo (call c g) s Q.
Proof.
  intros Hc H. apply mwp_vis; [done|]. intros r.
  destruct (H r) as (s' & Hs & HQ). exists s'. split; [done|].
  by apply mwp_ret.
Qed.

(** The loop rule: an invariant of the body is an invariant of the loop. *)
Lemma mwp_iterate (I : S -> mstate Mo -> Prop) (body : M S unit) (n : nat) g s :
  (forall g s, I g s -> mwp Mo (body g) s (fun x s' => I (snd x) s')) ->
  I g s ->
  mwp Mo (iterate n body g) s (fun x s' => I (snd x) s').
Proof.
  intros Hbody. revert g s; induction n as [|n IH]; intros g s HI.
  - by apply mwp_ret.
  - rewrite iterate_succ. apply mwp_bind.
    eapply mwp_mono; [|by apply Hbody]. intros x s'. apply IH.
Qed.

(** The loop rule with a count: an invariant indexed by the rounds that
    are left. *)
Lemma mwp_iterate_ranked (I : nat -> S -> mstate Mo -> Prop) (body : M S unit)
    (n : nat) g s :
  (forall k g s, I (Datatypes.S k) g s ->
     mwp Mo (body g) s (fun x s' => I k (snd x) s')) ->
  I n g s ->
  mwp Mo (iterate n body g) s (fun x s' => I 0 (snd x) s').
Proof.
  intros Hbody. revert g s; induction n as [|n IH]; intros g s HI.
  - by apply mwp_ret.
  - rewrite iterate_succ. apply mwp_bind.
    eapply mwp_mono; [|by apply Hbody]. intros x s'. apply IH.
Qed.

End state.

End properties.

(** ** Two monitors at once *)

Section both.
Context `{Sig : Signature}.
Variables M1 M2 : Monitor.

Lemma mrun_both s1 s2 t :
  mrun (both M1 M2) (s1, s2) t =
  s1' ← mrun M1 s1 t; s2' ← mrun M2 s2 t; Some (s1', s2').
Proof.
  revert s1 s2; induction t as [|e t IH]; intros s1 s2; [done|]. cbn.
  destruct (mstep M1 s1 e) as [s1'|], (mstep M2 s2 e) as [s2'|]; cbn; auto.
  by destruct (mrun M1 s1' t).
Qed.

Lemma mwp_both {A} (p : Prog A) s1 s2 Q1 Q2 :
  mwp M1 p s1 Q1 -> mwp M2 p s2 Q2 ->
  mwp (both M1 M2) p (s1, s2) (fun a s => Q1 a (fst s) /\ Q2 a (snd s)).
Proof.
  intros H1 H2. eapply wp_mono; [|exact (wp_conj _ _ _ H1 H2)].
  cbn. intros t o [(s1' & Ht1 & Ho1) (s2' & Ht2 & Ho2)].
  exists (s1', s2'). rewrite mrun_both, Ht1, Ht2. split; [done|].
  destruct o; cbn in *; auto; by rewrite Ho1, Ho2.
Qed.

End both.

(** ** Automation *)

(** How to split the reply of a request into cases: nothing by default;
    the file that declares a signature says how its replies split. *)
Ltac split_reply r := idtac.

(** Name the reply of a request and split it. *)
Ltac intro_reply :=
  let r := fresh "r" in
  intros r; cbn in r; split_reply r.

(** The side conditions of a monitor step: evaluate the monitor, the
    tests [bool_decide] makes being true. *)
Ltac mon_side :=
  cbn; rewrite ?bool_decide_eq_true_2 by first [done | lia]; reflexivity.

(** One rule of the logic, chosen by the head of the program; a program
    stuck on a [match] is split on its scrutinee. *)
Ltac mwp_step :=
  match goal with
  | |- mwp _ (Ret _) _ _ => apply mwp_ret
  | |- mwp _ (mret _ _) _ _ => apply mwp_mret
  | |- mwp _ (put _ _) _ _ => apply mwp_ret
  | |- mwp _ (get _) _ _ => apply mwp_ret
  | |- mwp _ (Throw _) _ _ => apply mwp_throw; mon_side
  | |- mwp _ (throw _ _) _ _ => apply mwp_throw; mon_side
  | |- mwp ?Mo (call ?c ?g) ?s ?Q =>
      apply (mwp_call Mo c g s Q);
      [mon_side | intro_reply; (eexists; split; [mon_side|])]
  | |- mwp _ (Vis _ _) _ _ =>
      apply mwp_vis; [mon_side | intro_reply; (eexists; split; [mon_side|])]
  | |- mwp _ ?p _ _ =>
      match p with
      | context [match ?x with _ => _ end] => destruct x eqn:?
      end
  end.

(** Run a straight-line program through the monitor. *)
Ltac mwp_go := repeat first [progress cbn | mwp_step].

(** One request in front of the rest of a program with state. *)
Ltac mwp_call_then :=
  apply mwp_mbind;
  lazymatch goal with
  | |- mwp ?Mo (call ?c ?g) ?s ?Q => apply (mwp_call Mo c g s Q)
  end;
  [mon_side | intro_reply; (eexists; split; [mon_side | cbn [fst snd]])].

(** ** Accepted traces, event by event *)

Section split.
Context `{Sig : Signature}.
Variable Mo : Monitor.

(** An accepted trace is accepted up to each of its events, and the
    monitor steps on that event. *)
Lemma mrun_split (s s' : mstate Mo) t1 e t2 :
  mrun Mo s (t1 ++ e :: t2) = Some s' ->
  exists s1 s2, mrun Mo s t1 = Some s1 /\ mstep Mo s1 e = Some s2 /\
    mrun Mo s2 t2 = Some s'.
Proof.
  rewrite mrun_app. destruct (mrun Mo s t1) as [s1|]; [|done]. cbn.
  destruct (mstep Mo s1 e) as [s2|] eqn:E; [|done]. eauto.
Qed.

End split.

(** ** A client and a server that keep the same contract

    A program the monitor accepts ([mwp], the client's obligation), run
    against a world that honours the monitor (the server's obligation),
    gets good replies only, and the world stays related to the monitor
    to the end of the run. *)

Section simulation.
Context `{Sig : Signature}.
Variable Mo : Monitor.

(** What [mwp] says of a request: it is allowed, the monitor steps on
    every reply, and the rest of the program is accepted from there. *)
Lemma mwp_vis_inv {A} c (k : Reply c -> Prog A) (s : mstate Mo) Q :
  mwp Mo (Vis c k) s Q ->
  mallow Mo s c = true /\
  forall r, exists s1, mstep Mo s (event_of c r) = Some s1 /\ mwp Mo (k r) s1 Q.
Proof.
  intros [(s0 & [= <-] & Hc) Hk]. split; [exact Hc|]. intros r.
  specialize (Hk r).
  pose proof (wp_sound (k r) _ ([] : list Canned) Hk) as (s' & Hs' & _).
  cbn in Hs'. destruct (mstep Mo s (event_of c r)) as [s1|] eqn:E; [|done].
  exists s1. split; [done|]. eapply wp_mono; [|exact Hk].
  cbn. intros t o (s2 & H2 & Ho). rewrite E in H2. eauto.
Qed.

(** A monitor that only records (it steps on every event and allows
    every request and every throw) accepts every program. *)
Lemma mwp_liberal {A} (p : Prog A) (s : mstate Mo) :
  (forall s e, is_Some (mstep Mo s e)) ->
  (forall s c, mallow Mo s c = true) -> (forall s e, mthrows Mo s e = true) ->
  mwp Mo p s (fun _ _ => True).
Proof.
  intros Hs Ha Ht. revert s; induction p as [a|e|c k IH]; intros s.
  - by apply mwp_ret.
  - by apply mwp_throw.
  - apply mwp_vis; [done|]. intros r.
    destruct (Hs s (event_of c r)) as [s' Hs']. eauto.
Qed.

Context {W : Type} `{HW : !World W}.
Variable R : mstate Mo -> W -> Prop.
Variable good : Event -> Prop.
Hypothesis Hsim : honours Mo R good.

Lemma mwp_honoured {A} (p : Prog A) (s : mstate Mo) Q w :
  mwp Mo p s Q -> R s w ->
  Forall good (trace (run p w)) /\
  exists s', mrun Mo s (trace (run p w)) = Some s' /\
    R s' (final (run p w)) /\ mpost Mo Q s' (outcome (run p w)).
Proof.
  revert s w; induction p as [a|e|c k IH]; intros s w Hp HR.
  - destruct Hp as (s' & [= <-] & HQ). split; [constructor|]. by exists s.
  - destruct Hp as (s' & [= <-] & HQ). split; [constructor|]. by exists s.
  - apply mwp_vis_inv in Hp as [Hc Hk].
    destruct (handle c w) as [[r w']|] eqn:E.
    + rewrite (run_vis_some _ _ _ _ _ E). cbn.
      destruct (Hk r) as (s1 & Hs1 & Hp1).
      destruct (Hsim _ _ _ _ _ HR Hc E) as [Hg HR'].
      destruct (IH r s1 w' Hp1 (HR' _ Hs1)) as (Hgs & s' & Hrun & HRf & Hpost).
      split; [by constructor|]. exists s'. by rewrite Hs1.
    + rewrite (run_vis_none _ _ _ E). cbn. split; [constructor|]. by exists s.
Qed.

End simulation.

(** A world below one that honours a monitor honours it. *)
Lemma honours_below `{Sig : Signature} (Mo : Monitor) {W : Type} (H1 H2 : World W)
    (R : mstate Mo -> W -> Prop) (good : Event -> Prop) :
  below H1 H2 -> honours (HW := H2) Mo R good -> honours (HW := H1) Mo R good.
Proof. intros Hb H s w c r w' HR Ha Hh. by apply (H s w c r w' HR Ha), Hb. Qed.

(** A second relation kept by the steps of the worlds that keep the
    first can be carried along. *)
Lemma honours_conj `{Sig : Signature} (Mo : Monitor) {W : Type} `{HW : !World W}
    (R1 R2 : mstate Mo -> W -> Prop) (good : Event -> Prop) :
  honours Mo R1 good ->
  (forall s w c r w' s',
     R1 s w -> R2 s w -> mallow Mo s c = true -> handle c w = Some (r, w') ->
     mstep Mo s (event_of c r) = Some s' -> R2 s' w') ->
  honours Mo (fun s w => R1 s w /\ R2 s w) good.
Proof.
  intros H1 H2 s w c r w' [HR1 HR2] Ha Hh.
  destruct (H1 _ _ _ _ _ HR1 Ha Hh) as [Hg Hn]. split; [done|]. eauto.
Qed.
