(* ===== verification/Interface.v ===== *)
(** * Interface: what the script asks of the outside world

    The script calls four libraries: [inquirer] (prompts), [chalk] with
    [console.log] (status lines), [ora] (spinners) and [rng-ts-lib] (the
    RNG instance with its oracle); it also sets timers.  Each call is a
    [Request]; its resolved value is the [Reply].  The shapes of the
    replies are the ones the script destructures: [{ data, error }] with
    [data] possibly [undefined], and inside [data] the fields it reads.

    The two module level variables of the script are the record
    [Globals]. *)

From stdpp Require Import gmap.
From S2P Require Import Prelude JsBuiltins Prog Monitor.

(** ** Prompts *)

(** One question of [inquirer.prompt]. *)
Record Question : Type := mkQuestion {
  name : string;
  message : string;
  type : string
}.

#[export] Instance Question_eq_dec : EqDecision Question.
Proof. solve_decision. Defined.

(** ** The RNG instance *)

(** The argument of [new RNG]. *)
Record RNGConfig : Type := mkRNGConfig {
  blockfrostApiKey : string;
  network : number;
  ogmiosURL : string;
  oracleCBOR : string;
  rngAPIURL : string;
  rngCBOR : string;
  walletSeed : string;
  rngOutputLen : number
}.

#[export] Instance RNGConfig_eq_dec : EqDecision RNGConfig.
Proof. solve_decision. Defined.

(** The value every operation of the instance resolves to. *)
Record Response (D : Type) : Type := mkResponse {
  data : option D;
  error : option string
}.

#[global] Arguments mkResponse {D} data error.
#[global] Arguments data {D} r.
#[global] Arguments error {D} r.

#[export] Instance Response_eq_dec `{EqDecision D} : EqDecision (Response D).
Proof. solve_decision. Defined.

(** [data] of [oracle.mint]. *)
Record MintData : Type := mkMintData {
  mint_txHash : string;
  oracleDIDUnit : string
}.

#[export] Instance MintData_eq_dec : EqDecision MintData.
Proof. solve_decision. Defined.

(** [data] of [init], [oracle.register] and [oracle.update]. *)
Record TxData : Type := mkTxData { txHash : string }.

#[export] Instance TxData_eq_dec : EqDecision TxData.
Proof. solve_decision. Defined.

(** [data] of [oracle.query]. *)
Record QueryData : Type := mkQueryData { rngOutput : string }.

#[export] Instance QueryData_eq_dec : EqDecision QueryData.
Proof. solve_decision. Defined.

(** The argument of [oracle.register]. *)
Record RegisterArgs : Type := mkRegisterArgs {
  reg_initRNGTx : string;
  reg_oracleDIDUnit : string
}.

#[export] Instance RegisterArgs_eq_dec : EqDecision RegisterArgs.
Proof. solve_decision. Defined.

(** The argument of [oracle.update].  The head of the update chain is
    passed as the variable holds it, [null] included. *)
Record UpdateArgs : Type := mkUpdateArgs {
  upd_initRNGTx : string;
  upd_oracleDIDUnit : string;
  currUpdatedOracleDIDTx : option string
}.

#[export] Instance UpdateArgs_eq_dec : EqDecision UpdateArgs.
Proof. solve_decision. Defined.

(** ** Requests, replies and events *)

Inductive Request : Type :=
| Prompt (questions : list Question)
| ConsoleLog (text : string)
| OraStart (text : string)
| OraStop (text : string)
| SetTimeout (ms : Z)
| NewRNG (config : RNGConfig)
| OracleMint (oracleDIDName : option string)
| RngInit
| OracleRegister (args : RegisterArgs)
| UpdateConfig (key : string) (value : number)
| OracleUpdate (args : UpdateArgs)
| OracleQuery (tx : option string).

#[export] Instance Request_eq_dec : EqDecision Request.
Proof. solve_decision. Defined.

(** The value a request resolves to. *)
Definition ReplyOf (c : Request) : Type :=
  match c with
  | Prompt _ => gmap string string
  | OracleMint _ => Response MintData
  | RngInit | OracleRegister _ | OracleUpdate _ => Response TxData
  | OracleQuery _ => Response QueryData
  | ConsoleLog _ | OraStart _ | OraStop _ | SetTimeout _ | NewRNG _
  | UpdateConfig _ _ => unit
  end.

(** A request that resolved, with the value it resolved to. *)
Inductive Ev : Type :=
| EvPrompt (questions : list Question) (answers : gmap string string)
| EvLog (text : string)
| EvOraStart (text : string)
| EvOraStop (text : string)
| EvTimeout (ms : Z)
| EvNewRNG (config : RNGConfig)
| EvMint (oracleDIDName : option string) (r : Response MintData)
| EvInit (r : Response TxData)
| EvRegister (args : RegisterArgs) (r : Response TxData)
| EvUpdateConfig (key : string) (value : number)
| EvUpdate (args : UpdateArgs) (r : Response TxData)
| EvQuery (tx : option string) (r : Response QueryData).

#[export] Instance Ev_eq_dec : EqDecision Ev.
Proof. solve_decision. Defined.

Definition ev_of (c : Request) : ReplyOf c -> Ev :=
  match c with
  | Prompt qs => fun a => EvPrompt qs a
  | ConsoleLog t => fun _ => EvLog t
  | OraStart t => fun _ => EvOraStart t
  | OraStop t => fun _ => EvOraStop t
  | SetTimeout ms => fun _ => EvTimeout ms
  | NewRNG cfg => fun _ => EvNewRNG cfg
  | OracleMint n => fun r => EvMint n r
  | RngInit => fun r => EvInit r
  | OracleRegister a => fun r => EvRegister a r
  | UpdateConfig k v => fun _ => EvUpdateConfig k v
  | OracleUpdate a => fun r => EvUpdate a r
  | OracleQuery tx => fun r => EvQuery tx r
  end.

(** The request an event answers. *)
Definition req_of (e : Ev) : Request :=
  match e with
  | EvPrompt qs _ => Prompt qs
  | EvLog t => ConsoleLog t
  | EvOraStart t => OraStart t
  | EvOraStop t => OraStop t
  | EvTimeout ms => SetTimeout ms
  | EvNewRNG cfg => NewRNG cfg
  | EvMint n _ => OracleMint n
  | EvInit _ => RngInit
  | EvRegister a _ => OracleRegister a
  | EvUpdateConfig k v => UpdateConfig k v
  | EvUpdate a _ => OracleUpdate a
  | EvQuery tx _ => OracleQuery tx
  end.

(** Every request has a reply. *)
#[export] Instance Response_inhabited {D : Type} : Inhabited (Response D) :=
  populate (mkResponse None None).

#[export] Instance ReplyOf_inhabited (c : Request) : Inhabited (ReplyOf c).
Proof. destruct c; apply _. Defined.

(** The signature of the script: its requests, and [JsError] for what it
    throws. *)
#[export] Instance script_sig : Signature := {|
  Req := Request;
  Reply := ReplyOf;
  Event := Ev;
  event_of := ev_of;
  Err := JsError
|}.

(** Requests to the RNG instance: the operations that reach the chain or
    change the instance. *)
Definition is_executor_call (c : Request) : bool :=
  match c with
  | OracleMint _ | RngInit | OracleRegister _ | UpdateConfig _ _
  | OracleUpdate _ | OracleQuery _ => true
  | _ => false
  end.

(** The same on events. *)
Definition is_executor_event (e : Ev) : bool :=
  match e with
  | EvMint _ _ | EvInit _ | EvRegister _ _ | EvUpdateConfig _ _
  | EvUpdate _ _ | EvQuery _ _ => true
  | _ => false
  end.

(** ** Module level variables *)

Module OracleDID.
Record t : Type := mk {
  unit : string;
  registered : bool
}.
End OracleDID.

#[export] Instance OracleDID_eq_dec : EqDecision OracleDID.t.
Proof. solve_decision. Defined.

(** [BASE_ORACLEDID] and [CURR_ORACLE_UPDATED_TX], both [null] at start. *)
Record Globals : Type := mkGlobals {
  BASE_ORACLEDID : option OracleDID.t;
  CURR_ORACLE_UPDATED_TX : option string
}.

#[export] Instance Globals_eq_dec : EqDecision Globals.
Proof. solve_decision. Defined.

Definition initial_globals : Globals :=
  {| BASE_ORACLEDID := None; CURR_ORACLE_UPDATED_TX := None |}.

(** Objects are truthy whatever they hold. *)
#[export] Instance MintData_truthy : Truthy MintData := fun _ => true.
#[export] Instance TxData_truthy : Truthy TxData := fun _ => true.
#[export] Instance QueryData_truthy : Truthy QueryData := fun _ => true.

(** ** The script's monad and small steps *)

Abbreviation Script := (M Globals).

#[local] Open Scope prog_scope.

(** [sleep(ms)]: a promise resolved by a timer after [ms] milliseconds. *)
Definition sleep (ms : Z) : Script unit := call (SetTimeout ms).

(** [console.log(chalk.greenBright(text))]. *)
Definition log (text : string) : Script unit := call (ConsoleLog text).

(** [ora(text).start()] and [.stop()] on the spinner it returned. *)
Definition ora_start (text : string) : Script unit := call (OraStart text).
Definition ora_stop (text : string) : Script unit := call (OraStop text).

(** [answers.field.trim()]: a [TypeError] when the field is absent. *)
Definition trimmed_field (answers : gmap string string) (field : string) :
    Script string :=
  match answers !! field with
  | Some s => mret (trim s)
  | None => throw (TypeError "undefined" "trim")
  end.

(** [BASE_ORACLEDID.unit]: a [TypeError] while the variable is [null]. *)
Definition base_unit : Script string :=
  g <- get ;;
  match BASE_ORACLEDID g with
  | Some d => mret (OracleDID.unit d)
  | None => throw (TypeError "null" "unit")
  end.

(** Assignments to the two variables. *)
Definition set_base (d : OracleDID.t) : Script unit :=
  g <- get ;;
  put {| BASE_ORACLEDID := Some d;
         CURR_ORACLE_UPDATED_TX := CURR_ORACLE_UPDATED_TX g |}.

Definition set_curr (tx : string) : Script unit :=
  g <- get ;;
  put {| BASE_ORACLEDID := BASE_ORACLEDID g;
         CURR_ORACLE_UPDATED_TX := Some tx |}.

(** [if (!data?.txHash) throw e]: continue with [data] when it is defined
    and its transaction hash is a non-empty string. *)
Definition require_tx {D : Type} (hash : D -> string)
    (r : Response D) (e : JsError) : Script D :=
  match data r with
  | Some d => if truthy (hash d) then mret d else throw e
  | None => throw e
  end.

(** [if (!data) throw e]: continue with [data] when it is defined. *)
Definition require_data {D : Type} (r : Response D) (e : JsError) : Script D :=
  match data r with
  | Some d => mret d
  | None => throw e
  end.

(** ** What a reply carries *)

(** A reply that carries a non-empty transaction hash. *)
Definition has_tx {D : Type} (hash : D -> string) (r : Response D) : bool :=
  match data r with Some d => truthy (hash d) | None => false end.

(** A reply that carries data. *)
Definition has_data {D : Type} (r : Response D) : bool :=
  match data r with Some _ => true | None => false end.

(** The transaction hash of a reply, empty when there is no data. *)
Definition tx_of {D : Type} (hash : D -> string) (r : Response D) : string :=
  default EmptyString (hash <$> data r).

(** ** Automation *)

(** The replies of the RNG instance split into the reply with data and
    the reply without. *)
Ltac split_reply r ::=
  lazymatch type of r with
  | Response _ => destruct r as [[|] ?]
  | unit => destruct r
  | _ => idtac
  end.

(** The small steps of the script, unfolded to their requests. *)
Ltac unfold_steps :=
  unfold sleep, log, ora_start, ora_stop, trimmed_field, base_unit, set_base,
    set_curr, require_tx, require_data.

(** Run a straight-line part of the script through a monitor. *)
Ltac script_go := repeat first [progress cbn | progress unfold_steps | mwp_step].

(** Split the weakest precondition of a straight-line part of the script
    into one goal per way it can end. *)
Ltac script_wp :=
  repeat first
    [ progress cbn
    | progress unfold_steps
    | match goal with
      | |- _ /\ _ => split
      | |- True => exact I
      | |- forall r : _, _ => intro_reply
      | |- wp ?p _ =>
          match p with
          | context [match ?x with _ => _ end] => destruct x eqn:?
          end
      end ].

(** Write the type of events the same way everywhere, for the tactics
    that compare terms syntactically. *)
Ltac ev_norm := change (@Event script_sig) with Ev in *.
