(* ===== verification/Fake.v ===== *)
(** * Fake: a scripted world

    A world that answers from queues: one queue of answers for the
    prompts and one queue of replies per operation of the RNG instance.
    The console, the spinners, the timer and the constructor always
    answer.  An empty queue leaves the request pending. *)

From stdpp Require Import gmap.
From S2P Require Import Prelude JsBuiltins Prog Interface.

Record Fake : Type := mkFake {
  prompts : list (gmap string string);
  mints : list (Response MintData);
  inits : list (Response TxData);
  registers : list (Response TxData);
  updates : list (Response TxData);
  queries : list (Response QueryData)
}.

(** Take the next reply of a queue and put the rest back. *)
Definition pop {R : Type} (q : list R) (rest : list R -> Fake) : option (R * Fake) :=
  match q with
  | [] => None
  | r :: q' => Some (r, rest q')
  end.

Definition fake_handle (c : Request) (w : Fake) : option (ReplyOf c * Fake) :=
  match c as c' return option (ReplyOf c' * Fake) with
  | Prompt _ =>
      pop (prompts w) (fun q =>
        mkFake q (mints w) (inits w) (registers w) (updates w) (queries w))
  | OracleMint _ =>
      pop (mints w) (fun q =>
        mkFake (prompts w) q (inits w) (registers w) (updates w) (queries w))
  | RngInit =>
      pop (inits w) (fun q =>
        mkFake (prompts w) (mints w) q (registers w) (updates w) (queries w))
  | OracleRegister _ =>
      pop (registers w) (fun q =>
        mkFake (prompts w) (mints w) (inits w) q (updates w) (queries w))
  | OracleUpdate _ =>
      pop (updates w) (fun q =>
        mkFake (prompts w) (mints w) (inits w) (registers w) q (queries w))
  | OracleQuery _ =>
      pop (queries w) (fun q =>
        mkFake (prompts w) (mints w) (inits w) (registers w) (updates w) q)
  | ConsoleLog _ | OraStart _ | OraStop _ | SetTimeout _ | NewRNG _
  | UpdateConfig _ _ => Some (tt, w)
  end.

#[export] Instance fake_world : World Fake := fake_handle.

(** A successful reply and a failed one. *)
Definition ok {D : Type} (d : D) : Response D :=
  {| data := Some d; error := None |}.

Definition failed {D : Type} (reason : string) : Response D :=
  {| data := None; error := Some reason |}.

(** An answers object from a list of fields. *)
Definition answers (fields : list (string * string)) : gmap string string :=
  list_to_map fields.

(** ** The worlds of the scenarios *)

(** The answers to the start-up questions. *)
Definition base_answers : gmap string string :=
  answers [ ("network", "0"); ("blockfrostApiKey", " key ");
            ("rngAPIURL", "http://rng"); ("ogmiosURL", "ws://ogmios");
            ("oracleCBOR", "4e4d01"); ("rngCBOR", "4e4d02");
            ("walletSeed", "seed words"); ("rngOutputLen", "4") ].

(** The scenario of the specification: mint returns unit U1 in T1, init
    returns T2, register T3; then one generate (init T4, update T5) and
    one query that returns 42. *)
Definition happy : Fake := {|
  prompts := [ base_answers; answers [("oracleDIDName", "myoracle")];
               answers [("actionType", "1")]; answers [("rngOutputLen", "8")];
               answers [("actionType", "2")] ];
  mints := [ ok {| mint_txHash := "T1"; oracleDIDUnit := "U1" |} ];
  inits := [ ok {| txHash := "T2" |}; ok {| txHash := "T4" |} ];
  registers := [ ok {| txHash := "T3" |} ];
  updates := [ ok {| txHash := "T5" |} ];
  queries := [ ok {| rngOutput := "42" |} ]
|}.

(** The same, but init returns data with an empty transaction hash. *)
Definition empty_init : Fake := {|
  prompts := prompts happy;
  mints := mints happy;
  inits := [ ok {| txHash := EmptyString |} ];
  registers := registers happy;
  updates := [];
  queries := []
|}.

(** A world in which the mint fails. *)
Definition mint_fails : Fake := {|
  prompts := prompts happy;
  mints := [ failed "no funds" ];
  inits := inits happy;
  registers := registers happy;
  updates := [];
  queries := []
|}.

(** A world in which the register request is never answered. *)
Definition register_hangs : Fake := {|
  prompts := prompts happy;
  mints := mints happy;
  inits := inits happy;
  registers := [];
  updates := [];
  queries := []
|}.

(** The variables after the bootstrap of [happy]. *)
Definition bootstrapped : Globals := {|
  BASE_ORACLEDID :=
    Some {| OracleDID.unit := "U1"; OracleDID.registered := true |};
  CURR_ORACLE_UPDATED_TX := Some "T3"
|}.

(** What [happy] has left to answer after its bootstrap. *)
Definition happy_loop : Fake := {|
  prompts := drop 2 (prompts happy);
  mints := [];
  inits := drop 1 (inits happy);
  registers := [];
  updates := updates happy;
  queries := queries happy
|}.
