(* ===== verification/Config.v ===== *)
(** * Config: the networks, the start-up questions and the RNG instance

    Lines 6-83 of [src/src/index.ts]: the exported table [networkData],
    the eight questions asked at start-up, and the construction of the
    RNG instance from the answers. *)

From stdpp Require Import gmap.
From S2P Require Import Prelude JsBuiltins Prog Interface Fake.

#[local] Open Scope prog_scope.
#[local] Open Scope Z_scope.

(** ** networkData *)

(** One entry of [networkData]. *)
Record NetworkInfo : Type := mkNetworkInfo {
  net_name : string;
  blockfrostURL : string
}.

#[export] Instance NetworkInfo_eq_dec : EqDecision NetworkInfo.
Proof. solve_decision. Defined.

(** The table of the supported networks, by selector. *)
Definition networkData : gmap Z NetworkInfo :=
  {[ 0 := {| net_name := "Preprod";
             blockfrostURL := "https://cardano-preprod.blockfrost.io/api/v0" |};
     1 := {| net_name := "Mainnet";
             blockfrostURL := "https://cardano-mainnet.blockfrost.io/api/v0" |} ]}.

(** The selectors the cast [as 0 | 1] claims the network answer has. *)
Definition supported_network (n : number) : bool :=
  match n with
  | Num z => bool_decide (is_Some (networkData !! z))
  | NaN => false
  end.

(** ** The start-up questions *)

(** A question of type [input]. *)
Definition input (name message : string) : Question :=
  {| name := name; message := message; type := "input" |}.

(** A line feed inside a message. *)
Definition LF : string := String "010"%char EmptyString.

Definition baseParamsQuestions : list Question :=
  [ input "network"
      ("Which network ? " +:+ LF +:+ " Type 1 for Mainnet " +:+ LF +:+
       " Type 0 for Preprod");
    input "blockfrostApiKey" "Enter Blockfrost api key:";
    input "rngAPIURL" "Enter the hosted RNG API URL:";
    input "ogmiosURL" "Enter the hosted Ogmios URL:";
    input "oracleCBOR" "Enter Oracle Contract compiled CBOR:";
    input "rngCBOR" "Enter RNG Contract compiled CBOR:";
    input "walletSeed"
      "Enter 12, 15 or 24 words wallet seed (should have atleast 5-10 ADA) to perform actions:";
    input "rngOutputLen" "Enter your desired Random Number length:" ].

(** The names a list of questions asks for. *)
Definition asked (qs : list Question) : list string := name <$> qs.

(** inquirer's contract: every question asked has an answer. *)
Definition answered (qs : list Question) (answers : gmap string string) : Prop :=
  Forall (fun n => is_Some (answers !! n)) (asked qs).

#[export] Instance answered_dec qs answers : Decision (answered qs answers).
Proof. unfold answered. apply _. Defined.

(** ** The RNG instance *)

(** The object literal passed to [new RNG]: its properties are evaluated
    in the order written, so the first absent answer that is trimmed
    raises the [TypeError]; [rngOutputLen] is parsed untrimmed and an
    absent answer parses as [NaN]. *)
Definition instanceConfig (baseParams : gmap string string) : Script RNGConfig :=
  blockfrostApiKey <- trimmed_field baseParams "blockfrostApiKey" ;;
  network <- trimmed_field baseParams "network" ;;
  ogmiosURL <- trimmed_field baseParams "ogmiosURL" ;;
  oracleCBOR <- trimmed_field baseParams "oracleCBOR" ;;
  rngAPIURL <- trimmed_field baseParams "rngAPIURL" ;;
  rngCBOR <- trimmed_field baseParams "rngCBOR" ;;
  walletSeed <- trimmed_field baseParams "walletSeed" ;;
  mret {| blockfrostApiKey := blockfrostApiKey;
          network := parseInt network;
          ogmiosURL := ogmiosURL;
          oracleCBOR := oracleCBOR;
          rngAPIURL := rngAPIURL;
          rngCBOR := rngCBOR;
          walletSeed := walletSeed;
          rngOutputLen := parseInt (ToString (baseParams !! "rngOutputLen")) |}.

(** [const instance = new RNG({...})]. *)
Definition newInstance (baseParams : gmap string string) : Script RNGConfig :=
  config <- instanceConfig baseParams ;;
  call (NewRNG config) ;;
  mret config.

(** The start of the script: ask, then build the instance. *)
Definition startup : Script RNGConfig :=
  baseParams <- call (Prompt baseParamsQuestions) ;;
  newInstance baseParams.

(** ** The configuration as a function of the answers *)

(** The answers the script trims: without one of them there is no
    instance. *)
Definition trimmed_names : list string :=
  [ "blockfrostApiKey"; "network"; "ogmiosURL"; "oracleCBOR"; "rngAPIURL";
    "rngCBOR"; "walletSeed" ].

(** What [instanceConfig] computes, as a partial function. *)
Definition config_of (baseParams : gmap string string) : option RNGConfig :=
  blockfrostApiKey ← baseParams !! "blockfrostApiKey";
  network ← baseParams !! "network";
  ogmiosURL ← baseParams !! "ogmiosURL";
  oracleCBOR ← baseParams !! "oracleCBOR";
  rngAPIURL ← baseParams !! "rngAPIURL";
  rngCBOR ← baseParams !! "rngCBOR";
  walletSeed ← baseParams !! "walletSeed";
  Some {| blockfrostApiKey := trim blockfrostApiKey;
          network := parseInt (trim network);
          ogmiosURL := trim ogmiosURL;
          oracleCBOR := trim oracleCBOR;
          rngAPIURL := trim rngAPIURL;
          rngCBOR := trim rngCBOR;
          walletSeed := trim walletSeed;
          rngOutputLen := parseInt (ToString (baseParams !! "rngOutputLen")) |}.

(** The string fields of a configuration. *)
Definition string_fields (c : RNGConfig) : list string :=
  [ blockfrostApiKey c; ogmiosURL c; oracleCBOR c; rngAPIURL c; rngCBOR c;
    walletSeed c ].

(** * Properties *)

Section config.
Implicit Types (a : gmap string string) (g : Globals) (c : RNGConfig).

(** [instanceConfig] makes no request: it returns the configuration or
    throws the [TypeError] of the first absent answer. *)
Lemma instanceConfig_config_of a g :
  instanceConfig a g =
  match config_of a with
  | Some c => Ret (c, g)
  | None => Throw (TypeError "undefined" "trim")
  end.
Proof.
  unfold instanceConfig, config_of, trimmed_field, mbind, mret, throw.
  repeat (destruct (a !! _); cbn; [|reflexivity]). reflexivity.
Qed.

Lemma config_of_is_Some a :
  is_Some (config_of a) <-> Forall (fun n => is_Some (a !! n)) trimmed_names.
Proof.
  unfold config_of, trimmed_names. rewrite !Forall_cons, Forall_nil.
  split.
  - intros [c H]. repeat split; try done.
    all: match goal with |- is_Some (?m !! ?n) => destruct (m !! n) eqn:E end.
    all: try done.
    all: cbn in H; repeat (destruct (_ !! _) in H; cbn in H; try discriminate).
  - intros (H1 & H2 & H3 & H4 & H5 & H6 & H7 & _).
    destruct H1 as [? ->], H2 as [? ->], H3 as [? ->], H4 as [? ->],
      H5 as [? ->], H6 as [? ->], H7 as [? ->]. by eexists.
Qed.

Lemma answered_trimmed_names a :
  answered baseParamsQuestions a -> Forall (fun n => is_Some (a !! n)) trimmed_names.
Proof.
  unfold answered. cbn. rewrite !Forall_cons. unfold trimmed_names.
  rewrite !Forall_cons. tauto.
Qed.

Lemma config_of_fields a c :
  config_of a = Some c ->
  Forall (fun s => trimmed s = true) (string_fields c) /\
  network c = parseInt (ToString (a !! "network")) /\
  rngOutputLen c = parseInt (ToString (a !! "rngOutputLen")).
Proof.
  unfold config_of. intros H.
  destruct (a !! "blockfrostApiKey"); [|done].
  destruct (a !! "network"); [|done].
  destruct (a !! "ogmiosURL"); [|done].
  destruct (a !! "oracleCBOR"); [|done].
  destruct (a !! "rngAPIURL"); [|done].
  destruct (a !! "rngCBOR"); [|done].
  destruct (a !! "walletSeed"); [|done].
  cbn in H. injection H as <-. cbn. split; [|split; [apply parseInt_of_trim | done]].
  repeat constructor; apply trimmed_trim.
Qed.

(** The selectors of [networkData] are 0 and 1. *)
Lemma networkData_keys z : is_Some (networkData !! z) <-> z = 0 \/ z = 1.
Proof.
  unfold networkData. rewrite lookup_insert_is_Some, lookup_singleton_is_Some. lia.
Qed.

End config.

(** C35: when every start-up question has an answer the instance is
    built: no answer is rejected.  The string fields of the configuration
    have no white space at their ends, and the two numbers are what
    [parseInt] makes of the raw answers. *)
Theorem instanceConfig_answered (a : gmap string string) (g : Globals) :
  answered baseParamsQuestions a ->
  exists c,
    Config.instanceConfig a g = Ret (c, g) /\
    Forall (fun s => trimmed s = true) (string_fields c) /\
    network c = parseInt (ToString (a !! "network")) /\
    rngOutputLen c = parseInt (ToString (a !! "rngOutputLen")).
Proof.
  intros [c Hc]%answered_trimmed_names%config_of_is_Some.
  exists c. rewrite instanceConfig_config_of, Hc.
  split; [done | by apply config_of_fields].
Qed.

Lemma instanceConfig_answered_witness :
  exists c,
    Config.instanceConfig base_answers initial_globals = Ret (c, initial_globals) /\
    Forall (fun s => trimmed s = true) (string_fields c) /\
    network c = parseInt (ToString (base_answers !! "network")) /\
    rngOutputLen c = parseInt (ToString (base_answers !! "rngOutputLen")).
Proof. apply instanceConfig_answered. apply (bool_decide_unpack _). by vm_compute. Defined.

(** C36: an answer the script trims that is absent makes the construction
    throw the [TypeError] of reading [trim] on [undefined]; an absent
    output length, which is not trimmed, is parsed as [NaN] instead. *)
Theorem instanceConfig_absent (a : gmap string string) (g : Globals) (n : string) :
  n ∈ trimmed_names -> a !! n = None ->
  Config.instanceConfig a g = Throw (TypeError "undefined" "trim").
Proof.
  intros Hn Ha. rewrite instanceConfig_config_of.
  destruct (config_of a) as [c|] eqn:Hc; [|done].
  assert (H : is_Some (config_of a)) by by eexists.
  apply config_of_is_Some in H. rewrite Forall_forall in H.
  destruct (H n Hn) as [x Hx]. congruence.
Qed.

Lemma instanceConfig_absent_witness :
  Config.instanceConfig (delete "walletSeed" base_answers) initial_globals =
  Throw (TypeError "undefined" "trim").
Proof.
  apply (instanceConfig_absent _ _ "walletSeed"); [|by vm_compute].
  unfold trimmed_names. set_solver.
Defined.

(** The network selector is not checked against [networkData]: a
    configuration is built, and handed to the constructor, for a
    selector the table does not have and for one that is not a number. *)
Theorem network_selector_unchecked (g : Globals) :
  exists a c c',
    Config.instanceConfig (<["network" := a]> base_answers) g = Ret (c, g) /\
    Config.supported_network (network c) = false /\
    Config.instanceConfig (<["network" := "mainnet"]> base_answers) g = Ret (c', g) /\
    network c' = NaN.
Proof.
  exists "7". rewrite !instanceConfig_config_of. do 2 eexists.
  repeat apply conj; vm_compute; reflexivity.
Qed.

(** The selectors [networkData] supports are 0 and 1. *)
Theorem supported_network_spec (n : number) :
  Config.supported_network n = true <-> n = Num 0 \/ n = Num 1.
Proof.
  destruct n as [|z]; cbn.
  - split; [done | by intros [|]].
  - rewrite bool_decide_eq_true, networkData_keys.
    split; (intros [|]; [left | right]; congruence).
Qed.
