(* ===== verification/Bootstrap.v ===== *)
(** * Bootstrap: mint, init, register

    Lines 85-156 of [src/src/index.ts], one definition per stage.  Each
    stage makes its request to the RNG instance, throws when the reply
    lacks what the next stage needs, waits 120 seconds and records what
    it learnt in the module level variables. *)

From stdpp Require Import gmap.
From S2P Require Import Prelude JsBuiltins Prog Interface Config.

#[local] Open Scope prog_scope.
#[local] Open Scope Z_scope.

(** The delay after every transaction: [120 * 1000] milliseconds. *)
Definition CONFIRMATION_WAIT : Z := 120 * 1000.

(** The question asked before minting (lines 87-93). *)
Definition oracleNameQuestions : list Question :=
  [ input "oracleDIDName" "Enter your desired name for Oracle DID:" ].

(** The texts of the spinners. *)
Definition mintingOracle : string := "Minting Oracle DID to your wallet".

Definition onChainingMintingOracle (txHash : string) : string :=
  "Waiting for transaction: " +:+ slice txHash 0 6 +:+ "... to be confirmed".

Definition mintingRNG (txHash : string) : string :=
  "Initiated RNG ID to RNG Contract: " +:+ slice txHash 0 6 +:+ "...".

Definition registeringOracle : string :=
  "Registering Oracle DID to Oracle Contract".

(** Lines 85-115: ask for a name, mint the oracle DID, wait, and set
    [BASE_ORACLEDID] to the minted unit, not yet registered.  A reply
    with no data or an empty transaction hash throws the error of the
    reply, JSON-encoded, while the first spinner is still running. *)
Definition mintOracle : Script MintData :=
  log "Creating Oracle DID for you" ;;
  oracleNameParam <- call (Prompt oracleNameQuestions) ;;
  ora_start mintingOracle ;;
  r <- call (OracleMint (oracleNameParam !! "oracleDIDName")) ;;
  oracleMintData <- require_tx mint_txHash r (Error (JSON_stringify (error r))) ;;
  ora_stop mintingOracle ;;
  ora_start (onChainingMintingOracle (mint_txHash oracleMintData)) ;;
  sleep CONFIRMATION_WAIT ;;
  ora_stop (onChainingMintingOracle (mint_txHash oracleMintData)) ;;
  set_base {| OracleDID.unit := oracleDIDUnit oracleMintData;
              OracleDID.registered := false |} ;;
  mret oracleMintData.

(** Lines 123-133, and 184-198 in the loop: initiate a random number
    request and wait.  Only a reply with no data throws. *)
Definition initRNG : Script TxData :=
  r <- call RngInit ;;
  rngInitData <- require_data r (Error (error r)) ;;
  ora_start (mintingRNG (txHash rngInitData)) ;;
  sleep CONFIRMATION_WAIT ;;
  ora_stop (mintingRNG (txHash rngInitData)) ;;
  mret rngInitData.

(** Lines 117-133: the status line, then the first [init]. *)
Definition firstInit : Script TxData :=
  log "To register the Oracle DID, We need initial RNG transaction to pass the data with it" ;;
  initRNG.

(** Lines 135-156: register the DID with the transaction of [init], wait,
    then make the transaction the head of the update chain and mark the
    DID registered. *)
Definition registerOracle (rngInitData : TxData) : Script unit :=
  ora_start registeringOracle ;;
  unit <- base_unit ;;
  r <- call (OracleRegister {| reg_initRNGTx := txHash rngInitData;
                               reg_oracleDIDUnit := unit |}) ;;
  oracleRegisterData <- require_tx txHash r (Error (error r)) ;;
  sleep CONFIRMATION_WAIT ;;
  ora_stop registeringOracle ;;
  set_curr (txHash oracleRegisterData) ;;
  unit' <- base_unit ;;
  set_base {| OracleDID.registered := true; OracleDID.unit := unit' |}.

(** Lines 23-156: the script up to the loop. *)
Definition bootstrap : Script unit :=
  startup ;;
  mintOracle ;;
  rngInitData <- firstInit ;;
  registerOracle rngInitData.
