(* ===== verification/ActionLoop.v ===== *)
(** * ActionLoop: the loop of operator actions

    Lines 158-227 of [src/src/index.ts].  One iteration asks for an
    action; [1] generates a new random number and publishes it with an
    oracle update, [2] queries the published number, anything else does
    nothing.  [loop n] is [n] iterations; [main n] is the whole script
    with the loop cut after [n] iterations. *)

From stdpp Require Import gmap.
From S2P Require Import Prelude JsBuiltins Prog Monitor Interface Config Bootstrap.

#[local] Open Scope prog_scope.
#[local] Open Scope Z_scope.

(** The questions of the loop (lines 159-166 and 171-177). *)
Definition actionQuestions : list Question :=
  [ input "actionType"
      ("Following actions you can do with" +:+ LF +:+ " 1. Generate new RNG" +:+
       LF +:+ " 2. Query Oracle DID") ].

Definition rngOutputLenQuestions : list Question :=
  [ input "rngOutputLen" "Enter your desired Random Number length:" ].

Definition updatingOracle : string := "Updating Oracle DID to Oracle Contract".

(** Lines 171-217: ask for the length, reconfigure the instance, initiate
    a request, wait, update the oracle with the current head, wait, and
    make the update the new head. *)
Definition generate : Script unit :=
  rngOutputLenParam <- call (Prompt rngOutputLenQuestions) ;;
  call (UpdateConfig "rngOutputLen"
          (parseInt (ToString (rngOutputLenParam !! "rngOutputLen")))) ;;
  promptRngInitData <- initRNG ;;
  ora_start updatingOracle ;;
  unit <- base_unit ;;
  g <- get ;;
  r <- call (OracleUpdate {| upd_initRNGTx := txHash promptRngInitData;
                             upd_oracleDIDUnit := unit;
                             currUpdatedOracleDIDTx := CURR_ORACLE_UPDATED_TX g |}) ;;
  updateData <- require_tx txHash r (Error (error r)) ;;
  sleep CONFIRMATION_WAIT ;;
  ora_stop updatingOracle ;;
  set_curr (txHash updateData).

(** The text printed after a query: an absent reply prints [undefined]. *)
Definition queryLine (r : Response QueryData) : string :=
  "Random Number from Oracle: " +:+ ToString (rngOutput <$> data r).

(** Lines 221-225: query the head and print the number. *)
Definition query : Script unit :=
  g <- get ;;
  r <- call (OracleQuery (CURR_ORACLE_UPDATED_TX g)) ;;
  log (queryLine r).

(** The guard [choice === n && CURR_ORACLE_UPDATED_TX]. *)
Definition guard (choice : number) (n : Z) (g : Globals) : bool :=
  strict_eq choice n && truthy (CURR_ORACLE_UPDATED_TX g).

(** Run [m] when the guard holds. *)
Definition when (choice : number) (n : Z) (m : Script unit) : Script unit :=
  g <- get ;;
  if guard choice n g then m else mret tt.

(** Lines 159-226: one iteration of [while (true)]. *)
Definition iteration : Script unit :=
  GenerationActions <- call (Prompt actionQuestions) ;;
  let choice := parseInt (ToString (GenerationActions !! "actionType")) in
  when choice 1 generate ;;
  when choice 2 query.

(** [n] iterations of the loop. *)
Definition loop (n : nat) : Script unit := iterate n iteration.

(** The whole script, its loop cut after [n] iterations. *)
Definition main (n : nat) : Script unit :=
  bootstrap ;;
  loop n.

(** * Properties *)

(** ** Proving a monitor of the whole script *)

Section rules.
Variable Mo : Monitor.
Variable I : Globals -> mstate Mo -> Prop.

(** A guarded action keeps what the action keeps. *)
Lemma when_mwp choice k (m : Script unit) g s :
  (forall g s, I g s -> mwp Mo (m g) s (fun x s' => I (snd x) s')) ->
  I g s ->
  mwp Mo (when choice k m g) s (fun x s' => I (snd x) s').
Proof.
  intros Hm HI. unfold when. apply mwp_mbind, mwp_ret. cbn.
  destruct (guard choice k g); [by apply Hm | by apply mwp_mret].
Qed.

(** The loop keeps what one iteration keeps. *)
Lemma loop_mwp n g s :
  (forall g s, I g s -> mwp Mo (iteration g) s (fun x s' => I (snd x) s')) ->
  I g s ->
  mwp Mo (loop n g) s (fun x s' => I (snd x) s').
Proof. apply mwp_iterate. Qed.

(** What the bootstrap establishes and one iteration keeps holds of the
    script, however many iterations it runs. *)
Lemma main_mwp s0 n g :
  (forall g, mwp Mo (bootstrap g) s0 (fun x s => I (snd x) s)) ->
  (forall g s, I g s -> mwp Mo (iteration g) s (fun x s' => I (snd x) s')) ->
  mwp Mo (main n g) s0 (fun x s => I (snd x) s).
Proof.
  intros Hb Hi. unfold main. apply mwp_mbind.
  eapply mwp_mono; [|apply Hb]. intros [[] g1] s1 H1. by apply loop_mwp.
Qed.

End rules.
