(* ===== verification/Flow.v ===== *)
(** * Flow: where the start-up answers go

    The operator types a Blockfrost key and the seed phrase of a wallet
    at the start (lines 23 to 61).  The script hands them, trimmed, to
    the constructor of the RNG instance (lines 74 to 83) and never
    mentions them again: what it does after the constructor, every text
    it shows and every request it makes, is one program, the same
    whatever the answers were. *)

From stdpp Require Import gmap.
From S2P Require Import Prelude JsBuiltins Prog Monitor Interface Fake Config.
From S2P Require Import Bootstrap ActionLoop.

#[local] Open Scope prog_scope.

(** Lines 85 to 227: the script after the constructor. *)
Definition after_startup (n : nat) : Script unit :=
  mintOracle ;;
  rngInitData <- firstInit ;;
  registerOracle rngInitData ;;
  loop n.

(** Lines 74 to 227, given the answers: the constructor is called with
    the configuration the answers give, when they give one. *)
Definition configured (n : nat) (g : Globals) (baseParams : gmap string string) :
    Prog (unit * Globals) :=
  match config_of baseParams with
  | Some config => Vis (NewRNG config) (fun _ => after_startup n g)
  | None => Throw (TypeError "undefined" "trim")
  end.

(** * Properties *)

Lemma main_configured n g :
  main n g ≡ Vis (Prompt baseParamsQuestions) (configured n g).
Proof.
  unfold main, bootstrap, startup, newInstance, mbind, call. cbn [bind].
  constructor. intros a. cbn [bind fst snd].
  unfold configured. rewrite instanceConfig_config_of.
  destruct (config_of a) as [c|]; cbn [bind fst snd]; [|reflexivity].
  constructor. intros []. unfold after_startup, mbind, mret. cbn [bind fst snd].
  etrans; [apply bind_assoc|]. apply bind_equiv; [reflexivity|].
  intros x. apply bind_assoc.
Qed.


(** On runs: against any world, two sets of answers that give a
    configuration lead, when the constructor has returned to the same
    world, to the same events, the same outcome and the same world. *)
Lemma configured_run n g {W : Type} `{HW : !World W} (w w' : W) a c :
  config_of a = Some c -> handle (NewRNG c) w = Some (tt, w') ->
  run (configured n g a) w = cons_event (EvNewRNG c) (run (after_startup n g) w').
Proof.
  intros Ha Hh. unfold configured. rewrite Ha.
  exact (run_vis_some (NewRNG c) (fun _ => after_startup n g) w w' tt Hh).
Qed.

