(* ===== verification/Lifecycle.v ===== *)
(** * Lifecycle: the abstract state machine and the refinement

    The specification describes the controller as a state machine
    Unstarted, Minted, Initialized, Registered, and the generate action
    as a second pass through init and update from Registered.  [Phase]
    and [lifecycle] are that machine, as a monitor over the events of the
    RNG instance: a register must carry the transaction of the init just
    before it and the minted unit, an update must carry in addition the
    current head, a query must carry the current head, and nothing
    follows a failed stage.

    The theorems show that every run of the script is a run of this
    machine ([main_refines_lifecycle]), that the module level variables
    mirror its state ([loop_inv]), and, as consequences on traces, the
    sequencing, single-head and immutability properties. *)

From stdpp Require Import gmap.
From S2P Require Import Prelude JsBuiltins Prog Monitor.
From S2P Require Import Interface Fake Config Bootstrap ActionLoop.

#[local] Open Scope prog_scope.

(** ** The machine *)

Inductive Phase : Type :=
| Unstarted
| Minted (unit : string)
| Initialized (unit initTx : string)
| Registered (unit head : string)
| Regenerating (unit head initTx : string)
| Halted.

#[export] Instance Phase_eq_dec : EqDecision Phase.
Proof. solve_decision. Defined.

(** The requests each phase permits.  The console, the spinners, the
    timer, the prompts and the constructor are not the machine's
    business. *)
Definition permits (s : Phase) (c : Request) : bool :=
  match c, s with
  | OracleMint _, Unstarted => true
  | RngInit, (Minted _ | Registered _ _) => true
  | OracleRegister a, Initialized u t =>
      bool_decide (a = {| reg_initRNGTx := t; reg_oracleDIDUnit := u |})
  | UpdateConfig _ _, Registered _ _ => true
  | OracleUpdate a, Regenerating u h t =>
      bool_decide (a = {| upd_initRNGTx := t; upd_oracleDIDUnit := u;
                          currUpdatedOracleDIDTx := Some h |})
  | OracleQuery tx, Registered _ h => bool_decide (tx = Some h)
  | (OracleMint _ | RngInit | OracleRegister _ | UpdateConfig _ _
     | OracleUpdate _ | OracleQuery _), _ => false
  | _, _ => true
  end.

(** The phase after an event.  [init_ok] says which replies of init let
    the machine go on. *)
Definition advance (init_ok : Response TxData -> bool) (s : Phase) (e : Ev) : Phase :=
  match e, s with
  | EvMint _ r, Unstarted =>
      if has_tx mint_txHash r then Minted (tx_of oracleDIDUnit r) else Halted
  | EvInit r, Minted u =>
      if init_ok r then Initialized u (tx_of txHash r) else Halted
  | EvRegister _ r, Initialized u _ =>
      if has_tx txHash r then Registered u (tx_of txHash r) else Halted
  | EvInit r, Registered u h =>
      if init_ok r then Regenerating u h (tx_of txHash r) else Halted
  | EvUpdate _ r, Regenerating u _ _ =>
      if has_tx txHash r then Registered u (tx_of txHash r) else Halted
  | _, _ => s
  end.

Definition lifecycle (init_ok : Response TxData -> bool) : Monitor := {|
  mstate := Phase;
  mstep := fun s e => if permits s (req_of e) then Some (advance init_ok s e) else None;
  mallow := permits;
  mthrows := fun _ _ => true
|}.

(** The machine of the specification: a stage succeeds when its reply
    carries a transaction hash. *)
Definition lifecycle_spec : Monitor := lifecycle (has_tx txHash).

(** The machine the code implements: init succeeds when its reply
    carries data. *)
Definition lifecycle_code : Monitor := lifecycle has_data.

(** ** What a trace says *)

(** The hash of the last register or update that succeeded: the head of
    the update chain. *)
Fixpoint last_head (t : list Ev) (head : option string) : option string :=
  match t with
  | [] => head
  | EvRegister _ r :: t' | EvUpdate _ r :: t' =>
      last_head t' (if has_tx txHash r then Some (tx_of txHash r) else head)
  | _ :: t' => last_head t' head
  end.

(** The hash of the last init that returned data. *)
Fixpoint last_init (t : list Ev) (tx : option string) : option string :=
  match t with
  | [] => tx
  | EvInit r :: t' =>
      last_init t' (if has_data r then Some (tx_of txHash r) else tx)
  | _ :: t' => last_init t' tx
  end.

(** The unit of the mint that succeeded. *)
Fixpoint minted_unit (t : list Ev) (u : option string) : option string :=
  match t with
  | [] => u
  | EvMint _ r :: t' =>
      minted_unit t' (if has_tx mint_txHash r then Some (tx_of oracleDIDUnit r) else u)
  | _ :: t' => minted_unit t' u
  end.

(** What the machine's phase knows of the three. *)
Definition phase_unit (s : Phase) : option string :=
  match s with
  | Minted u | Initialized u _ | Registered u _ | Regenerating u _ _ => Some u
  | Unstarted | Halted => None
  end.

Definition phase_head (s : Phase) : option string :=
  match s with
  | Registered _ h | Regenerating _ h _ => Some h
  | _ => None
  end.

Definition phase_init (s : Phase) : option string :=
  match s with
  | Initialized _ t | Regenerating _ _ t => Some t
  | _ => None
  end.

(** ** Invariants of the stages *)

(** The state of the variables when the DID is minted and not yet
    registered. *)
Definition minted_base (u : string) (g : Globals) : Prop :=
  BASE_ORACLEDID g =
    Some {| OracleDID.unit := u; OracleDID.registered := false |}.

(** The state of the variables once the DID is registered. *)
Definition registered_with (u h : string) (g : Globals) : Prop :=
  g = {| BASE_ORACLEDID :=
           Some {| OracleDID.unit := u; OracleDID.registered := true |};
         CURR_ORACLE_UPDATED_TX := Some h |} /\ truthy h = true.

(** The invariant of the loop: the machine is in [Registered] with the
    unit it was minted with, and the variables say the same. *)
Definition loop_inv (u : string) (g : Globals) (s : Phase) : Prop :=
  exists h, s = Registered u h /\ registered_with u h g.

(** ** Agreement of the machine with the trace *)

(** The phase agrees with the three facts read off a trace. *)
Definition agrees (s : Phase) (i h u : option string) : Prop :=
  (forall x, phase_init s = Some x -> i = Some x) /\
  (forall x, phase_head s = Some x -> h = Some x) /\
  (forall x, phase_unit s = Some x -> u = Some x).

(** * Properties *)

(** ** The stages, one by one *)

Section stages.
Implicit Types g : Globals.
Implicit Types u h t : string.

Lemma startup_lifecycle g s :
  mwp lifecycle_code (startup g) s (fun x s' => s' = s /\ snd x = g).
Proof.
  unfold startup, newInstance, instanceConfig, trimmed_field.
  destruct s; mwp_go; auto.
Qed.

Lemma mintOracle_lifecycle g :
  mwp lifecycle_code (mintOracle g) Unstarted
    (fun x s' => exists u, s' = Minted u /\ minted_base u (snd x)).
Proof. unfold mintOracle, minted_base. mwp_go; eauto. Qed.

Lemma initRNG_lifecycle_minted g u :
  mwp lifecycle_code (initRNG g) (Minted u)
    (fun x s' => s' = Initialized u (txHash (fst x)) /\ snd x = g).
Proof. unfold initRNG. mwp_go; auto. Qed.

Lemma initRNG_lifecycle_registered g u h :
  mwp lifecycle_code (initRNG g) (Registered u h)
    (fun x s' => s' = Regenerating u h (txHash (fst x)) /\ snd x = g).
Proof. unfold initRNG. mwp_go; auto. Qed.

Lemma registerOracle_lifecycle g u d :
  minted_base u g ->
  mwp lifecycle_code (registerOracle d g) (Initialized u (txHash d))
    (fun x s' => exists h, s' = Registered u h /\ registered_with u h (snd x)).
Proof.
  unfold minted_base, registered_with. destruct g as [b c]; cbn. intros ->.
  unfold registerOracle. mwp_go; eauto.
Qed.

Lemma firstInit_lifecycle g u :
  mwp lifecycle_code (firstInit g) (Minted u)
    (fun x s' => s' = Initialized u (txHash (fst x)) /\ snd x = g).
Proof. unfold firstInit, log. mwp_call_then. apply initRNG_lifecycle_minted. Qed.

Lemma bootstrap_lifecycle g :
  mwp lifecycle_code (bootstrap g) Unstarted
    (fun x s' => exists u h, s' = Registered u h /\ registered_with u h (snd x)).
Proof.
  unfold bootstrap. apply mwp_mbind.
  eapply mwp_mono; [|apply startup_lifecycle]. intros [c g1] s1 [-> _].
  apply mwp_mbind.
  eapply mwp_mono; [|apply mintOracle_lifecycle]. intros [d g2] s2 (u & -> & Hb).
  apply mwp_mbind.
  eapply mwp_mono; [|apply firstInit_lifecycle]. intros [i g3] s3 [-> E].
  cbn in *. subst g3.
  eapply mwp_mono; [|by apply registerOracle_lifecycle]. cbn. eauto.
Qed.

Lemma generate_lifecycle g u h :
  registered_with u h g ->
  mwp lifecycle_code (generate g) (Registered u h)
    (fun x s' => exists h', s' = Registered u h' /\ registered_with u h' (snd x)).
Proof.
  unfold registered_with. intros [-> Hh].
  unfold generate. do 2 mwp_call_then. apply mwp_mbind.
  eapply mwp_mono; [|apply initRNG_lifecycle_registered]. intros [i g1] s1 [-> E].
  cbn in *. subst g1. mwp_go; eauto.
Qed.

Lemma query_lifecycle g u h :
  registered_with u h g ->
  mwp lifecycle_code (query g) (Registered u h)
    (fun x s' => s' = Registered u h /\ snd x = g).
Proof.
  unfold registered_with. intros [-> Hh]. unfold query, log. mwp_go; auto.
Qed.

(** The guards of the loop test the choice only: the head is set. *)
Lemma guard_registered choice n g u h :
  registered_with u h g -> guard choice n g = strict_eq choice n.
Proof.
  intros [-> Hh]. unfold guard. cbn.
  change (truthy (Some h)) with (truthy h). rewrite Hh. apply andb_true_r.
Qed.

Lemma iteration_lifecycle g u s :
  loop_inv u g s ->
  mwp lifecycle_code (iteration g) s (fun x s' => loop_inv u (snd x) s').
Proof.
  intros HI. unfold iteration. destruct HI as (h & -> & Hg).
  mwp_call_then. apply mwp_mbind.
  eapply mwp_mono; [|apply (when_mwp lifecycle_code (loop_inv u)); [|by exists h]].
  - intros [[] g1] s1 HI1. cbn. apply (when_mwp lifecycle_code (loop_inv u)); [|done].
    intros g2 s2 (h2 & -> & Hg2).
    eapply mwp_mono; [|by apply query_lifecycle].
    intros [[] g3] s3 [-> E]. cbn in *. subst. by exists h2.
  - intros g1 s1 (h1 & -> & Hg1). by apply generate_lifecycle.
Qed.

Lemma main_lifecycle n g :
  mwp lifecycle_code (main n g) Unstarted
    (fun x s' => exists u, loop_inv u (snd x) s').
Proof.
  apply (main_mwp lifecycle_code (fun g s => exists u, loop_inv u g s)).
  - intros g0. eapply mwp_mono; [|apply bootstrap_lifecycle].
    intros x s (u & h & -> & Hg). exists u, h. done.
  - intros g0 s (u & HI). eapply mwp_mono; [|by apply iteration_lifecycle].
    cbn. eauto.
Qed.

End stages.

(** ** What the machine knows is what the trace says *)

Section agreement.
Implicit Types s : Phase.
Implicit Types i h u : option string.

Lemma last_init_cons e t i : last_init (e :: t) i = last_init t (last_init [e] i).
Proof. by destruct e. Qed.

Lemma last_head_cons e t h : last_head (e :: t) h = last_head t (last_head [e] h).
Proof. by destruct e. Qed.

Lemma minted_unit_cons e t u : minted_unit (e :: t) u = minted_unit t (minted_unit [e] u).
Proof. by destruct e. Qed.

Lemma lifecycle_step_permits io s e s' :
  mstep (lifecycle io) s e = Some s' ->
  permits s (req_of e) = true /\ s' = advance io s e.
Proof. cbn. destruct (permits s (req_of e)); [|done]. by intros [= <-]. Qed.

Lemma step_agrees s e s' i h u :
  agrees s i h u -> mstep lifecycle_code s e = Some s' ->
  agrees s' (last_init [e] i) (last_head [e] h) (minted_unit [e] u).
Proof.
  intros (Hi & Hh & Hu) [Hp ->]%lifecycle_step_permits.
  destruct e as [| | | | | |? [[d|] ?]|[[d|] ?]|? [[d|] ?]| |? [[d|] ?]|], s;
    try discriminate Hp; cbn in *; unfold has_tx, has_data; cbn;
    repeat case_match; repeat split; intros x [= <-]; cbn in *; auto.
Qed.

Lemma mrun_agrees t s s' i h u :
  agrees s i h u -> mrun lifecycle_code s t = Some s' ->
  agrees s' (last_init t i) (last_head t h) (minted_unit t u).
Proof.
  revert s i h u; induction t as [|e t IH]; intros s i h u Ha; cbn [mrun].
  - by intros [= <-].
  - destruct (mstep lifecycle_code s e) as [s1|] eqn:E; [|done].
    rewrite last_init_cons, last_head_cons, minted_unit_cons.
    apply IH. by eapply step_agrees.
Qed.

(** A query at the end of a trace does not move the head. *)
Lemma last_head_query t tx r h :
  last_head (t ++ [EvQuery tx r]) h = last_head t h.
Proof.
  revert h; induction t as [|e t IH]; intros h; [done|].
  rewrite <- app_comm_cons, (last_head_cons e (t ++ _)), (last_head_cons e t).
  apply IH.
Qed.

Lemma agrees_start : agrees Unstarted None None None.
Proof. repeat split; intros x [=]. Qed.

(** What the machine requires of the three requests that carry
    dependencies. *)
Lemma permits_register s a :
  permits s (OracleRegister a) = true ->
  s = Initialized (reg_oracleDIDUnit a) (reg_initRNGTx a).
Proof.
  destruct s; try discriminate. cbn. intros ->%bool_decide_eq_true. done.
Qed.

Lemma permits_update s a :
  permits s (OracleUpdate a) = true ->
  exists head, currUpdatedOracleDIDTx a = Some head /\
    s = Regenerating (upd_oracleDIDUnit a) head (upd_initRNGTx a).
Proof.
  destruct s; try discriminate. cbn. intros ->%bool_decide_eq_true. eauto.
Qed.

Lemma permits_query s tx :
  permits s (OracleQuery tx) = true ->
  exists unit head, tx = Some head /\ s = Registered unit head.
Proof.
  destruct s; try discriminate. cbn. intros ->%bool_decide_eq_true. eauto.
Qed.

End agreement.

(** ** The script refines the machine *)

Section refinement.
Context {W : Type} `{HW : !World W}.
Implicit Types (n k : nat) (g : Globals) (w : W).

(** The phase the machine is in after the first [k] events of a run. *)
Lemma phase_before n g w k e :
  trace (run (main n g) w) !! k = Some e ->
  exists s s', mrun lifecycle_code Unstarted (take k (trace (run (main n g) w))) = Some s /\
    permits s (req_of e) = true /\ s' = advance has_data s e /\
    is_Some (mrun lifecycle_code s' (drop (S k) (trace (run (main n g) w)))) /\
    agrees s (last_init (take k (trace (run (main n g) w))) None)
             (last_head (take k (trace (run (main n g) w))) None)
             (minted_unit (take k (trace (run (main n g) w))) None).
Proof.
  intros Hk. destruct (mwp_sound _ _ _ _ w (main_lifecycle n g)) as (sf & Hrun & _).
  rewrite <- (take_drop_middle _ _ _ Hk) in Hrun.
  destruct (mrun_split lifecycle_code _ _ _ _ _ Hrun)
    as (s & s' & H1 & [Hp ->]%lifecycle_step_permits & H2).
  exists s, (advance has_data s e). repeat split; eauto.
  all: by eapply (mrun_agrees _ _ _ None None None agrees_start).
Qed.

(** C1: every run of the script, cut after any number of iterations and
    against any world, is a run of the lifecycle machine: mint, init,
    register, then any number of generate (init, update) and query, each
    request carrying the values the machine holds. *)
Theorem main_refines_lifecycle n g w :
  accepts lifecycle_code Unstarted
    (trace (run (main n g) w)) (outcome (run (main n g) w)).
Proof. eapply mwp_sound, main_lifecycle. Qed.

(** C2: when the script has run its bootstrap and [n] iterations, the DID
    is registered, its unit is the one the mint returned, and the head is
    the non-empty hash returned by the last successful register or
    update of the run. *)
Theorem main_registered n g w g' :
  outcome (run (main n g) w) = Done (tt, g') ->
  exists u h,
    g' = {| BASE_ORACLEDID :=
              Some {| OracleDID.unit := u; OracleDID.registered := true |};
            CURR_ORACLE_UPDATED_TX := Some h |} /\
    truthy h = true /\
    minted_unit (trace (run (main n g) w)) None = Some u /\
    last_head (trace (run (main n g) w)) None = Some h.
Proof.
  intros Ho.
  destruct (mwp_sound_done _ _ _ _ w _ (main_lifecycle n g) Ho)
    as (s & Hrun & u & h & -> & Hg & Hh).
  cbn in Hg. subst g'.
  destruct (mrun_agrees _ _ _ None None None agrees_start Hrun) as (_ & H2 & H3).
  exists u, h. repeat split; auto.
Qed.

(** C4: the register request carries the hash of the init that precedes
    it and the unit of the mint. *)
Theorem register_sequencing n g w k a r :
  trace (run (main n g) w) !! k = Some (EvRegister a r) ->
  last_init (take k (trace (run (main n g) w))) None = Some (reg_initRNGTx a) /\
  minted_unit (take k (trace (run (main n g) w))) None = Some (reg_oracleDIDUnit a).
Proof.
  intros (s & ? & _ & ->%permits_register & _ & _ & Hi & _ & Hu)%phase_before.
  split; [by apply Hi | by apply Hu].
Qed.

(** C3: every update request carries the hash of the init of its own
    generate action, the unit of the mint, and as previous head the hash
    of the last successful register or update before it, which is set. *)
Theorem update_sequencing n g w k a r :
  trace (run (main n g) w) !! k = Some (EvUpdate a r) ->
  last_init (take k (trace (run (main n g) w))) None = Some (upd_initRNGTx a) /\
  minted_unit (take k (trace (run (main n g) w))) None = Some (upd_oracleDIDUnit a) /\
  is_Some (currUpdatedOracleDIDTx a) /\
  last_head (take k (trace (run (main n g) w))) None = currUpdatedOracleDIDTx a.
Proof.
  intros (s & ? & _ & (hd & E & ->)%permits_update & _ & _ & Hi & Hh & Hu)%phase_before.
  rewrite E. repeat split; [by apply Hi | by apply Hu | by eexists | by apply Hh].
Qed.

(** C14: a query is made on the current head, and changes neither the head
    nor what the next request may carry. *)
Theorem query_reads_head n g w k tx r :
  trace (run (main n g) w) !! k = Some (EvQuery tx r) ->
  is_Some tx /\
  last_head (take k (trace (run (main n g) w))) None = tx /\
  last_head (take (S k) (trace (run (main n g) w))) None = tx.
Proof.
  intros Hk. pose proof Hk as (s & ? & _ & (u & hd & -> & ->)%permits_query & _ & _ & _ & Hh & _)%phase_before.
  assert (E : last_head (take k (trace (run (main n g) w))) None = Some hd) by by apply Hh.
  split; [by eexists|]. split; [done|].
  erewrite take_S_r by exact Hk. rewrite <- E. apply last_head_query.
Qed.

End refinement.

Lemma main_registered_witness :
  exists u h,
    {| BASE_ORACLEDID :=
         Some {| OracleDID.unit := "U1"; OracleDID.registered := true |};
       CURR_ORACLE_UPDATED_TX := Some "T5" |} =
    {| BASE_ORACLEDID :=
         Some {| OracleDID.unit := u; OracleDID.registered := true |};
       CURR_ORACLE_UPDATED_TX := Some h |} /\
    truthy h = true /\
    minted_unit (trace (run (main 2 initial_globals) happy)) None = Some u /\
    last_head (trace (run (main 2 initial_globals) happy)) None = Some h.
Proof. apply (main_registered 2 initial_globals happy). vm_compute; reflexivity. Defined.

Lemma register_sequencing_witness :
  last_init (take 16 (trace (run (main 0 initial_globals) happy))) None = Some "T2" /\
  minted_unit (take 16 (trace (run (main 0 initial_globals) happy))) None = Some "U1".
Proof.
  apply (register_sequencing 0 initial_globals happy 16
           {| reg_initRNGTx := "T2"; reg_oracleDIDUnit := "U1" |}
           (ok {| txHash := "T3" |})).
  vm_compute; reflexivity.
Defined.

Lemma update_sequencing_witness :
  last_init (take 27 (trace (run (main 1 initial_globals) happy))) None = Some "T4" /\
  minted_unit (take 27 (trace (run (main 1 initial_globals) happy))) None = Some "U1" /\
  is_Some (Some "T3") /\
  last_head (take 27 (trace (run (main 1 initial_globals) happy))) None = Some "T3".
Proof.
  apply (update_sequencing 1 initial_globals happy 27
           {| upd_initRNGTx := "T4"; upd_oracleDIDUnit := "U1";
              currUpdatedOracleDIDTx := Some "T3" |}
           (ok {| txHash := "T5" |})).
  vm_compute; reflexivity.
Defined.

Lemma query_reads_head_witness :
  is_Some (Some "T5") /\
  last_head (take 31 (trace (run (main 2 initial_globals) happy))) None = Some "T5" /\
  last_head (take 32 (trace (run (main 2 initial_globals) happy))) None = Some "T5".
Proof.
  apply (query_reads_head 2 initial_globals happy 31 (Some "T5")
           (ok {| rngOutput := "42" |})).
  vm_compute; reflexivity.
Defined.

(** C15: the machine of the specification, in which init succeeds only
    with a transaction hash, rejects a run of the script: the script
    goes on to register after an init that returned data with an empty
    hash, and passes the empty hash on. *)
Theorem init_empty_hash_diverges :
  ~ accepts lifecycle_spec Unstarted
      (trace (run (main 0 initial_globals) empty_init))
      (outcome (run (main 0 initial_globals) empty_init)) /\
  trace (run (main 0 initial_globals) empty_init) !! 16%nat =
    Some (EvRegister {| reg_initRNGTx := EmptyString; reg_oracleDIDUnit := "U1" |}
            (ok {| txHash := "T3" |})).
Proof.
  split; [|vm_compute; reflexivity]. intros (s & Hrun & _). vm_compute in Hrun. discriminate.
Qed.
