(* ===== verification/Machine.v ===== *)
(** * Machine: the lifecycle as a transition system

    The controller of the specification (4.3) and its action loop (4.4)
    as the specification lists them: one rule for each transition,
    [transition], and the paths they make, [path].  The monitor of
    [Lifecycle] is the executable form of these rules: it steps exactly
    where a rule applies.  The order of the phases and the identity they
    carry are invariants of the rules, proved by induction on them, and
    every run of the script is a path from [Unstarted]: so the phases
    of a run are never re-entered, the registration never reverts and
    the unit never changes, at every point of the run. *)

From stdpp Require Import gmap.
From S2P Require Import Prelude JsBuiltins Prog Monitor.
From S2P Require Import Interface Fake Config Bootstrap ActionLoop Lifecycle.

(** The stage an event ends has succeeded. *)
Definition succeeded (init_ok : Response TxData -> bool) (e : Ev) : bool :=
  match e with
  | EvMint _ r => has_tx mint_txHash r
  | EvInit r => init_ok r
  | EvRegister _ r | EvUpdate _ r => has_tx txHash r
  | _ => true
  end.

(** The transitions: mint, init, register (4.3); reconfigure, init,
    update and query from [Registered] (4.4); a stage that fails halts
    the machine; what is not a call of the executor leaves it where it
    is. *)
Inductive transition (init_ok : Response TxData -> bool) : Phase -> Ev -> Phase -> Prop :=
| t_mint name r :
    has_tx mint_txHash r = true ->
    transition init_ok Unstarted (EvMint name r) (Minted (tx_of oracleDIDUnit r))
| t_init u r :
    init_ok r = true ->
    transition init_ok (Minted u) (EvInit r) (Initialized u (tx_of txHash r))
| t_register u t r :
    has_tx txHash r = true ->
    transition init_ok (Initialized u t)
      (EvRegister {| reg_initRNGTx := t; reg_oracleDIDUnit := u |} r)
      (Registered u (tx_of txHash r))
| t_configure u h k v :
    transition init_ok (Registered u h) (EvUpdateConfig k v) (Registered u h)
| t_generate u h r :
    init_ok r = true ->
    transition init_ok (Registered u h) (EvInit r) (Regenerating u h (tx_of txHash r))
| t_update u h t r :
    has_tx txHash r = true ->
    transition init_ok (Regenerating u h t)
      (EvUpdate {| upd_initRNGTx := t; upd_oracleDIDUnit := u;
                   currUpdatedOracleDIDTx := Some h |} r)
      (Registered u (tx_of txHash r))
| t_query u h r :
    transition init_ok (Registered u h) (EvQuery (Some h) r) (Registered u h)
| t_fail s e :
    permits s (req_of e) = true -> succeeded init_ok e = false ->
    transition init_ok s e Halted
| t_other s e :
    is_executor_event e = false -> transition init_ok s e s.

(** The paths of the machine along a trace. *)
Inductive path (init_ok : Response TxData -> bool) : Phase -> list Ev -> Phase -> Prop :=
| path_nil s : path init_ok s [] s
| path_cons s e s1 t s2 :
    transition init_ok s e s1 -> path init_ok s1 t s2 ->
    path init_ok s (e :: t) s2.

(** The order of the phases. *)
Definition rank (s : Phase) : nat :=
  match s with
  | Unstarted => 0
  | Minted _ => 1
  | Initialized _ _ => 2
  | Registered _ _ | Regenerating _ _ _ => 3
  | Halted => 4
  end.

(** * Properties *)

#[export] Hint Constructors transition path : js.

Section machine.
Variable init_ok : Response TxData -> bool.
Implicit Types (s : Phase) (e : Ev) (t : list Ev).

(** ** The monitor is the executable form of the rules *)

Lemma mstep_transition s e s' :
  mstep (lifecycle init_ok) s e = Some s' -> transition init_ok s e s'.
Proof.
  intros [Hp ->]%lifecycle_step_permits.
  destruct e, s; try discriminate Hp; cbn in Hp |- *;
    try apply bool_decide_eq_true in Hp as ->;
    try (by apply t_other); try (by constructor);
    match goal with |- context [if ?b then _ else _] =>
      destruct b eqn:E;
        [by constructor
        |apply t_fail; cbn; rewrite ?bool_decide_eq_true_2 by done; done] end.
Qed.

Lemma transition_mstep s e s' :
  transition init_ok s e s' -> mstep (lifecycle init_ok) s e = Some s'.
Proof.
  destruct 1 as [? ? H|? ? H|? ? ? H| |? ? ? H|? ? ? ? H| |s e Hp H|s e H]; cbn;
    rewrite ?bool_decide_eq_true_2, ?H by done; try done.
  - cbn in Hp. rewrite Hp.
    destruct e, s; try discriminate Hp; try discriminate H; cbn in H |- *;
      by rewrite H.
  - by destruct e, s.
Qed.

Lemma mrun_path s t s' :
  mrun (lifecycle init_ok) s t = Some s' <-> path init_ok s t s'.
Proof.
  split.
  - revert s; induction t as [|e t IH]; intros s; cbn [mrun].
    + intros [= <-]. constructor.
    + destruct (mstep (lifecycle init_ok) s e) as [s1|] eqn:E; [|done].
      eauto using mstep_transition with js.
  - induction 1 as [|s e s1 t s2 H%transition_mstep _ IH]; [done|].
    cbn [mrun]. by rewrite H.
Qed.

(** The machine is deterministic. *)
Lemma path_deterministic s t s1 s2 :
  path init_ok s t s1 -> path init_ok s t s2 -> s1 = s2.
Proof. intros H1%mrun_path H2%mrun_path. congruence. Qed.

Lemma path_app s t1 t2 s' :
  path init_ok s (t1 ++ t2) s' <->
  exists s1, path init_ok s t1 s1 /\ path init_ok s1 t2 s'.
Proof.
  split.
  - revert s; induction t1 as [|e t1 IH]; intros s H; cbn in H.
    + eauto with js.
    + inversion H as [|? ? s0 ? ? He Ht]; subst.
      destruct (IH _ Ht) as (s1 & ? & ?). eauto with js.
  - intros (s1 & H1 & H2). induction H1; cbn; eauto with js.
Qed.

(** ** Invariants of the rules *)

(** No transition goes back: the phases are passed in their order, and
    the machine once registered stays registered until a stage fails. *)
Lemma transition_rank s e s' : transition init_ok s e s' -> rank s <= rank s'.
Proof. destruct 1; cbn; try lia. destruct s; cbn; lia. Qed.

(** No transition changes the unit. *)
Lemma transition_unit s e s' u :
  transition init_ok s e s' -> phase_unit s = Some u ->
  s' = Halted \/ phase_unit s' = Some u.
Proof. destruct 1; cbn; auto; discriminate. Qed.

Lemma path_rank s t s' : path init_ok s t s' -> rank s <= rank s'.
Proof. induction 1 as [|? ? ? ? ? H%transition_rank]; lia. Qed.

Lemma path_unit s t s' u :
  path init_ok s t s' -> phase_unit s = Some u ->
  s' = Halted \/ phase_unit s' = Some u.
Proof.
  induction 1 as [|s e s1 t s2 H Hp IH]; [auto|]. intros Hu.
  destruct (transition_unit _ _ _ _ H Hu) as [->|Hu1]; [|auto].
  left. apply path_rank in Hp. destruct s2; cbn in Hp; done || lia.
Qed.

End machine.

Section runs.
Context {W : Type} `{HW : !World W}.
Implicit Types (n : nat) (g : Globals) (w : W).

(** A run of the script is a path of the machine, and the variables it
    returns are those of the phase the path ends in. *)
Lemma main_path n g w :
  let r := run (main n g) w in
  exists s, path has_data Unstarted (trace r) s /\
    (forall x, outcome r = Done x ->
       exists u h, s = Registered u h /\ registered_with u h (snd x)) /\
    forall t1 t2 s1, trace r = t1 ++ t2 -> path has_data Unstarted t1 s1 ->
      path has_data s1 t2 s /\ rank s1 <= rank s /\
      forall u, phase_unit s1 = Some u -> s = Halted \/ phase_unit s = Some u.
Proof.
  intros r. destruct (mwp_run lifecycle_code _ _ _ w (main_lifecycle n g)) as (s & Hrun & Hpost).
  fold r in Hrun, Hpost. apply (mrun_path has_data) in Hrun.
  exists s. split; [done|]. split.
  - intros x Hx. rewrite Hx in Hpost. cbn in Hpost.
    destruct Hpost as (u & h & -> & Hg). eauto.
  - intros t1 t2 s1 Ht H1. rewrite Ht in Hrun.
    apply path_app in Hrun as (s1' & H1' & H2).
    rewrite (path_deterministic _ _ _ _ _ H1 H1').
    eauto using path_rank, path_unit.
Qed.

(** C21: the script follows the transitions of the specification.  The
    events of every run of the script, whatever the replies and wherever
    the run ends, are a path of the transition system of the controller
    and the action loop from [Unstarted]; when the script returns, the
    path ends in [Registered] with the unit and the head that the two
    variables hold.  At every point of the run the phase reached is not
    after the phase the run ends in (no phase is re-entered and the
    registration never reverts), and the unit minted is the unit at the
    end unless a stage failed. *)
Theorem main_follows_transitions n g w :
  let r := run (main n g) w in
  exists s, path has_data Unstarted (trace r) s /\
    (forall x, outcome r = Done x ->
       exists u h, s = Registered u h /\ registered_with u h (snd x)) /\
    forall t1 t2 s1, trace r = t1 ++ t2 -> path has_data Unstarted t1 s1 ->
      path has_data s1 t2 s /\ rank s1 <= rank s /\
      forall u, phase_unit s1 = Some u -> s = Halted \/ phase_unit s = Some u.
Proof. apply main_path. Qed.

End runs.
