(* ===== verification/Discipline.v ===== *)
(** * Discipline: failures, confirmation waits and spinners

    Three monitors over the traces of the script, and the proofs that
    every run is accepted by each of them.

    - [fatal]: a stage whose reply lacks what the script requires of it
      is the last event of the run, and the run ends by throwing the
      error of that reply; nothing else is thrown, but the [TypeError]
      of an absent answer at start-up.
    - [waits]: after a transaction is submitted, no request reaches the
      RNG instance before a timer of at least 120 seconds has fired.
    - [spinners]: at most one spinner runs at a time, it is stopped by
      its own [stop], and the operator is neither prompted nor shown a
      status line while it runs. *)

From stdpp Require Import gmap.
From S2P Require Import Prelude JsBuiltins Prog Monitor Interface.
From S2P Require Import Fake Config Bootstrap ActionLoop Lifecycle.

#[local] Open Scope Z_scope.

(** ** Fatal failures *)

(** The error a stage makes the script throw, when its reply lacks what
    the script requires of it. *)
Definition stage_error (e : Ev) : option JsError :=
  match e with
  | EvMint _ r =>
      if has_tx mint_txHash r then None
      else Some (Error (JSON_stringify (error r)))
  | EvInit r => if has_data r then None else Some (Error (error r))
  | EvRegister _ r | EvUpdate _ r =>
      if has_tx txHash r then None else Some (Error (error r))
  | _ => None
  end.

Inductive Health : Type :=
| Running
| Failed (err : JsError).

Definition fatal : Monitor := {|
  mstate := Health;
  mstep := fun s e =>
    match s with
    | Running =>
        Some (match stage_error e with Some err => Failed err | None => Running end)
    | Failed _ => None
    end;
  mallow := fun s _ => match s with Running => true | Failed _ => false end;
  mthrows := fun s err =>
    match s with
    | Running => bool_decide (err = TypeError "undefined" "trim")
    | Failed e => bool_decide (err = e)
    end
|}.

(** ** Confirmation waits *)

(** The events that submit a transaction. *)
Definition submits (e : Ev) : bool :=
  match e with
  | EvMint _ _ | EvInit _ | EvRegister _ _ | EvUpdate _ _ => true
  | _ => false
  end.

(** A timer long enough to count as a confirmation wait. *)
Definition confirms (e : Ev) : bool :=
  match e with
  | EvTimeout ms => bool_decide (CONFIRMATION_WAIT <= ms)
  | _ => false
  end.

(** The state is [true] when no transaction awaits its confirmation. *)
Definition waits : Monitor := {|
  mstate := bool;
  mstep := fun settled e =>
    if is_executor_event e
    then if settled then Some (negb (submits e)) else None
    else Some (settled || confirms e);
  mallow := fun settled c => settled || negb (is_executor_call c);
  mthrows := fun _ _ => true
|}.

(** ** Spinners *)

(** The state is the text of the spinner that runs, if one does. *)
Definition spinners : Monitor := {|
  mstate := option string;
  mstep := fun s e =>
    match e, s with
    | EvOraStart t, None => Some (Some t)
    | EvOraStart _, Some _ => None
    | EvOraStop t, Some t' => if bool_decide (t = t') then Some None else None
    | EvOraStop _, None => None
    | (EvPrompt _ _ | EvLog _), Some _ => None
    | _, _ => Some s
    end;
  mallow := fun s c =>
    match c, s with
    | (Prompt _ | ConsoleLog _ | OraStart _), Some _ => false
    | OraStop t, Some t' => bool_decide (t = t')
    | OraStop _, None => false
    | _, _ => true
    end;
  mthrows := fun _ _ => true
|}.

(** The numbers of spinners started and stopped in a trace. *)
Definition is_start (e : Ev) : bool :=
  match e with EvOraStart _ => true | _ => false end.

Definition is_stop (e : Ev) : bool :=
  match e with EvOraStop _ => true | _ => false end.

Definition started (t : list Ev) : nat := length (List.filter is_start t).
Definition stopped (t : list Ev) : nat := length (List.filter is_stop t).

(** One if a spinner runs, zero if none does. *)
Definition running (s : option string) : nat :=
  match s with Some _ => 1 | None => 0 end.

(** The unit can be read: [BASE_ORACLEDID] is not [null]. *)
Definition has_base (g : Globals) : Prop := is_Some (BASE_ORACLEDID g).

(** * Properties *)

(** ** Every run is accepted *)

Section accepted.
Implicit Types g : Globals.

Lemma bootstrap_fatal g :
  mwp fatal (bootstrap g) Running (fun x s => has_base (snd x) /\ s = Running).
Proof.
  unfold bootstrap, startup, newInstance, instanceConfig, mintOracle,
    firstInit, initRNG, registerOracle, has_base.
  script_go; eauto.
Qed.

Lemma iteration_fatal g s :
  has_base g /\ s = Running ->
  mwp fatal (iteration g) s (fun x s' => has_base (snd x) /\ s' = Running).
Proof.
  intros [[d Hd] ->]. destruct g as [b c]; cbn in Hd; subst b.
  unfold iteration, when, generate, query, initRNG, has_base.
  script_go; eauto.
Qed.

Lemma main_fatal n g :
  mwp fatal (main n g) Running (fun x s => has_base (snd x) /\ s = Running).
Proof.
  apply (main_mwp fatal (fun g s => has_base g /\ s = Running));
    auto using bootstrap_fatal, iteration_fatal.
Qed.

Lemma bootstrap_waits g :
  mwp waits (bootstrap g) true (fun _ s => s = true).
Proof.
  unfold bootstrap, startup, newInstance, instanceConfig, mintOracle,
    firstInit, initRNG, registerOracle.
  script_go; eauto.
Qed.

Lemma iteration_waits g s :
  s = true -> mwp waits (iteration g) s (fun _ s' => s' = true).
Proof.
  intros ->. unfold iteration, when, generate, query, initRNG.
  script_go; eauto.
Qed.

Lemma main_waits n g : mwp waits (main n g) true (fun _ s => s = true).
Proof.
  apply (main_mwp waits (fun _ s => s = true));
    auto using bootstrap_waits, iteration_waits.
Qed.

Lemma bootstrap_spinners g :
  mwp spinners (bootstrap g) None (fun _ s => s = None).
Proof.
  unfold bootstrap, startup, newInstance, instanceConfig, mintOracle,
    firstInit, initRNG, registerOracle.
  script_go; eauto.
Qed.

Lemma iteration_spinners g s :
  s = None -> mwp spinners (iteration g) s (fun _ s' => s' = None).
Proof.
  intros ->. unfold iteration, when, generate, query, initRNG.
  script_go; eauto.
Qed.

Lemma main_spinners n g : mwp spinners (main n g) None (fun _ s => s = None).
Proof.
  apply (main_mwp spinners (fun _ s => s = None));
    auto using bootstrap_spinners, iteration_spinners.
Qed.

End accepted.

(** ** What acceptance by [fatal] means *)

Section fatal_facts.

Lemma fatal_step_running s e s' :
  mstep fatal s e = Some s' ->
  s = Running /\
  s' = match stage_error e with Some err => Failed err | None => Running end.
Proof. destruct s; cbn; [by intros [= <-] | done]. Qed.

(** Once a stage has failed the monitor accepts no further event. *)
Lemma fatal_failed_stuck err t s :
  mrun fatal (Failed err) t = Some s -> t = [] /\ s = Failed err.
Proof. destruct t; cbn; [by intros [= <-] | done]. Qed.

(** The monitor is in [Failed] exactly after a failed last event. *)
Lemma fatal_failed_last t err :
  mrun fatal Running t = Some (Failed err) ->
  exists e, last t = Some e /\ stage_error e = Some err.
Proof.
  induction t as [|e t IH]; [done|]. cbn [mrun].
  destruct (mstep fatal Running e) as [s1|] eqn:E; [|done].
  apply fatal_step_running in E as [_ ->].
  destruct (stage_error e) as [err'|] eqn:Ee.
  - intros [-> [= ->]]%fatal_failed_stuck. by exists e.
  - intros (e' & Hl & He')%IH. exists e'. split; [|done].
    destruct t; [done|]. by rewrite last_cons, Hl.
Qed.

End fatal_facts.

(** ** What acceptance by [waits] means *)

Section waits_facts.

Lemma waits_step s e :
  mstep waits s e =
  if is_executor_event e
  then if s then Some (negb (submits e)) else None
  else Some (s || confirms e).
Proof. reflexivity. Qed.

Lemma waits_step_executor s e s' :
  mstep waits s e = Some s' -> is_executor_event e = true ->
  s = true /\ s' = negb (submits e).
Proof.
  rewrite waits_step. intros H Hx. rewrite Hx in H.
  destruct s; [by injection H as <- | done].
Qed.

(** The monitor settles only on a timer that is long enough. *)
Lemma waits_settles s t :
  mrun waits s t = Some true ->
  s = true \/ exists ms, EvTimeout ms ∈ t /\ CONFIRMATION_WAIT <= ms.
Proof.
  revert s; induction t as [|e t IH]; intros s; cbn [mrun].
  - intros [= ->]. by left.
  - rewrite waits_step. destruct (is_executor_event e) eqn:Hx.
    + destruct s; [by left | done].
    + intros [E|(ms & Hin & Hms)]%IH.
      * apply orb_true_iff in E as [->|Hc]; [by left|].
        right. destruct e; try discriminate. cbn in Hc.
        apply bool_decide_eq_true in Hc. exists ms. split; [left | done].
      * right. exists ms. split; [by right | done].
Qed.

End waits_facts.

(** ** What acceptance by [spinners] means *)

Section spinner_facts.

Lemma spinners_balance s t s' :
  mrun spinners s t = Some s' ->
  (running s + started t = stopped t + running s')%nat.
Proof.
  revert s; induction t as [|e t IH]; intros s; cbn [mrun].
  - intros [= ->]. cbn. lia.
  - destruct (mstep spinners s e) as [s1|] eqn:E; [|done].
    intros H%IH. unfold started, stopped in *.
    destruct e, s; cbn in E; try case_bool_decide; simplify_eq;
      cbn in *; lia.
Qed.

End spinner_facts.

(** ** The properties of every run *)

Section claims.
Context {W : Type} `{HW : !World W}.
Implicit Types (n k : nat) (g : Globals) (w : W).

(** C11: a stage whose reply lacks what the script requires is fatal: it
    is the last event of the run, and the run ends by throwing the error
    of that reply (JSON-encoded for the mint, as is for the others). *)
Theorem stage_failure_is_fatal n g w k e err :
  trace (run (main n g) w) !! k = Some e ->
  stage_error e = Some err ->
  length (trace (run (main n g) w)) = S k /\
  outcome (run (main n g) w) = Thrown err.
Proof.
  intros Hk He.
  destruct (mwp_run fatal _ _ _ w (main_fatal n g)) as (sf & Hrun & Hpost).
  rewrite <- (take_drop_middle _ _ _ Hk) in Hrun.
  destruct (mrun_split fatal _ _ _ _ _ Hrun)
    as (s1 & s2 & _ & [_ ->]%fatal_step_running & H2).
  rewrite He in H2. apply fatal_failed_stuck in H2 as [Hd ->].
  split.
  - apply lookup_lt_Some in Hk as Hlt.
    apply (f_equal length) in Hd. rewrite length_drop in Hd.
    cbn [length] in Hd. ev_norm. lia.
  - destruct (outcome (run (main n g) w)) as [[[] g']|e'|c]; cbn in Hpost.
    + by destruct Hpost.
    + by apply bool_decide_eq_true in Hpost as ->.
    + done.
Qed.

(** C12: the script throws only the error of a failed stage, right after
    it, or the [TypeError] of trimming an absent answer; it never reads
    the unit of a [null] DID. *)
Theorem thrown_by_failed_stage n g w err :
  outcome (run (main n g) w) = Thrown err ->
  err = TypeError "undefined" "trim" \/
  exists e, last (trace (run (main n g) w)) = Some e /\ stage_error e = Some err.
Proof.
  intros Ho.
  destruct (mwp_run fatal _ _ _ w (main_fatal n g)) as (sf & Hrun & Hpost).
  rewrite Ho in Hpost. destruct sf as [|err']; cbn in Hpost.
  - left. by apply bool_decide_eq_true in Hpost.
  - right. apply bool_decide_eq_true in Hpost as ->.
    by apply fatal_failed_last.
Qed.

(** C5: no premature proceed: between an event that submits a
    transaction and the next request that reaches the RNG instance, a
    timer of at least 120 seconds fires. *)
Theorem no_premature_proceed n g w pre e mid e' post :
  trace (run (main n g) w) = pre ++ e :: mid ++ e' :: post ->
  submits e = true -> is_executor_event e' = true ->
  exists ms, EvTimeout ms ∈ mid /\ CONFIRMATION_WAIT <= ms.
Proof.
  intros Ht He He'.
  destruct (mwp_run waits _ _ _ w (main_waits n g)) as (sf & Hrun & _).
  rewrite Ht in Hrun.
  destruct (mrun_split waits _ _ _ _ _ Hrun) as (s1 & s2 & _ & H1 & H2).
  apply waits_step_executor in H1 as [_ ->]; [|by destruct e].
  rewrite He in H2.
  destruct (mrun_split waits _ _ _ _ _ H2) as (s3 & s4 & H3 & H4 & _).
  apply waits_step_executor in H4 as [-> _]; [|done].
  by apply waits_settles in H3 as [?|?].
Qed.

(** C16: a request that reaches the RNG instance and is never answered
    was not issued while a transaction awaited its confirmation. *)
Theorem pending_after_wait n g w c pre e mid :
  outcome (run (main n g) w) = Pending c -> is_executor_call c = true ->
  trace (run (main n g) w) = pre ++ e :: mid -> submits e = true ->
  exists ms, EvTimeout ms ∈ mid /\ CONFIRMATION_WAIT <= ms.
Proof.
  intros Ho Hc Ht He.
  destruct (mwp_run waits _ _ _ w (main_waits n g)) as (sf & Hrun & Hpost).
  rewrite Ho in Hpost. cbn in Hpost. rewrite Hc, orb_false_r in Hpost. subst sf.
  rewrite Ht in Hrun.
  destruct (mrun_split waits _ _ _ _ _ Hrun) as (s1 & s2 & _ & H1 & H2).
  apply waits_step_executor in H1 as [_ ->]; [|by destruct e].
  rewrite He in H2. by apply waits_settles in H2 as [?|?].
Qed.

(** C19: at most one spinner runs at any time, and each is stopped by its
    own text: after any prefix of a run the spinners started are those
    stopped, plus at most one. *)
Theorem one_spinner_at_a_time n g w k :
  (stopped (take k (trace (run (main n g) w))) <=
     started (take k (trace (run (main n g) w))) <=
   stopped (take k (trace (run (main n g) w))) + 1)%nat.
Proof.
  destruct (mwp_run spinners _ _ _ w (main_spinners n g)) as (sf & Hrun & _).
  assert (Hsplit : mrun spinners None
            (take k (trace (run (main n g) w)) ++
             drop k (trace (run (main n g) w))) = Some sf)
    by (by rewrite take_drop).
  rewrite mrun_app in Hsplit.
  destruct (mrun spinners None (take k _)) as [s1|] eqn:E; [|done].
  apply spinners_balance in E. ev_norm. destruct s1; cbn [running] in E; lia.
Qed.

(** The operator is prompted only while no spinner runs. *)
Theorem prompt_without_spinner n g w k qs a :
  trace (run (main n g) w) !! k = Some (EvPrompt qs a) ->
  started (take k (trace (run (main n g) w))) =
  stopped (take k (trace (run (main n g) w))).
Proof.
  intros Hk.
  destruct (mwp_run spinners _ _ _ w (main_spinners n g)) as (sf & Hrun & _).
  rewrite <- (take_drop_middle _ _ _ Hk) in Hrun.
  destruct (mrun_split spinners _ _ _ _ _ Hrun) as (s1 & s2 & H1 & H2 & _).
  apply spinners_balance in H1. ev_norm. destruct s1; [done|].
  cbn [running] in H1. lia.
Qed.

(** When the script returns from its iterations every spinner it
    started has been stopped. *)
Theorem spinners_stopped n g w x :
  outcome (run (main n g) w) = Done x ->
  started (trace (run (main n g) w)) = stopped (trace (run (main n g) w)).
Proof.
  intros Ho.
  destruct (mwp_run spinners _ _ _ w (main_spinners n g)) as (sf & Hrun & Hpost).
  rewrite Ho in Hpost. cbn in Hpost. subst sf.
  apply spinners_balance in Hrun. ev_norm. cbn [running] in Hrun. lia.
Qed.

End claims.

Lemma stage_failure_is_fatal_witness :
  length (trace (run (main 3 initial_globals) mint_fails)) = 6%nat /\
  outcome (run (main 3 initial_globals) mint_fails) =
    Thrown (Error (JSON_stringify (Some "no funds"))).
Proof.
  apply (stage_failure_is_fatal 3 initial_globals mint_fails 5
           (EvMint (Some "myoracle") (failed "no funds")));
    vm_compute; reflexivity.
Defined.

Lemma thrown_by_failed_stage_witness :
  Error (JSON_stringify (Some "no funds")) = TypeError "undefined" "trim" \/
  exists e, last (trace (run (main 3 initial_globals) mint_fails)) = Some e /\
    stage_error e = Some (Error (JSON_stringify (Some "no funds"))).
Proof. apply (thrown_by_failed_stage 3 initial_globals mint_fails). vm_compute; reflexivity. Defined.

Lemma no_premature_proceed_witness :
  exists ms,
    EvTimeout ms ∈ take 10 (drop 17 (trace (run (main 1 initial_globals) happy))) /\
    CONFIRMATION_WAIT <= ms.
Proof.
  apply (no_premature_proceed 1 initial_globals happy
           (take 16 (trace (run (main 1 initial_globals) happy)))
           (EvRegister {| reg_initRNGTx := "T2"; reg_oracleDIDUnit := "U1" |}
              (ok {| txHash := "T3" |}))
           (take 10 (drop 17 (trace (run (main 1 initial_globals) happy))))
           (EvUpdate {| upd_initRNGTx := "T4"; upd_oracleDIDUnit := "U1";
                        currUpdatedOracleDIDTx := Some "T3" |}
              (ok {| txHash := "T5" |}))
           (drop 28 (trace (run (main 1 initial_globals) happy))));
    vm_compute; reflexivity.
Defined.

Lemma prompt_without_spinner_witness :
  started (take 19 (trace (run (main 1 initial_globals) happy))) =
  stopped (take 19 (trace (run (main 1 initial_globals) happy))).
Proof.
  apply (prompt_without_spinner 1 initial_globals happy 19 actionQuestions
           (answers [("actionType", "1")])).
  vm_compute; reflexivity.
Defined.

Lemma spinners_stopped_witness :
  started (trace (run (main 2 initial_globals) happy)) =
  stopped (trace (run (main 2 initial_globals) happy)).
Proof.
  apply (spinners_stopped 2 initial_globals happy
          (tt, {| BASE_ORACLEDID :=
                    Some {| OracleDID.unit := "U1"; OracleDID.registered := true |};
                  CURR_ORACLE_UPDATED_TX := Some "T5" |})).
  vm_compute; reflexivity.
Defined.

Lemma pending_after_wait_witness :
  exists ms,
    EvTimeout ms ∈ drop 12 (trace (run (main 1 initial_globals) register_hangs)) /\
    CONFIRMATION_WAIT <= ms.
Proof.
  apply (pending_after_wait 1 initial_globals register_hangs
           (OracleRegister {| reg_initRNGTx := "T2"; reg_oracleDIDUnit := "U1" |})
           (take 11 (trace (run (main 1 initial_globals) register_hangs)))
           (EvInit (ok {| txHash := "T2" |}))
           (drop 12 (trace (run (main 1 initial_globals) register_hangs))));
    vm_compute; reflexivity.
Defined.
