(* ===== verification/Rejection.v ===== *)
(** * Rejection: calls that fail

    Every call the script makes can fail: an awaited promise rejects, a
    synchronous call throws.  There is no [try] in [src/src/index.ts],
    so the first failure ends the process with the error of the call.
    A [Host] answers a request with a value, with an error, or never;
    [execute] runs a program against it.  An execution is a run against
    the world that resolves what the host resolves and leaves the rest
    unanswered, told apart at its end ([settle]): so what the monitors
    accept of the runs they accept of the executions, a call that fails
    standing where a call that never returns stood. *)

From stdpp Require Import gmap.
From S2P Require Import Prelude JsBuiltins Prog Monitor Interface Fake Config.
From S2P Require Import Bootstrap ActionLoop Lifecycle Discipline.

Section definitions.
Context `{Sig : Signature}.

(** What becomes of a request: it resolves to a value, it fails with an
    error, or it never settles. *)
Inductive Answer (R W : Type) : Type :=
| Resolved (r : R) (w : W)
| Rejected (e : Err) (w : W)
| Unsettled.

#[global] Arguments Resolved {R W} r w.
#[global] Arguments Rejected {R W} e w.
#[global] Arguments Unsettled {R W}.

Class Host (W : Type) : Type :=
  answer : forall c : Req, W -> Answer (Reply c) W.

(** How a process ends: the program returns or throws, a call it made
    fails and nothing catches the error, or it waits for ever. *)
Inductive Ending (A : Type) : Type :=
| Returned (a : A)
| Raised (e : Err)
| Uncaught (c : Req) (e : Err)
| Waiting (c : Req).

#[global] Arguments Returned {A} a.
#[global] Arguments Raised {A} e.
#[global] Arguments Uncaught {A} c e.
#[global] Arguments Waiting {A} c.

Record Execution (A W : Type) : Type := mkExecution {
  events : list Event;
  ending : Ending A;
  world : W
}.

#[global] Arguments mkExecution {A W} events ending world.
#[global] Arguments events {A W} _.
#[global] Arguments ending {A W} _.
#[global] Arguments world {A W} _.

Fixpoint execute {A W : Type} `{Host W} (p : Prog A) (w : W) : Execution A W :=
  match p with
  | Ret a => mkExecution [] (Returned a) w
  | Throw e => mkExecution [] (Raised e) w
  | Vis c k =>
      match answer c w with
      | Resolved r w' =>
          let x := execute (k r) w' in
          mkExecution (event_of c r :: events x) (ending x) (world x)
      | Rejected e w' => mkExecution [] (Uncaught c e) w'
      | Unsettled => mkExecution [] (Waiting c) w
      end
  end.

(** The world that resolves what the host resolves. *)
Definition resolving {W : Type} `{Host W} : World W :=
  fun c w => match answer c w with Resolved r w' => Some (r, w') | _ => None end.

(** The end of the process, given the run against that world: the
    request left unanswered is one that failed or one that never
    settles. *)
Definition settle {A W : Type} `{Host W} (r : Run A W) : Execution A W :=
  match outcome r with
  | Done a => mkExecution (trace r) (Returned a) (final r)
  | Thrown e => mkExecution (trace r) (Raised e) (final r)
  | Pending c =>
      match answer c (final r) with
      | Rejected e w' => mkExecution (trace r) (Uncaught c e) w'
      | _ => mkExecution (trace r) (Waiting c) (final r)
      end
  end.

(** The error the process dies of. *)
Definition dies {A : Type} (x : Ending A) : option Err :=
  match x with
  | Raised e | Uncaught _ e => Some e
  | Returned _ | Waiting _ => None
  end.

(** What a monitor requires of the end of a process: of a call that
    failed, what it requires of a call made. *)
Definition epost {A : Type} (Mo : Monitor) (Q : A -> mstate Mo -> Prop)
    (s : mstate Mo) (x : Ending A) : Prop :=
  match x with
  | Returned a => Q a s
  | Raised e => mthrows Mo s e = true
  | Uncaught c _ | Waiting c => mallow Mo s c = true
  end.

(** An execution is accepted from state [s]. *)
Definition admits {A W : Type} (Mo : Monitor) (s : mstate Mo)
    (x : Execution A W) : Prop :=
  exists s', mrun Mo s (events x) = Some s' /\ epost Mo (fun _ _ => True) s' (ending x).

End definitions.

(** A host made of a world: the calls [bad] names fail with the error it
    gives, the others are answered as the world answers them. *)
Definition failing {W : Type} `{HW : !@World script_sig W}
    (bad : Request -> option JsError) : @Host script_sig W :=
  fun c w =>
    match bad c with
    | Some e => Rejected e w
    | None =>
        match handle c w with
        | Some (r, w') => Resolved r w'
        | None => Unsettled
        end
    end.

(** The register call fails: the network is down. *)
Definition register_rejects (c : Request) : option JsError :=
  match c with
  | OracleRegister _ => Some (Error (Some "fetch failed"))
  | _ => None
  end.

(** * Properties *)

Section properties.
Context `{Sig : Signature} {W : Type} `{HH : !Host W}.

Lemma settle_cons {A} e (r : Run A W) :
  settle (cons_event e r) =
  mkExecution (e :: events (settle r)) (ending (settle r)) (world (settle r)).
Proof.
  unfold settle, cons_event; cbn. destruct (outcome r) as [| |c]; [done..|].
  by destruct (answer c (final r)).
Qed.

(** An execution is the run against the resolving world, settled. *)
Lemma execute_settle {A} (p : Prog A) (w : W) :
  execute p w = settle (@run Sig A W resolving p w).
Proof.
  revert w; induction p as [a|e|c k IH]; intros w; [done..|].
  cbn [execute].
  destruct (answer c w) as [r w'|e w'|] eqn:E;
    [|assert (@handle Sig W resolving c w = None) as Hh
        by (unfold handle, resolving; by rewrite E);
      rewrite (run_vis_none (HW := resolving) _ _ _ Hh); unfold settle; cbn;
      by rewrite E..].
  assert (@handle Sig W resolving c w = Some (r, w')) as Hh
    by (unfold handle, resolving; by rewrite E).
  by rewrite (run_vis_some (HW := resolving) _ _ _ _ _ Hh), settle_cons, <- IH.
Qed.

Lemma execute_events {A} (p : Prog A) (w : W) :
  events (execute p w) = trace (@run Sig A W resolving p w).
Proof.
  rewrite execute_settle. unfold settle.
  by destruct (outcome _) as [?|?|c]; [..|destruct (answer c _)].
Qed.

(** The error of a call that failed is the one the host gave, at the
    end of the run. *)
Lemma execute_uncaught {A} (p : Prog A) (w : W) c e :
  ending (execute p w) = Uncaught c e ->
  outcome (@run Sig A W resolving p w) = Pending c /\
  answer c (final (@run Sig A W resolving p w)) = Rejected e (world (execute p w)).
Proof.
  rewrite execute_settle. unfold settle.
  destruct (outcome _) as [?|?|c']; [done..|].
  destruct (answer c' _) eqn:E; [done| |done]. cbn. by intros [= -> ->].
Qed.

(** What a monitor accepts of the runs of a program it accepts of its
    executions. *)
Lemma mwp_execute {A} (Mo : Monitor) (p : Prog A) s Q (w : W) :
  mwp Mo p s Q ->
  exists s', mrun Mo s (events (execute p w)) = Some s' /\
    epost Mo Q s' (ending (execute p w)).
Proof.
  intros Hp.
  destruct (mwp_run Mo _ _ _ (HW := resolving) w Hp) as (s' & Hrun & Hpost).
  exists s'. rewrite execute_settle. unfold settle.
  by destruct (outcome _) as [?|?|c]; [..|destruct (answer c _)].
Qed.

Lemma mwp_admits {A} (Mo : Monitor) (p : Prog A) s Q (w : W) :
  mwp Mo p s Q -> admits Mo s (execute p w).
Proof.
  intros Hp. destruct (mwp_execute Mo p s Q w Hp) as (s' & Hrun & Hpost).
  exists s'. split; [done|]. by destruct (ending _).
Qed.

End properties.

(** ** The script *)

Section script.
Context {W : Type} `{HH : !Host W}.
Implicit Types (n : nat) (g : Globals) (w : W).

(** The disciplines of the runs are those of the executions. *)
Lemma main_admitted n g w :
  let x := execute (main n g) w in
  admits lifecycle_code Unstarted x /\ admits waits true x /\
  admits spinners None x /\ admits fatal Running x.
Proof.
  repeat split; eapply mwp_admits;
    eauto using main_lifecycle, main_waits, main_spinners, main_fatal.
Qed.

(** What the script itself throws. *)
Lemma main_raised n g w e :
  ending (execute (main n g) w) = Raised e ->
  e = TypeError "undefined" "trim" \/
  exists ev, last (events (execute (main n g) w)) = Some ev /\ stage_error ev = Some e.
Proof.
  intros He.
  destruct (mwp_execute fatal _ _ _ w (main_fatal n g)) as (sf & Hrun & Hpost).
  rewrite He in Hpost. destruct sf as [|e']; cbn in Hpost.
  - left. by apply bool_decide_eq_true in Hpost.
  - right. apply bool_decide_eq_true in Hpost as ->. by apply fatal_failed_last.
Qed.

Lemma main_dies n g w :
  let x := execute (main n g) w in
  (admits lifecycle_code Unstarted x /\ admits waits true x /\
   admits spinners None x /\ admits fatal Running x) /\
  forall e, dies (ending x) = Some e ->
    (exists c, ending x = Uncaught c e) \/
    ending x = Raised e /\
      (e = TypeError "undefined" "trim" \/
       exists ev, last (events x) = Some ev /\ stage_error ev = Some e).
Proof.
  intros x. split; [apply main_admitted|]. intros e He.
  destruct (ending x) as [a|e'|c e'|c] eqn:E; try discriminate He;
    injection He as ->; [right|left; by exists c].
  split; [done|]. by apply main_raised.
Qed.

(** C13: what the process dies of.  A call of the script that fails (a
    promise that rejects, a call that throws) ends the process with its
    error, since the script catches nothing.  Whatever the host does,
    the events up to the end are accepted by the lifecycle, by the
    waits, by the spinners and by the rule that nothing follows a
    failed stage, and the call that failed was one they allowed: a call
    to the RNG instance fails only after the wait of the transaction
    before it.  The process dies of an error in three ways only: a call
    failed, a stage replied without what the script requires and the
    script threw the error of that reply, or a start-up answer was
    absent. *)
Theorem process_dies_of n g w :
  let x := execute (main n g) w in
  (admits lifecycle_code Unstarted x /\ admits waits true x /\
   admits spinners None x /\ admits fatal Running x) /\
  forall e, dies (ending x) = Some e ->
    (exists c, ending x = Uncaught c e) \/
    ending x = Raised e /\
      (e = TypeError "undefined" "trim" \/
       exists ev, last (events x) = Some ev /\ stage_error ev = Some e).
Proof. apply main_dies. Qed.

End script.

(** The network fails at the register: the process dies of that error
    after the init and its wait, the identity minted and not registered,
    the spinner of the register still running. *)
Example register_rejected :
  let x := execute (H := failing register_rejects) (main 2 initial_globals) happy in
  ending x = Uncaught (OracleRegister {| reg_initRNGTx := "T2"; reg_oracleDIDUnit := "U1" |})
               (Error (Some "fetch failed")) /\
  last (events x) = Some (EvOraStart registeringOracle) /\
  mrun spinners None (events x) = Some (Some registeringOracle).
Proof. vm_compute. repeat split. Qed.
