(* ===== verification/Stages.v ===== *)
(** * Stages: what each stage does, branch by branch

    For every stage of the script a postcondition says, for each way the
    stage can end, which events it left in which order, what it threw,
    and what it made of the module level variables.  Each postcondition
    is proved as a weakest precondition, so it holds of every run
    against every world.  A run that ends waiting for a reply is the
    beginning of a run of the stage that returns or throws, in which the
    request it waits for comes next ([settles]).  The postconditions of
    the bootstrap, the loop and the script are those of their stages in
    sequence ([then_post]). *)

From stdpp Require Import gmap.
From S2P Require Import Prelude JsBuiltins Prog Monitor.
From S2P Require Import Interface Fake Config Bootstrap ActionLoop.

#[local] Open Scope prog_scope.

(** ** The shapes of traces *)

(** A confirmation wait under a spinner. *)
Definition waiting (text : string) : list Ev :=
  [EvOraStart text; EvTimeout CONFIRMATION_WAIT; EvOraStop text].

(** The mint stage up to the reply of the mint. *)
Definition mint_submitted (a : gmap string string) (r : Response MintData) : list Ev :=
  [ EvLog "Creating Oracle DID for you"; EvPrompt oracleNameQuestions a;
    EvOraStart mintingOracle; EvMint (a !! "oracleDIDName") r ].

(** An init that returned data, with its wait. *)
Definition init_confirmed (i : TxData) (err : option string) : list Ev :=
  EvInit (mkResponse (Some i) err) :: waiting (mintingRNG (txHash i)).

(** The register stage up to the reply of the register. *)
Definition register_submitted (i : TxData) (b : OracleDID.t) (r : Response TxData) : list Ev :=
  [ EvOraStart registeringOracle;
    EvRegister {| reg_initRNGTx := txHash i;
                  reg_oracleDIDUnit := OracleDID.unit b |} r ].

(** The generate action up to its init. *)
Definition generate_asked (a : gmap string string) : list Ev :=
  [ EvPrompt rngOutputLenQuestions a;
    EvUpdateConfig "rngOutputLen" (parseInt (ToString (a !! "rngOutputLen"))) ].

(** The update of a generate action up to the reply of the update. *)
Definition update_submitted (g : Globals) (i : TxData) (b : OracleDID.t)
    (r : Response TxData) : list Ev :=
  [ EvOraStart updatingOracle;
    EvUpdate {| upd_initRNGTx := txHash i;
                upd_oracleDIDUnit := OracleDID.unit b;
                currUpdatedOracleDIDTx := CURR_ORACLE_UPDATED_TX g |} r ].

(** The end of a register or update stage: the wait, then the spinner
    that was started before the request is stopped. *)
Definition settled (text : string) : list Ev :=
  [EvTimeout CONFIRMATION_WAIT; EvOraStop text].

(** ** The postconditions *)

Definition mintOracle_post (g : Globals) (t : list Ev)
    (o : Outcome (MintData * Globals)) : Prop :=
  match o with
  | Done (d, g') =>
      exists a err,
        t = mint_submitted a (mkResponse (Some d) err) ++
            EvOraStop mintingOracle ::
            waiting (onChainingMintingOracle (mint_txHash d)) /\
        truthy (mint_txHash d) = true /\
        g' = {| BASE_ORACLEDID :=
                  Some {| OracleDID.unit := oracleDIDUnit d;
                          OracleDID.registered := false |};
                CURR_ORACLE_UPDATED_TX := CURR_ORACLE_UPDATED_TX g |}
  | Thrown e =>
      exists a r,
        t = mint_submitted a r /\ has_tx mint_txHash r = false /\
        e = Error (JSON_stringify (error r))
  | Pending _ => True
  end.

Definition initRNG_post (g : Globals) (t : list Ev)
    (o : Outcome (TxData * Globals)) : Prop :=
  match o with
  | Done (i, g') => exists err, t = init_confirmed i err /\ g' = g
  | Thrown e =>
      exists r, t = [EvInit r] /\ has_data r = false /\ e = Error (error r)
  | Pending _ => True
  end.

Definition registerOracle_post (i : TxData) (g : Globals) (t : list Ev)
    (o : Outcome (unit * Globals)) : Prop :=
  match o with
  | Done (_, g') =>
      exists b reg err,
        BASE_ORACLEDID g = Some b /\
        t = register_submitted i b (mkResponse (Some reg) err) ++
            settled registeringOracle /\
        truthy (txHash reg) = true /\
        g' = {| BASE_ORACLEDID :=
                  Some {| OracleDID.unit := OracleDID.unit b;
                          OracleDID.registered := true |};
                CURR_ORACLE_UPDATED_TX := Some (txHash reg) |}
  | Thrown e =>
      (BASE_ORACLEDID g = None /\ t = [EvOraStart registeringOracle] /\
       e = TypeError "null" "unit") \/
      exists b r,
        BASE_ORACLEDID g = Some b /\ t = register_submitted i b r /\
        has_tx txHash r = false /\ e = Error (error r)
  | Pending _ => True
  end.

Definition generate_post (g : Globals) (t : list Ev)
    (o : Outcome (unit * Globals)) : Prop :=
  match o with
  | Done (_, g') =>
      exists a i ei b upd eu,
        BASE_ORACLEDID g = Some b /\
        t = generate_asked a ++ init_confirmed i ei ++
            update_submitted g i b (mkResponse (Some upd) eu) ++
            settled updatingOracle /\
        truthy (txHash upd) = true /\
        g' = {| BASE_ORACLEDID := BASE_ORACLEDID g;
                CURR_ORACLE_UPDATED_TX := Some (txHash upd) |}
  | Thrown e =>
      exists a,
        (exists r, t = generate_asked a ++ [EvInit r] /\ has_data r = false /\
                   e = Error (error r)) \/
        (exists i ei, BASE_ORACLEDID g = None /\
           t = generate_asked a ++ init_confirmed i ei ++ [EvOraStart updatingOracle] /\
           e = TypeError "null" "unit") \/
        (exists i ei b r, BASE_ORACLEDID g = Some b /\
           t = generate_asked a ++ init_confirmed i ei ++ update_submitted g i b r /\
           has_tx txHash r = false /\ e = Error (error r))
  | Pending _ => True
  end.

Definition query_post (g : Globals) (t : list Ev)
    (o : Outcome (unit * Globals)) : Prop :=
  match o with
  | Done (_, g') =>
      exists r,
        t = [EvQuery (CURR_ORACLE_UPDATED_TX g) r; EvLog (queryLine r)] /\ g' = g
  | Thrown _ => False
  | Pending _ => True
  end.

Definition startup_post (g : Globals) (t : list Ev)
    (o : Outcome (RNGConfig * Globals)) : Prop :=
  match o with
  | Done (c, g') =>
      exists a,
        t = [EvPrompt baseParamsQuestions a; EvNewRNG c] /\
        config_of a = Some c /\ g' = g
  | Thrown e =>
      exists a,
        t = [EvPrompt baseParamsQuestions a] /\ config_of a = None /\
        e = TypeError "undefined" "trim"
  | Pending _ => True
  end.

(** The first init: its status line, then the init stage. *)
Definition firstInit_post (g : Globals) (t : list Ev)
    (o : Outcome (TxData * Globals)) : Prop :=
  match o with
  | Pending _ => True
  | _ =>
      exists t',
        t = EvLog "To register the Oracle DID, We need initial RNG transaction to pass the data with it" :: t' /\
        initRNG_post g t' o
  end.

(** The stages of the bootstrap in sequence: each starts in the
    variables the one before left and, for the register, with the data
    of the init; the first that does not return ends the bootstrap. *)
Definition bootstrap_stages (g : Globals) :
    list Ev -> Outcome (unit * Globals) -> Prop :=
  then_post (startup_post g) (fun c =>
  then_post (mintOracle_post c.2) (fun d =>
  then_post (firstInit_post d.2) (fun i =>
  registerOracle_post i.1 i.2))).

(** The bootstrap that succeeds: the four stages in order, the register
    carrying the hash of the init and the unit of the mint, and the
    variables set from the replies of the mint and the register.  The
    bootstrap that throws: the stages in sequence up to the one that
    threw. *)
Definition bootstrap_post (g : Globals) (t : list Ev)
    (o : Outcome (unit * Globals)) : Prop :=
  match o with
  | Done (_, g') =>
      exists a c n d em i ei reg er,
        t = [EvPrompt baseParamsQuestions a; EvNewRNG c] ++
            (mint_submitted n (mkResponse (Some d) em) ++
             EvOraStop mintingOracle ::
             waiting (onChainingMintingOracle (mint_txHash d))) ++
            EvLog "To register the Oracle DID, We need initial RNG transaction to pass the data with it" ::
            init_confirmed i ei ++
            register_submitted i
              {| OracleDID.unit := oracleDIDUnit d; OracleDID.registered := false |}
              (mkResponse (Some reg) er) ++
            settled registeringOracle /\
        config_of a = Some c /\
        truthy (mint_txHash d) = true /\ truthy (txHash reg) = true /\
        g' = {| BASE_ORACLEDID :=
                  Some {| OracleDID.unit := oracleDIDUnit d;
                          OracleDID.registered := true |};
                CURR_ORACLE_UPDATED_TX := Some (txHash reg) |}
  | Thrown e => bootstrap_stages g t (Thrown e)
  | Pending _ => True
  end.

(** One iteration: the prompt, then the action the answer selects, if
    any. *)
Definition iteration_post (g : Globals) (t : list Ev)
    (o : Outcome (unit * Globals)) : Prop :=
  match o with
  | Pending _ => True
  | _ =>
      exists a t',
        t = EvPrompt actionQuestions a :: t' /\
        let choice := parseInt (ToString (a !! "actionType")) in
        if guard choice 1 g then generate_post g t' o
        else if guard choice 2 g then query_post g t' o
        else t' = [] /\ o = Done (tt, g)
  end.

(** [n] iterations in sequence, each from the variables the one before
    left. *)
Fixpoint loop_post (n : nat) (g : Globals) :
    list Ev -> Outcome (unit * Globals) -> Prop :=
  match n with
  | O => fun t o => t = [] /\ o = Done (tt, g)
  | S n' => then_post (iteration_post g) (fun x => loop_post n' x.2)
  end.

(** The script: the bootstrap, then the iterations. *)
Definition main_post (n : nat) (g : Globals) :
    list Ev -> Outcome (unit * Globals) -> Prop :=
  then_post (bootstrap_post g) (fun x => loop_post n x.2).

(** ** Automation *)

(** Close the goal of one branch of a stage: the facts gathered on the
    way give the witnesses. *)
Ltac stage_close :=
  lazymatch goal with
  | |- _ \/ _ => first [left; solve [stage_close] | right; solve [stage_close]]
  | |- exists _, _ => eexists; stage_close
  | |- _ /\ _ => split; stage_close
  | |- _ => first [eassumption | reflexivity | done | congruence]
  end.

Ltac stage_done :=
  simplify_eq/=; unfold has_tx, has_data; cbn;
  repeat match goal with H : truthy _ = _ |- _ => rewrite H end;
  solve [stage_close].

(** * Properties *)

Section stages.
Implicit Types g : Globals.

Lemma has_tx_some {D} (hash : D -> string) d err :
  has_tx hash (mkResponse (Some d) err) = truthy (hash d).
Proof. reflexivity. Qed.

(** The two guards of an iteration exclude each other. *)
Lemma guard_exclusive choice g g' :
  guard choice 1 g = true -> guard choice 2 g' = false.
Proof.
  unfold guard. destruct choice as [|z]; [done|]. cbn.
  intros [->%bool_decide_eq_true _]%andb_true_iff. done.
Qed.

Lemma mintOracle_wp g : wp (mintOracle g) (mintOracle_post g).
Proof.
  unfold mintOracle, mintOracle_post, mint_submitted. script_wp; stage_done.
Qed.

Lemma initRNG_wp g : wp (initRNG g) (initRNG_post g).
Proof. unfold initRNG, initRNG_post. script_wp; stage_done. Qed.

Lemma registerOracle_wp i g : wp (registerOracle i g) (registerOracle_post i g).
Proof.
  unfold registerOracle, registerOracle_post, register_submitted.
  script_wp; stage_done.
Qed.

Lemma generate_wp g : wp (generate g) (generate_post g).
Proof.
  unfold generate, initRNG, generate_post, generate_asked, update_submitted.
  script_wp; stage_done.
Qed.

Lemma query_wp g : wp (query g) (query_post g).
Proof. unfold query, query_post. script_wp; stage_done. Qed.

Lemma startup_wp g : wp (startup g) (startup_post g).
Proof.
  unfold startup, newInstance, startup_post. cbn. split; [done|]. intros a.
  unfold mbind. rewrite instanceConfig_config_of.
  destruct (config_of a) as [c|] eqn:Hc; script_wp; stage_done.
Qed.

Lemma firstInit_wp g : wp (firstInit g) (firstInit_post g).
Proof.
  unfold firstInit, firstInit_post, log, mbind, call. cbn [bind wp fst snd].
  split; [done|].
  intros []. eapply wp_mono; [|apply initRNG_wp]. intros t [x|e|c] H; cbn; eauto.
Qed.

Lemma bootstrap_stages_wp g : wp (bootstrap g) (bootstrap_stages g).
Proof.
  unfold bootstrap, bootstrap_stages, mbind.
  apply wp_then; [apply startup_wp|]. intros c.
  apply wp_then; [apply mintOracle_wp|]. intros d.
  apply wp_then; [apply firstInit_wp|]. intros i. apply registerOracle_wp.
Qed.

Lemma bootstrap_done_wp g :
  wp (bootstrap g) (fun t o =>
    match o with Done _ => bootstrap_post g t o | _ => True end).
Proof.
  unfold bootstrap.
  eapply wp_mbind_intro; [apply startup_wp|].
  intros ? [[c g1]|e|c'] H; [|done..]. destruct H as (a & -> & Hc & ->). cbn [bind_post fst snd].
  eapply wp_mbind_intro; [apply mintOracle_wp|].
  intros ? [[d g2]|e|c'] H; [|done..]. destruct H as (n & em & -> & Hd & ->). cbn [bind_post fst snd].
  eapply wp_mbind_intro; [apply firstInit_wp|].
  intros ? [[i g3]|e|c'] H; [|done..]. destruct H as (? & -> & ei & -> & ->). cbn [bind_post fst snd].
  eapply wp_mono; [|apply registerOracle_wp].
  intros ? [[[] g4]|e|c'] H; [|done..].
  destruct H as (b & reg & er & [= <-] & -> & Hreg & ->).
  exists a, c, n, d, em, i, ei, reg, er. by rewrite <- !app_assoc.
Qed.

Lemma bootstrap_wp g : wp (bootstrap g) (bootstrap_post g).
Proof.
  eapply wp_mono; [|exact (wp_conj _ _ _ (bootstrap_done_wp g) (bootstrap_stages_wp g))].
  by intros t [x|e|c] [H1 H2].
Qed.

Lemma iteration_wp g : wp (iteration g) (iteration_post g).
Proof.
  unfold iteration. cbn. split; [done|]. intros a.
  unfold when, mbind, get. cbn.
  destruct (guard _ 1 g) eqn:G1.
  - eapply wp_bind_intro; [apply generate_wp|].
    intros t [[[] g1]|e|c] H; cbn; [|exists a, t; by rewrite G1|done].
    rewrite (guard_exclusive _ g g1 G1). cbn.
    exists a, t. by rewrite app_nil_r, G1.
  - cbn. destruct (guard _ 2 g) eqn:G2.
    + eapply wp_mono; [|apply query_wp].
      intros t [[[] g1]|e|c] H; cbn; [| |done]; exists a, t; by rewrite G1, G2.
    + cbn. exists a, []. by rewrite G1, G2.
Qed.

Lemma loop_wp n g : wp (loop n g) (loop_post n g).
Proof.
  revert g; induction n as [|n IH]; intros g; [done|].
  unfold loop. rewrite iterate_succ. apply wp_then; [apply iteration_wp|].
  intros x. apply IH.
Qed.

Lemma main_wp n g : wp (main n g) (main_post n g).
Proof.
  unfold main, main_post, mbind. apply wp_then; [apply bootstrap_wp|].
  intros x. apply loop_wp.
Qed.

(** No action of the loop assigns [BASE_ORACLEDID]. *)
Lemma iteration_keeps_base g :
  returns (iteration g) (fun x => BASE_ORACLEDID (snd x) = BASE_ORACLEDID g).
Proof.
  unfold returns, iteration, when, generate, query, initRNG.
  script_go; eauto.
Qed.

Lemma loop_keeps_base n g :
  returns (loop n g) (fun x => BASE_ORACLEDID (snd x) = BASE_ORACLEDID g).
Proof.
  apply (loop_mwp top (fun g' _ => BASE_ORACLEDID g' = BASE_ORACLEDID g)); [|done].
  intros g1 [] H1. eapply mwp_mono; [|apply iteration_keeps_base].
  cbn. intros x _ ->. done.
Qed.

End stages.

(** ** Every run of a stage *)

Section runs.
Context {W : Type} `{HW : !World W}.
Implicit Types (g : Globals) (w : W).

(** C30: the bootstrap that returns has run the four stages in order
    (configuration, mint, init, register), each with its confirmation
    wait; the register carried the hash of the init and the unit of the
    mint; and it leaves the DID registered under that unit with the hash
    of the register as head.  The bootstrap that throws ran the stages
    in order up to the one that threw, as the postcondition of that
    stage says.  A run left waiting is the beginning of a run that
    returns or throws, the request it waits for coming next. *)
Theorem bootstrap_run g w :
  settles (bootstrap_post g) (trace (run (bootstrap g) w)) (outcome (run (bootstrap g) w)).
Proof. apply wp_sound, wp_settles, bootstrap_wp. Qed.

(** C31: a generate action that returns has asked for the length,
    reconfigured the instance, initiated a request, waited, updated the
    oracle with that request, the unit and the head it found, waited, and
    made the hash of the update the new head, leaving the DID as it was.
    One that throws threw the error of its init or update right after
    the reply.  A run left
    waiting is the beginning of a run that returns or throws, the
    request it waits for coming next. *)
Theorem generate_run g w :
  settles (generate_post g) (trace (run (generate g) w)) (outcome (run (generate g) w)).
Proof. apply wp_sound, wp_settles, generate_wp. Qed.

(** C32: an iteration prompts once and then runs the one action the
    answer selects: generate for 1, query for 2, both only when the head
    is set; any other answer leaves the trace and the variables as they
    are.  A run left
    waiting is the beginning of a run that returns or throws, the
    request it waits for coming next. *)
Theorem iteration_run g w :
  settles (iteration_post g) (trace (run (iteration g) w)) (outcome (run (iteration g) w)).
Proof. apply wp_sound, wp_settles, iteration_wp. Qed.

(** C33: a query never throws and never changes the variables: it reads
    the head, and prints the number of the reply, or [undefined] when
    the reply has no data.  A run left
    waiting is the beginning of a run that returns or throws, the
    request it waits for coming next. *)
Theorem query_run g w :
  settles (query_post g) (trace (run (query g) w)) (outcome (run (query g) w)).
Proof. apply wp_sound, wp_settles, query_wp. Qed.

(** The mint stage that returns has stopped its first spinner,
    waited under the second and set the DID to the minted unit, not
    registered; the one that throws threw the JSON text of the error of
    a reply without a transaction hash, its spinner still running.  A run left
    waiting is the beginning of a run that returns or throws, the
    request it waits for coming next. *)
Lemma mintOracle_run g w :
  settles (mintOracle_post g) (trace (run (mintOracle g) w)) (outcome (run (mintOracle g) w)).
Proof. apply wp_sound, wp_settles, mintOracle_wp. Qed.

(** The register stage that returns has registered the unit it read
    with the hash it was given, waited, and then set the head and the
    registered flag, keeping the unit.  A run left
    waiting is the beginning of a run that returns or throws, the
    request it waits for coming next. *)
Lemma registerOracle_run i g w :
  settles (registerOracle_post i g) (trace (run (registerOracle i g) w))
    (outcome (run (registerOracle i g) w)).
Proof. apply wp_sound, wp_settles, registerOracle_wp. Qed.

(** The init stage returns the data of the reply after the wait,
    whatever its transaction hash, and throws only when there is no
    data. *)
Lemma initRNG_run g w :
  settles (initRNG_post g) (trace (run (initRNG g) w)) (outcome (run (initRNG g) w)).
Proof. apply wp_sound, wp_settles, initRNG_wp. Qed.

(** C29: the script, whole: every run of the script cut after [n]
    iterations is a run of the bootstrap as [bootstrap_post] describes
    it followed by [n] iterations as [iteration_post] describes them,
    each from the variables the one before left, or such a sequence cut
    short by the stage that threw; and a run left waiting is the
    beginning of one of these. *)
Theorem main_run n g w :
  settles (main_post n g) (trace (run (main n g) w)) (outcome (run (main n g) w)).
Proof. apply wp_sound, wp_settles, main_wp. Qed.

(** C34: the iterations of the loop leave the DID as the bootstrap made it:
    its unit stays the minted one and its registered flag never goes
    back, whatever the [n] iterations did, each as its postcondition
    says and from the variables the one before left. *)
Theorem loop_keeps_identity n g w g' :
  outcome (run (loop n g) w) = Done (tt, g') ->
  BASE_ORACLEDID g' = BASE_ORACLEDID g /\
  loop_post n g (trace (run (loop n g) w)) (Done (tt, g')).
Proof.
  intros Ho. split; [exact (returns_run _ _ w _ (loop_keeps_base n g) Ho)|].
  rewrite <- Ho. apply wp_sound, loop_wp.
Qed.

End runs.

Lemma loop_keeps_identity_witness :
  BASE_ORACLEDID
    {| BASE_ORACLEDID := BASE_ORACLEDID bootstrapped;
       CURR_ORACLE_UPDATED_TX := Some "T5" |} =
  BASE_ORACLEDID bootstrapped /\
  loop_post 2 bootstrapped (trace (run (loop 2 bootstrapped) happy_loop))
    (Done (tt, {| BASE_ORACLEDID := BASE_ORACLEDID bootstrapped;
                  CURR_ORACLE_UPDATED_TX := Some "T5" |})).
Proof.
  apply (loop_keeps_identity 2 bootstrapped happy_loop). vm_compute; reflexivity.
Defined.
