(* ===== verification/Wellformed.v ===== *)
(** * Wellformed: the invariant of the module level variables

    The two variables are typed [{unit, registered} | null] and
    [string | null]; the script keeps more than the types say.  The head
    [CURR_ORACLE_UPDATED_TX], once set, is a non-empty string, and a DID
    marked registered has a head.  [wf_globals] is that invariant; every
    stage, from any well-formed state, returns a well-formed state, so
    the test [&& CURR_ORACLE_UPDATED_TX] of the loop is a test against
    [null] and nothing else. *)

From stdpp Require Import gmap.
From S2P Require Import Prelude JsBuiltins Prog Monitor.
From S2P Require Import Interface Fake Config Bootstrap ActionLoop.

#[local] Open Scope prog_scope.

(** The [registered] flag, [false] while the DID is [null]. *)
Definition registered_flag (g : Globals) : bool :=
  match BASE_ORACLEDID g with
  | Some d => OracleDID.registered d
  | None => false
  end.

(** A head is a non-empty string; without a head the DID is not
    registered. *)
Definition wf_globals (g : Globals) : bool :=
  match CURR_ORACLE_UPDATED_TX g with
  | Some h => truthy h
  | None => negb (registered_flag g)
  end.

(** The stage [m] returns well-formed variables from well-formed ones. *)
Definition keeps_wf {A : Type} (m : Script A) : Prop :=
  forall g, wf_globals g = true ->
    returns (m g) (fun x => wf_globals (snd x) = true).

(** * Properties *)

Section keeps.
Implicit Types g : Globals.

(** Split the variables and the invariant into the cases of the head. *)
Ltac wf_cases g H :=
  destruct g as [[[u []]|] [h|]]; cbn in H; try discriminate H.

Ltac keeps_go :=
  let g := fresh "g" in let H := fresh "H" in
  intros g H; unfold returns; wf_cases g H; script_go; eauto.

Lemma startup_keeps_wf : keeps_wf startup.
Proof. unfold startup, newInstance, instanceConfig. keeps_go. Qed.

Lemma mintOracle_keeps_wf : keeps_wf mintOracle.
Proof. unfold mintOracle. keeps_go. Qed.

Lemma initRNG_keeps_wf : keeps_wf initRNG.
Proof. unfold initRNG. keeps_go. Qed.

Lemma firstInit_keeps_wf : keeps_wf firstInit.
Proof. unfold firstInit, initRNG. keeps_go. Qed.

Lemma registerOracle_keeps_wf d : keeps_wf (registerOracle d).
Proof. unfold registerOracle. keeps_go. Qed.

Lemma generate_keeps_wf : keeps_wf generate.
Proof. unfold generate, initRNG. keeps_go. Qed.

Lemma query_keeps_wf : keeps_wf query.
Proof. unfold query. keeps_go. Qed.

Lemma iteration_keeps_wf : keeps_wf iteration.
Proof. unfold iteration, when, generate, query, initRNG. keeps_go. Qed.

(** Sequencing keeps what its parts keep. *)
Lemma mbind_keeps_wf {A B} (m : Script A) (f : A -> Script B) :
  keeps_wf m -> (forall a, keeps_wf (f a)) -> keeps_wf (mbind m f).
Proof.
  intros Hm Hf g Hg. apply mwp_mbind.
  eapply mwp_mono; [|by apply Hm]. intros x [] Hx. by apply Hf.
Qed.

Lemma bootstrap_keeps_wf : keeps_wf bootstrap.
Proof.
  unfold bootstrap.
  apply mbind_keeps_wf; [apply startup_keeps_wf | intros _].
  apply mbind_keeps_wf; [apply mintOracle_keeps_wf | intros _].
  apply mbind_keeps_wf; [apply firstInit_keeps_wf | intros d].
  apply registerOracle_keeps_wf.
Qed.

Lemma loop_keeps_wf n : keeps_wf (loop n).
Proof.
  intros g Hg. apply (loop_mwp top (fun g' _ => wf_globals g' = true)); [|done].
  intros g1 [] H1. by apply iteration_keeps_wf.
Qed.

Lemma main_keeps_wf n : keeps_wf (main n).
Proof.
  unfold main. apply mbind_keeps_wf; [apply bootstrap_keeps_wf | intros _; apply loop_keeps_wf].
Qed.

(** On well-formed variables the guard of an action tests the choice
    and whether the head is set. *)
Lemma guard_wf choice n g :
  wf_globals g = true ->
  guard choice n g = strict_eq choice n && bool_decide (is_Some (CURR_ORACLE_UPDATED_TX g)).
Proof.
  unfold wf_globals, guard. destruct (CURR_ORACLE_UPDATED_TX g) as [h|]; [|done].
  intros Hh. change (truthy (Some h)) with (truthy h). rewrite Hh.
  by rewrite bool_decide_eq_true_2.
Qed.

End keeps.

(** C17: the variables are well formed at the start, and every stage of
    the script, the iterations and the script itself return well-formed
    variables from well-formed ones: a head that is set is a non-empty
    string, and a DID marked registered has a head. *)
Theorem wf_globals_preserved :
  wf_globals initial_globals = true /\
  keeps_wf startup /\ keeps_wf mintOracle /\ keeps_wf initRNG /\
  (forall d, keeps_wf (registerOracle d)) /\
  keeps_wf generate /\ keeps_wf query /\ keeps_wf iteration /\
  (forall n, keeps_wf (loop n)) /\ (forall n, keeps_wf (main n)).
Proof.
  repeat apply conj;
    auto using startup_keeps_wf, mintOracle_keeps_wf, initRNG_keeps_wf,
      registerOracle_keeps_wf, generate_keeps_wf, query_keeps_wf,
      iteration_keeps_wf, loop_keeps_wf, main_keeps_wf.
Qed.
