(* ===== verification/Unrolling.v ===== *)
(** * Unrolling: the loop cut after n iterations

    [while (true)] has no exit: the script is modelled by [main n], the
    bootstrap followed by [n] iterations.  This file shows that the cut
    is harmless.  A run of [main n] that did not return (it threw, or it
    waits for a reply) is the run of every longer unrolling, so it is
    the run of the script; a run that returned is a prefix of the runs
    of the longer unrollings, and it has consumed exactly [n] answers to
    the action prompt.  Hence against a world that answers finitely many
    prompts the behaviour of the script is the run of [main n] for any
    [n] above that number. *)

From stdpp Require Import gmap.
From S2P Require Import Prelude JsBuiltins Prog Monitor.
From S2P Require Import Interface Fake Config Bootstrap ActionLoop.

#[local] Open Scope prog_scope.

(** The answers to the action prompt of the loop. *)
Definition is_action_prompt (e : Ev) : bool :=
  match e with
  | EvPrompt qs _ => bool_decide (qs = actionQuestions)
  | _ => false
  end.

Definition action_prompts (t : list Ev) : nat :=
  length (List.filter is_action_prompt t).

(** The monitor that counts them, and lets a run end only while the
    count is at most [n]. *)
Definition budget (n : nat) : Monitor := {|
  mstate := nat;
  mstep := fun s e => Some (if is_action_prompt e then S s else s);
  mallow := fun s _ => bool_decide (s <= n);
  mthrows := fun s _ => bool_decide (s <= n)
|}.

(** * Properties *)

Section unrolling.
Implicit Types (n m k : nat) (g : Globals).

(** A longer unrolling is the shorter one followed by more iterations. *)
Lemma main_add n m g :
  main (n + m) g ≡ bind (main n g) (fun x => loop m (snd x)).
Proof.
  unfold main, loop, mbind. etransitivity; [|symmetry; apply bind_assoc].
  apply bind_equiv; [reflexivity|]. intros x. apply iterate_add.
Qed.

Lemma budget_mrun n s t : mrun (budget n) s t = Some (action_prompts t + s).
Proof.
  revert s; induction t as [|e t IH]; intros s; [done|]. cbn [mrun].
  cbn [mstep budget]. rewrite IH. unfold action_prompts. cbn [List.filter].
  destruct (is_action_prompt e); cbn [length]; f_equal; lia.
Qed.

Lemma bootstrap_budget n g s :
  s <= n -> mwp (budget n) (bootstrap g) s (fun _ s' => s' = s).
Proof.
  intros Hs.
  unfold bootstrap, startup, newInstance, instanceConfig, mintOracle,
    firstInit, initRNG, registerOracle.
  script_go; eauto.
Qed.

Lemma iteration_budget n g s :
  s < n -> mwp (budget n) (iteration g) s (fun _ s' => s' = S s).
Proof.
  intros Hs. unfold iteration, when, generate, query, initRNG.
  script_go; eauto.
Qed.

Lemma loop_budget n k g s :
  k + s <= n -> mwp (budget n) (loop k g) s (fun _ s' => s' = k + s).
Proof.
  revert g s; induction k as [|k IH]; intros g s Hs; [by apply mwp_ret|].
  unfold loop. rewrite iterate_succ. apply mwp_bind.
  eapply mwp_mono; [|apply iteration_budget; lia]. intros x s' ->.
  eapply mwp_mono; [|apply IH; lia]. intros y s'' ->. lia.
Qed.

Lemma main_budget n g :
  mwp (budget n) (main n g) 0 (fun _ s' => s' = n).
Proof.
  unfold main. apply mwp_mbind.
  eapply mwp_mono; [|apply bootstrap_budget; lia]. intros x s ->.
  eapply mwp_mono; [|apply loop_budget; lia]. intros y s' ->. lia.
Qed.

End unrolling.

Lemma action_prompts_length (t : list Ev) : action_prompts t <= length t.
Proof.
  unfold action_prompts. induction t as [|e t IH]; [done|]. cbn.
  destruct (is_action_prompt e); cbn; lia.
Qed.


Section runs.
Context {W : Type} `{HW : !World W}.
Implicit Types (n m : nat) (g : Globals) (w : W).

(** A run that did not return is the run of every longer unrolling. *)
Lemma main_stuck_stable n m g w :
  (forall x, outcome (run (main n g) w) <> Done x) ->
  run (main (n + m) g) w = run (main n g) w.
Proof.
  intros H. rewrite (run_equiv _ _ w (main_add n m g)). by apply run_bind_stuck.
Qed.

(** Unrolling further only extends the trace. *)
Lemma main_trace_prefix n m g w :
  trace (run (main n g) w) `prefix_of` trace (run (main (n + m) g) w).
Proof. rewrite (run_equiv _ _ w (main_add n m g)). apply run_bind_prefix. Qed.

(** The action prompts of a run of [main n]. *)
Lemma main_prompts n g w :
  action_prompts (trace (run (main n g) w)) <= n /\
  forall x, outcome (run (main n g) w) = Done x ->
    action_prompts (trace (run (main n g) w)) = n.
Proof.
  destruct (mwp_run (budget n) _ _ _ w (main_budget n g)) as (s & Hs & Hpost).
  rewrite budget_mrun in Hs. injection Hs as <-. ev_norm.
  generalize dependent (run (main n g) w). intros r.
  destruct (outcome r) as [x|e|c]; cbn.
  - intros ?. split; [lia|]. intros ? _. lia.
  - intros ?%bool_decide_eq_true. split; [lia | done].
  - intros ?%bool_decide_eq_true. split; [lia | done].
Qed.

(** A run of [main n] that returned has at least [n] events. *)
Lemma main_done_length n g w x :
  outcome (run (main n g) w) = Done x -> n <= length (trace (run (main n g) w)).
Proof.
  intros Hx. destruct (main_prompts n g w) as [_ H]. specialize (H x Hx).
  pose proof (action_prompts_length (trace (run (main n g) w))). ev_norm. lia.
Qed.


(** C24: the script with [n] iterations returns only after the operator
    has answered the action prompt [n] times, and never asks more often:
    the loop has no exit of its own. *)
Theorem main_counts_prompts n g w :
  action_prompts (trace (run (main n g) w)) <= n /\
  forall x, outcome (run (main n g) w) = Done x ->
    action_prompts (trace (run (main n g) w)) = n.
Proof. apply main_prompts. Qed.

End runs.

