(* ===== verification/Metering.v ===== *)
(** * Metering: what a run of the script costs

    Three meters read off a trace: the lines the operator typed (one per
    question asked), the transactions submitted, and the confirmation
    waits.  The bootstrap asks nine questions and submits three
    transactions; an iteration asks the action, and a generate action
    asks the length and submits two transactions more.  Every
    transaction is followed by one timer of 120 seconds and there is no
    other timer, so the time a run sleeps is 120 seconds for each
    transaction it submitted.  The bounds hold at every point of every
    run, the exact counts when the script returns. *)

From stdpp Require Import gmap.
From S2P Require Import Prelude JsBuiltins Prog Monitor.
From S2P Require Import Interface Fake Config Bootstrap ActionLoop Discipline.

#[local] Open Scope prog_scope.

(** The questions of the bootstrap (eight at start-up and the name) and
    its transactions (mint, init, register). *)
Abbreviation startup_lines := 9 (only parsing).
Abbreviation startup_txs := 3 (only parsing).

Record Meter : Type := mkMeter {
  lines : nat;     (* questions answered *)
  txs : nat;       (* transactions submitted *)
  timers : nat     (* timers fired *)
}.

(** The questions a request asks. *)
Definition asks (c : Request) : nat :=
  match c with Prompt qs => length qs | _ => 0 end.

Definition meter_step (m : Meter) (e : Ev) : Meter :=
  match e with
  | EvPrompt qs _ => mkMeter (lines m + length qs) (txs m) (timers m)
  | EvTimeout _ => mkMeter (lines m) (txs m) (S (timers m))
  | _ => if submits e then mkMeter (lines m) (S (txs m)) (timers m) else m
  end.

(** The meters of a trace. *)
Definition metered (t : list Ev) : Meter := fold_left meter_step t (mkMeter 0 0 0).

(** The time slept, in milliseconds. *)
Definition slept (t : list Ev) : Z :=
  foldr (fun e z => match e with EvTimeout ms => (Z.max 0 ms + z)%Z | _ => z end) 0%Z t.

(** The budget of the script cut after [n] iterations: room for the
    questions about to be asked, no more transactions than two for each
    iteration after the bootstrap's, and no more timers than
    transactions. *)
Abbreviation within n m extra :=
  (bool_decide (lines m + extra <= startup_lines + 2 * n) &&
   bool_decide (txs m <= startup_txs + 2 * n) &&
   bool_decide (timers m <= txs m)) (only parsing).

(** The monitor that meters a run, stops at a timer that is not a
    confirmation wait, and lets a run end only within budget. *)
Definition meter (n : nat) : Monitor := {|
  mstate := Meter;
  mstep := fun m e =>
    match e with
    | EvTimeout ms =>
        if bool_decide (ms = CONFIRMATION_WAIT) then Some (meter_step m e) else None
    | _ => Some (meter_step m e)
    end;
  mallow := fun m c => within n m (asks c);
  mthrows := fun m _ => within n m 0
|}.

(** The meters between two iterations, [k] of [n] being left: every
    transaction has had its wait, and lines and transactions are those
    of the bootstrap, of the iterations done and of the generate actions
    among them. *)
Definition on_budget (n k : nat) (m : Meter) : Prop :=
  timers m = txs m /\
  txs m + 2 * (startup_lines + n) = startup_txs + 2 * (lines m + k) /\
  startup_lines + n <= lines m + k /\
  lines m + 2 * k <= startup_lines + 2 * n.

(** * Properties *)

Section metering.
Implicit Types (n k : nat) (g : Globals) (m : Meter).

Lemma bootstrap_meter n g :
  mwp (meter n) (bootstrap g) (mkMeter 0 0 0) (fun _ m => m = mkMeter 9 3 3).
Proof.
  unfold bootstrap, startup, newInstance, instanceConfig, mintOracle,
    firstInit, initRNG, registerOracle.
  script_go; eauto.
Qed.

Lemma iteration_meter n k g m :
  on_budget n (S k) m ->
  mwp (meter n) (iteration g) m (fun _ m' => on_budget n k m').
Proof.
  intros (H1 & H2 & H3 & H4). destruct m as [l t w]; cbn [lines txs timers] in *.
  unfold iteration, when, generate, query, initRNG.
  script_go; unfold on_budget; cbn [lines txs timers]; lia.
Qed.

Lemma main_meter n g :
  mwp (meter n) (main n g) (mkMeter 0 0 0) (fun _ m => on_budget n 0 m).
Proof.
  unfold main. apply mwp_mbind.
  eapply mwp_mono; [|apply bootstrap_meter]. intros x m ->.
  apply (mwp_iterate_ranked (meter n) (fun k _ m => on_budget n k m)).
  - intros k g1 m. apply iteration_meter.
  - unfold on_budget. cbn. lia.
Qed.

Lemma slept_cons e t :
  slept (e :: t) =
  (match e with EvTimeout ms => Z.max 0 ms | _ => 0 end + slept t)%Z.
Proof. by destruct e. Qed.

(** The monitor computes the meters, and the timers it accepts are
    confirmation waits. *)
Lemma meter_mrun n m t m' :
  mrun (meter n) m t = Some m' ->
  m' = fold_left meter_step t m /\
  slept t = (CONFIRMATION_WAIT * (Z.of_nat (timers m') - Z.of_nat (timers m)))%Z.
Proof.
  revert m; induction t as [|e t IH]; intros m; cbn [mrun fold_left].
  - intros [= <-]. split; [done|]. cbn. lia.
  - rewrite slept_cons.
    destruct e; cbn [mstep meter]; try case_bool_decide; try done;
      intros [-> Hs]%IH; rewrite Hs; (split; [done|]); subst; cbn;
      unfold CONFIRMATION_WAIT; lia.
Qed.

Lemma main_metered_run n g {W : Type} `{HW : !World W} (w : W) :
  let r := run (main n g) w in
  let m := metered (trace r) in
  slept (trace r) = (CONFIRMATION_WAIT * Z.of_nat (timers m))%Z /\
  mpost (meter n) (fun _ m' => on_budget n 0 m') m (outcome r).
Proof.
  destruct (mwp_run (meter n) _ _ _ w (main_meter n g)) as (m & Hrun & Hpost).
  apply meter_mrun in Hrun as [-> Hs]. split; [|exact Hpost].
  rewrite Hs. unfold metered. cbn [timers]. lia.
Qed.

(** The budget of a run, read off the meter. *)
Lemma main_costs n g {W : Type} `{HW : !World W} (w : W) :
  let r := run (main n g) w in
  let m := metered (trace r) in
  (lines m <= 9 + 2 * n /\ txs m <= 3 + 2 * n /\ timers m <= txs m /\
   slept (trace r) = (CONFIRMATION_WAIT * Z.of_nat (timers m))%Z) /\
  (forall qs, outcome r = Pending (Prompt qs) -> lines m + length qs <= 9 + 2 * n) /\
  (forall x, outcome r = Done x ->
     exists k, k <= n /\ lines m = 9 + n + k /\ txs m = 3 + 2 * k /\
       timers m = txs m).
Proof.
  intros r m. destruct (main_metered_run n g w) as [Hs Hpost].
  fold r in Hs, Hpost. fold m in Hs, Hpost.
  destruct (outcome r) as [x|e|c] eqn:Ho; cbn in Hpost.
  - destruct Hpost as (H1 & H2 & H3 & H4).
    repeat apply conj; try done; try lia.
    intros _ _. exists (lines m - 9 - n). lia.
  - apply andb_true_iff in Hpost as [[H1 H2]%andb_true_iff H3].
    apply bool_decide_eq_true in H1, H2, H3. repeat apply conj; try done; lia.
  - apply andb_true_iff in Hpost as [[H1 H2]%andb_true_iff H3].
    apply bool_decide_eq_true in H1, H2, H3. repeat apply conj; try done; try lia.
    intros qs [= ->]. cbn in H1. lia.
Qed.

End metering.

(** C20: what a run costs.  At every point of every run of the script cut
    after [n] iterations, the operator has typed at most 9 + 2n lines,
    at most 3 + 2n transactions were submitted, and the script has slept
    120 seconds for each timer, of which there are no more than
    transactions; a prompt left waiting still fits in the 9 + 2n lines.
    When the script returns, with [k] generate actions among its
    iterations, it has read exactly 9 + n + k lines, submitted exactly
    3 + 2k transactions and slept exactly 120 seconds for each. *)
Theorem main_metered n g {W : Type} `{HW : !World W} (w : W) :
  let r := run (main n g) w in
  let m := metered (trace r) in
  (lines m <= 9 + 2 * n /\ txs m <= 3 + 2 * n /\ timers m <= txs m /\
   slept (trace r) = (CONFIRMATION_WAIT * Z.of_nat (timers m))%Z) /\
  (forall qs, outcome r = Pending (Prompt qs) -> lines m + length qs <= 9 + 2 * n) /\
  (forall x, outcome r = Done x ->
     exists k, k <= n /\ lines m = 9 + n + k /\ txs m = 3 + 2 * k /\
       timers m = txs m).
Proof. apply main_costs. Qed.
