(* ===== verification/Liveness.v ===== *)
(** * Liveness: against a cooperative world the script runs for ever

    A world is cooperative when it answers every request, every prompt
    with an answer to each question asked, and every transaction with a
    reply that carries what the script requires of it.  Against such a
    world the script never throws and is never left waiting: it returns
    from any number of iterations, which is to say that its loop goes on
    for ever.  [steady] is one such world. *)

From stdpp Require Import gmap.
From S2P Require Import Prelude JsBuiltins Prog Monitor.
From S2P Require Import Interface Fake Config Bootstrap ActionLoop Discipline.

#[local] Open Scope prog_scope.

(** A reply the script goes on with: an answer to every question, or a
    reply that is not the failure of a stage. *)
Definition good (e : Ev) : bool :=
  match e with
  | EvPrompt qs a => bool_decide (answered qs a)
  | _ => match stage_error e with None => true | Some _ => false end
  end.

(** The state is [true] while every reply was good; only after a reply
    that was not may the script throw. *)
Definition cooperative : Monitor := {|
  mstate := bool;
  mstep := fun s e => Some (good e && s);
  mallow := fun _ _ => true;
  mthrows := fun s _ => negb s
|}.

(** A world that answers every request with a good reply. *)
Class Cooperative (W : Type) {HW : @World script_sig W} : Prop := {
  answers_all : forall c (w : W), is_Some (handle c w);
  answers_well : forall c (w : W) r (w' : W),
    handle c w = Some (r, w') -> good (event_of c r) = true
}.

(** ** A cooperative world *)

(** The reply of the steady world: every question is answered [1], every
    transaction succeeds with hash [T], the unit is [U] and the number
    42. *)
Definition steady_reply (c : Request) : ReplyOf c :=
  match c with
  | Prompt qs => list_to_map ((fun q => (name q, "1")) <$> qs)
  | OracleMint _ => ok {| mint_txHash := "T"; oracleDIDUnit := "U" |}
  | RngInit => ok {| txHash := "T" |}
  | OracleRegister _ => ok {| txHash := "T" |}
  | OracleUpdate _ => ok {| txHash := "T" |}
  | OracleQuery _ => ok {| rngOutput := "42" |}
  | ConsoleLog _ | OraStart _ | OraStop _ | SetTimeout _ | NewRNG _
  | UpdateConfig _ _ => tt
  end.

(** The world with one state that always gives the steady reply. *)
Inductive Steady : Type := steady.

#[export] Instance steady_world : World Steady :=
  fun c w => Some (steady_reply c, w).

(** * Properties *)

Section accepted.
Implicit Types (g : Globals) (s : bool).

Lemma cooperative_mrun s t : mrun cooperative s t = Some (forallb good t && s).
Proof.
  revert s; induction t as [|e t IH]; intros s; [done|]. cbn [mrun forallb].
  cbn [mstep cooperative]. rewrite IH. f_equal. by destruct (good e), (forallb good t), s.
Qed.

(** An answer to every start-up question gives a configuration. *)
Lemma answered_config a :
  answered baseParamsQuestions a -> is_Some (config_of a).
Proof. intros H. by apply config_of_is_Some, answered_trimmed_names. Qed.

Lemma startup_cooperative g s :
  mwp cooperative (startup g) s (fun x _ => snd x = g).
Proof.
  unfold startup. mwp_call_then. unfold newInstance. apply mwp_mbind.
  rewrite instanceConfig_config_of.
  destruct (config_of r) as [c|] eqn:Hc.
  - apply mwp_ret. cbn [fst snd]. mwp_call_then. by apply mwp_mret.
  - apply mwp_throw. cbn. rewrite bool_decide_eq_false_2; [done|].
    intros [c Hc']%answered_config. congruence.
Qed.

Lemma mintOracle_cooperative g s :
  mwp cooperative (mintOracle g) s (fun x _ => has_base (snd x)).
Proof. unfold mintOracle, has_base. script_go; eauto. Qed.

Lemma firstInit_cooperative g s :
  mwp cooperative (firstInit g) s (fun x _ => snd x = g).
Proof. unfold firstInit, initRNG. script_go; eauto. Qed.

Lemma registerOracle_cooperative i g s :
  has_base g ->
  mwp cooperative (registerOracle i g) s (fun x _ => has_base (snd x)).
Proof.
  intros [d Hd]. destruct g as [b c]; cbn in Hd; subst b.
  unfold registerOracle, has_base. script_go; eauto.
Qed.

Lemma bootstrap_cooperative g s :
  mwp cooperative (bootstrap g) s (fun x _ => has_base (snd x)).
Proof.
  unfold bootstrap. apply mwp_mbind.
  eapply mwp_mono; [|apply startup_cooperative]. intros x1 s1 _.
  apply mwp_mbind.
  eapply mwp_mono; [|apply mintOracle_cooperative]. intros x2 s2 H2.
  apply mwp_mbind.
  eapply mwp_mono; [|apply firstInit_cooperative]. intros x3 s3 ->. cbn [fst snd].
  by apply registerOracle_cooperative.
Qed.

Lemma iteration_cooperative g s :
  has_base g ->
  mwp cooperative (iteration g) s (fun x _ => has_base (snd x)).
Proof.
  intros [d Hd]. destruct g as [b c]; cbn in Hd; subst b.
  unfold iteration, when, generate, query, initRNG, has_base.
  script_go; eauto.
Qed.

Lemma main_cooperative n g :
  mwp cooperative (main n g) true (fun x _ => has_base (snd x)).
Proof.
  apply (main_mwp cooperative (fun g _ => has_base g));
    auto using bootstrap_cooperative, iteration_cooperative.
Qed.

End accepted.

(** ** The steady world is cooperative *)

Lemma steady_answered qs : answered qs (steady_reply (Prompt qs)).
Proof.
  unfold answered, asked. apply Forall_forall. intros n Hn. cbn.
  apply not_eq_None_Some. intros Hnone%not_elem_of_list_to_map_2.
  apply Hnone. by rewrite <- list_fmap_compose.
Qed.

#[export] Instance steady_cooperative : Cooperative Steady.
Proof.
  split; [by eexists|]. intros c w r w' [= <- _].
  destruct c; try reflexivity. cbn. apply bool_decide_eq_true, steady_answered.
Qed.

(** ** Runs against a cooperative world *)

Section liveness.
Context {W : Type} `{HC : Cooperative W}.
Implicit Types (n : nat) (g : Globals) (w : W).

Lemma cooperative_trace_good {A} (p : Prog A) w :
  forallb good (trace (run p w)) = true.
Proof.
  pose proof (run_trace_Forall (fun e => good e = true) p w answers_well) as H.
  induction H as [|e t He _ IH]; [done|]. cbn. by rewrite He, IH.
Qed.

(** Against a cooperative world every unrolling returns. *)
Lemma cooperative_returns n g w :
  exists g', outcome (run (main n g) w) = Done (tt, g').
Proof.
  destruct (mwp_run cooperative _ _ _ w (main_cooperative n g)) as (s & Hs & Hpost).
  rewrite cooperative_mrun, cooperative_trace_good in Hs. injection Hs as <-.
  destruct (outcome (run (main n g) w)) as [[[] g']|e|c] eqn:Ho.
  - by exists g'.
  - discriminate Hpost.
  - by destruct (run_not_pending (main n g) w c answers_all).
Qed.

(** C22: against a cooperative world the script returns from any number
    of iterations: every reply of the run is a good one, it never
    throws and never waits for ever, so its loop goes on for as long as
    the operator answers. *)
Theorem cooperative_runs_forever n g w :
  forallb good (trace (run (main n g) w)) = true /\
  exists g', outcome (run (main n g) w) = Done (tt, g').
Proof. split; [apply cooperative_trace_good|apply cooperative_returns]. Qed.

End liveness.

Lemma cooperative_runs_forever_witness :
  forallb good (trace (run (main 3 initial_globals) steady)) = true /\
  exists g', outcome (run (main 3 initial_globals) steady) = Done (tt, g').
Proof. apply (cooperative_runs_forever 3 initial_globals steady). Defined.
