(* ===== verification/Scenarios.v ===== *)
(** * Scenarios: the scenarios of the specification, evaluated

    The three scenarios of the specification (happy path, one generate
    cycle, query) are one run of the script against the world [happy]:
    the bootstrap, a generate action and a query action.  The run is
    evaluated, and what the scenarios say of it is read off the result. *)

From stdpp Require Import gmap.
From S2P Require Import Prelude JsBuiltins Prog Monitor.
From S2P Require Import Interface Fake Config Bootstrap ActionLoop.

(** The requests of a trace that reached the RNG instance, with their
    replies. *)
Definition executor_events (t : list Ev) : list Ev :=
  List.filter is_executor_event t.

(** The lines printed. *)
Definition printed (t : list Ev) : list string :=
  omap (fun e => match e with EvLog s => Some s | _ => None end) t.

(** * Properties *)

