(* ===== verification/Ledger.v ===== *)
(** * Ledger: a chain that checks what the script relies on

    The RNG instance and the chain behind it are not in the repository;
    the specification describes them by their contract (sections 3, 4.1,
    4.2 and 5): every operation returns a transaction identifier or a
    failure reason, each register or update consumes the init
    transaction before it and names the head of the identity's update
    chain, there is never more than one head, and a transaction is
    visible to the next operation only once it is confirmed.  This file
    models that contract as a world: a [Ledger] with a clock that the
    timers advance, and a [Session] that adds the operator at the
    keyboard: [inquirer] asks its questions in order, each takes the
    next line typed, and the prompt resolves to the object of the
    answers by name once every question has its line.

    The ledger rejects what the contract forbids; whoever the client
    is, the update chain of an identity only grows at its head
    ([ledger_no_branching]).  The theorems show that it never rejects
    the script: the script keeps the client's side
    of the contract ([Lifecycle], [Discipline]), the ledger honours it
    ([honours] of [Monitor]) as long as its confirmation latency is at
    most the 120 seconds the script waits, and the two meet in
    [mwp_honoured].  At the end of a run the chain the ledger holds for
    the identity is made of the register and the updates of the run,
    and its head is the one in [CURR_ORACLE_UPDATED_TX].  On a chain
    that confirms later than that, the script's second transaction is
    refused.  The clock moves only while a timer runs.  The relation
    between the monitors and the ledger asks of the ledger at the start
    only that the unit that comes next has no chain, so that it holds
    of a new ledger and of one that already holds identities
    ([Restart]). *)

From stdpp Require Import gmap.
From S2P Require Import Prelude JsBuiltins Prog Monitor Interface Fake Config.
From S2P Require Import Bootstrap ActionLoop Lifecycle Discipline Liveness.

#[local] Open Scope Z_scope.

(** ** The chain *)

(** What a chain fixes: the identifier of the n-th transaction, the unit
    of the identity it mints, the number a head publishes, and the time
    a transaction takes to be confirmed, in milliseconds.  Identifiers
    are not empty. *)
Class Chain : Type := {
  tx_id : nat -> string;
  unit_id : nat -> string;
  published : string -> string;
  latency : Z;
  tx_id_truthy : forall n, truthy (tx_id n) = true
}.

(** The state of the executor and its chain. *)
Record Ledger : Type := mkLedger {
  clock : Z;                            (* now, in milliseconds *)
  nonce : nat;                          (* transactions submitted so far *)
  submitted_at : option Z;              (* when the last one was submitted *)
  dids : gset string;                   (* units of the identities minted *)
  seeds : gset string;                  (* init transactions not yet consumed *)
  chains : gmap string (list string);   (* update chain of each registered
                                           identity, its head first *)
  outputLen : option number             (* configuration of the instance *)
}.

(** The ledger with the lines the operator types. *)
Record Session : Type := mkSession {
  ledger : Ledger;
  keyboard : list string
}.

(** [inquirer.prompt] on questions of type input: one line for each
    question, in order; the answers by the names of the questions, a
    later answer replacing an earlier one of the same name; nothing
    while lines are missing. *)
Definition inquire (qs : list Question) (lines : list string) :
    option (gmap string string * list string) :=
  if decide (length qs <= length lines)%nat
  then Some (list_to_map (reverse (zip (asked qs) (take (length qs) lines))),
             drop (length qs) lines)
  else None.

Definition fresh_ledger : Ledger :=
  {| clock := 0; nonce := 0%nat; submitted_at := None; dids := ∅; seeds := ∅;
     chains := ∅; outputLen := None |}.

Definition fresh_session (keyboard : list string) : Session :=
  {| ledger := fresh_ledger; keyboard := keyboard |}.

Section operations.
Context `{Ch : Chain}.

(** The last transaction submitted is confirmed. *)
Definition confirmed (l : Ledger) : bool :=
  match submitted_at l with
  | Some t => bool_decide (t + latency <= clock l)
  | None => true
  end.

(** Time passes. *)
Definition tick (ms : Z) (l : Ledger) : Ledger :=
  mkLedger (clock l + Z.max 0 ms) (nonce l) (submitted_at l) (dids l) (seeds l)
    (chains l) (outputLen l).

(** A transaction is submitted now and leaves the ledger with these
    identities, seeds and chains. *)
Definition submit (l : Ledger) (dids' seeds' : gset string)
    (chains' : gmap string (list string)) : Ledger :=
  mkLedger (clock l) (S (nonce l)) (Some (clock l)) dids' seeds' chains'
    (outputLen l).

(** [mintIdentity]: a new identity, once the wallet's last transaction is
    confirmed. *)
Definition mint_op (l : Ledger) : Response MintData * Ledger :=
  if confirmed l
  then (ok {| mint_txHash := tx_id (nonce l); oracleDIDUnit := unit_id (nonce l) |},
        submit l ({[unit_id (nonce l)]} ∪ dids l) (seeds l) (chains l))
  else (failed "previous transaction not confirmed", l).

(** [initializeGenerator]: a new seed. *)
Definition init_op (l : Ledger) : Response TxData * Ledger :=
  if confirmed l
  then (ok {| txHash := tx_id (nonce l) |},
        submit l (dids l) ({[tx_id (nonce l)]} ∪ seeds l) (chains l))
  else (failed "previous transaction not confirmed", l).

(** [registerIdentity]: the identity is minted and not registered, and
    the seed is confirmed and unused; the transaction starts the update
    chain of the identity and consumes the seed. *)
Definition register_op (a : RegisterArgs) (l : Ledger) : Response TxData * Ledger :=
  if confirmed l
     && bool_decide (reg_oracleDIDUnit a ∈ dids l)
     && bool_decide (chains l !! reg_oracleDIDUnit a = None)
     && bool_decide (reg_initRNGTx a ∈ seeds l)
  then (ok {| txHash := tx_id (nonce l) |},
        submit l (dids l) (seeds l ∖ {[reg_initRNGTx a]})
          (<[reg_oracleDIDUnit a := [tx_id (nonce l)]]> (chains l)))
  else (failed "register rejected", l).

(** [updateIdentity]: the previous head named by the caller is the head
    of the identity's chain, and the seed is confirmed and unused; the
    transaction becomes the head. *)
Definition update_op (a : UpdateArgs) (l : Ledger) : Response TxData * Ledger :=
  match currUpdatedOracleDIDTx a, chains l !! upd_oracleDIDUnit a with
  | Some prev, Some (h :: older) =>
      if confirmed l && bool_decide (prev = h)
         && bool_decide (upd_initRNGTx a ∈ seeds l)
      then (ok {| txHash := tx_id (nonce l) |},
            submit l (dids l) (seeds l ∖ {[upd_initRNGTx a]})
              (<[upd_oracleDIDUnit a := tx_id (nonce l) :: h :: older]> (chains l)))
      else (failed "update rejected", l)
  | _, _ => (failed "no such head", l)
  end.

(** The transaction is the head of some identity. *)
Definition is_head (h : string) (l : Ledger) : bool :=
  bool_decide (Exists (fun c => head c.2 = Some h) (map_to_list (chains l))).

(** [queryIdentity]: the number published by a confirmed head. *)
Definition query_op (tx : option string) (l : Ledger) : Response QueryData * Ledger :=
  match tx with
  | Some h =>
      if confirmed l && is_head h l
      then (ok {| rngOutput := published h |}, l)
      else (failed "not a head", l)
  | None => (failed "no transaction", l)
  end.

(** [reconfigure]. *)
Definition config_op (key : string) (value : number) (l : Ledger) : unit * Ledger :=
  (tt, if bool_decide (key = "rngOutputLen")
       then mkLedger (clock l) (nonce l) (submitted_at l) (dids l) (seeds l)
              (chains l) (Some value)
       else l).

(** An operation of the ledger, in a session. *)
Definition on_ledger {R : Type} (op : Ledger -> R * Ledger) (s : Session) :
    option (R * Session) :=
  Some ((op (ledger s)).1, mkSession (op (ledger s)).2 (keyboard s)).

(** The session answers every request but a prompt the operator has not
    typed every line of. *)
Definition session_handle (c : Request) (s : Session) : option (ReplyOf c * Session) :=
  match c as c' return option (ReplyOf c' * Session) with
  | Prompt qs =>
      match inquire qs (keyboard s) with
      | Some (a, rest) => Some (a, mkSession (ledger s) rest)
      | None => None
      end
  | SetTimeout ms => on_ledger (fun l => (tt, tick ms l)) s
  | OracleMint _ => on_ledger mint_op s
  | RngInit => on_ledger init_op s
  | OracleRegister a => on_ledger (register_op a) s
  | UpdateConfig k v => on_ledger (config_op k v) s
  | OracleUpdate a => on_ledger (update_op a) s
  | OracleQuery tx => on_ledger (query_op tx) s
  | ConsoleLog _ | OraStart _ | OraStop _ | NewRNG _ => Some (tt, s)
  end.

#[export] Instance session_world : World Session := session_handle.

(** ** The ledger and the script's side of the contract *)

(** The transaction an event makes the head of the update chain. *)
Definition new_head (e : Ev) : option string :=
  match e with
  | EvRegister _ r | EvUpdate _ r =>
      if has_tx txHash r then Some (tx_of txHash r) else None
  | _ => None
  end.

(** The heads a trace made, the newest first. *)
Definition heads_of (t : list Ev) : list string := rev (omap new_head t).

(** The monitor that records them. *)
Definition history : Monitor := {|
  mstate := list string;
  mstep := fun hist e => Some (from_option (fun h => h :: hist) hist (new_head e));
  mallow := fun _ _ => true;
  mthrows := fun _ _ => true
|}.

(** The script's side of the contract: the lifecycle and the waits, with
    the heads recorded. *)
Definition contract : Monitor := both (both lifecycle_code waits) history.

(** What the ledger holds when the machine is in a phase and the script
    has seen these heads: before the mint the unit that comes next has
    no chain, before the register no chain for the identity, after it
    the chain of the identity is the heads seen. *)
Definition phase_holds (ph : Phase) (hist : list string) (l : Ledger) : Prop :=
  match ph with
  | Unstarted => chains l !! unit_id (nonce l) = None /\ hist = []
  | Minted u => u ∈ dids l /\ chains l !! u = None /\ hist = []
  | Initialized u t =>
      u ∈ dids l /\ chains l !! u = None /\ t ∈ seeds l /\ hist = []
  | Registered u h =>
      exists older, hist = h :: older /\ chains l !! u = Some hist
  | Regenerating u h t =>
      (exists older, hist = h :: older /\ chains l !! u = Some hist) /\
      t ∈ seeds l
  | Halted => False
  end.

(** No transaction was submitted in the future. *)
Definition on_time (l : Ledger) : Prop :=
  forall t, submitted_at l = Some t -> t <= clock l.

(** The session tracks the monitors of the contract: the ledger holds
    what the phase and the history say, and its last transaction is
    confirmed when the waits monitor says so. *)
Definition tracks (s : mstate contract) (w : Session) : Prop :=
  phase_holds s.1.1 s.2 (ledger w) /\ on_time (ledger w) /\
  (s.1.2 = true -> confirmed (ledger w) = true).

(** A good reply: a stage that succeeded, a query answered with the
    number its transaction published, a prompt answered question by
    question. *)
Definition accepted (e : Ev) : Prop :=
  stage_error e = None /\
  match e with
  | EvQuery tx r => exists h, tx = Some h /\ r = ok {| rngOutput := published h |}
  | EvPrompt qs a => answered qs a
  | _ => True
  end.

(** [honours], one request at a time. *)
Definition honoured (Mo : Monitor) (R : mstate Mo -> Session -> Prop)
    (good : Ev -> Prop) (c : Request) : Prop :=
  forall s (w : Session) (r : ReplyOf c) w',
    R s w -> mallow Mo s c = true -> session_handle c w = Some (r, w') ->
    good (ev_of c r) /\
    forall s', mstep Mo s (ev_of c r) = Some s' -> R s' w'.

(** What the ledger holds while the script is stuck before its first
    init: no chain, and a mint no older than the time the script has
    waited. *)
Definition stalled (s : Phase * Z) (w : Session) : Prop :=
  chains (ledger w) = ∅ /\
  match s.1 with
  | Unstarted => submitted_at (ledger w) = None
  | Minted _ =>
      exists t, submitted_at (ledger w) = Some t /\ clock (ledger w) - t <= s.2
  | Halted => True
  | _ => False
  end.

End operations.

(** The chains of [l'] are the chains of [l] with the updates made since
    on top: no chain is lost and none forks. *)
Definition extends (l l' : Ledger) : Prop :=
  forall u older, chains l !! u = Some older ->
    exists newer, chains l' !! u = Some (newer ++ older).

(** ** How long the script waits *)

(** The state is the time of the timers since the last transaction the
    script submitted: it never calls the RNG instance after more than
    one confirmation wait. *)
Definition patience : Monitor := {|
  mstate := Z;
  mstep := fun waited e =>
    match e with
    | EvTimeout ms => Some (waited + Z.max 0 ms)
    | _ => Some (if submits e then 0 else waited)
    end;
  mallow := fun waited c =>
    negb (is_executor_call c) || bool_decide (waited <= CONFIRMATION_WAIT);
  mthrows := fun _ _ => true
|}.

(** The state of the contract when the script is in its loop. *)
Definition in_loop (x : unit * Globals) (s : mstate contract) : Prop :=
  (exists u, loop_inv u x.2 s.1.1) /\ s.1.2 = true.

(** ** Two chains *)

(** The chain of the specification's scenarios: transactions T1, T2, ...,
    identities U1, ..., the number 42, confirmed after a minute. *)
Definition scenario_chain : Chain := {|
  tx_id := fun n => String "T" (decimal (Z.of_nat (S n)));
  unit_id := fun n => String "U" (decimal (Z.of_nat (S n)));
  published := fun _ => "42";
  latency := 60 * 1000;
  tx_id_truthy := fun _ => eq_refl
|}.

(** The same chain, confirming a millisecond after the script stops
    waiting. *)
Definition slow_chain : Chain := {|
  tx_id := @tx_id scenario_chain;
  unit_id := @unit_id scenario_chain;
  published := @published scenario_chain;
  latency := CONFIRMATION_WAIT + 1;
  tx_id_truthy := @tx_id_truthy scenario_chain
|}.

(** An operator who types the eight start-up answers and the name, then
    generates once with length 8 and queries once. *)
Definition scenario_operator : list string :=
  [ "0"; " key "; "http://rng"; "ws://ogmios"; "4e4d01"; "4e4d02";
    "seed words"; "4"; "myoracle"; "1"; "8"; "2" ].

(** The run of the script with this operator, [n] times round the loop,
    on a chain. *)
Definition session_run (Ch : Chain) (n : nat) : Run (unit * Globals) Session :=
  @run script_sig _ Session (@session_world Ch) (main n initial_globals)
    (fresh_session scenario_operator).

(** * Properties *)

(** ** The operations of the ledger, when their conditions hold *)

(** ** The keyboard *)

(** [inquirer] answers every question it asked, and takes one line for
    each. *)
Lemma inquire_answered qs kb a kb' :
  inquire qs kb = Some (a, kb') ->
  answered qs a /\ length kb = (length qs + length kb')%nat.
Proof.
  unfold inquire. case_decide as Hl; [|done]. intros [= <- <-]. split.
  - apply Forall_forall. intros n Hn.
    destruct (list_to_map _ !! n) eqn:E; [done|].
    apply not_elem_of_list_to_map in E. destruct E.
    rewrite fmap_reverse, fst_zip, elem_of_reverse; [done|].
    unfold asked. rewrite length_fmap, length_take. lia.
  - rewrite length_drop. lia.
Qed.

Section ledger.
Context `{Ch : Chain}.

Lemma mint_op_confirmed l :
  confirmed l = true ->
  mint_op l =
    (ok {| mint_txHash := tx_id (nonce l); oracleDIDUnit := unit_id (nonce l) |},
     submit l ({[unit_id (nonce l)]} ∪ dids l) (seeds l) (chains l)).
Proof. unfold mint_op. by intros ->. Qed.

Lemma init_op_confirmed l :
  confirmed l = true ->
  init_op l =
    (ok {| txHash := tx_id (nonce l) |},
     submit l (dids l) ({[tx_id (nonce l)]} ∪ seeds l) (chains l)).
Proof. unfold init_op. by intros ->. Qed.

Lemma init_op_unconfirmed l t :
  submitted_at l = Some t -> clock l - t < latency ->
  init_op l = (failed "previous transaction not confirmed", l).
Proof.
  intros Ht H. unfold init_op, confirmed. rewrite Ht.
  by rewrite bool_decide_eq_false_2 by lia.
Qed.

Lemma register_op_minted u t l :
  confirmed l = true -> u ∈ dids l -> chains l !! u = None -> t ∈ seeds l ->
  register_op {| reg_initRNGTx := t; reg_oracleDIDUnit := u |} l =
    (ok {| txHash := tx_id (nonce l) |},
     submit l (dids l) (seeds l ∖ {[t]}) (<[u := [tx_id (nonce l)]]> (chains l))).
Proof.
  unfold register_op; cbn. intros -> ? ? ?. by rewrite !bool_decide_eq_true_2.
Qed.

Lemma update_op_head u t h older l :
  confirmed l = true -> chains l !! u = Some (h :: older) -> t ∈ seeds l ->
  update_op {| upd_initRNGTx := t; upd_oracleDIDUnit := u;
               currUpdatedOracleDIDTx := Some h |} l =
    (ok {| txHash := tx_id (nonce l) |},
     submit l (dids l) (seeds l ∖ {[t]})
       (<[u := tx_id (nonce l) :: h :: older]> (chains l))).
Proof.
  unfold update_op; cbn. intros -> -> ?. by rewrite !bool_decide_eq_true_2.
Qed.

Lemma is_head_chain u h older l :
  chains l !! u = Some (h :: older) -> is_head h l = true.
Proof.
  intros H. apply bool_decide_eq_true, Exists_exists.
  exists (u, h :: older). split; [by apply elem_of_map_to_list|done].
Qed.

Lemma query_op_head u h older l :
  confirmed l = true -> chains l !! u = Some (h :: older) ->
  query_op (Some h) l = (ok {| rngOutput := published h |}, l).
Proof.
  unfold query_op. intros -> H. by rewrite (is_head_chain _ _ _ _ H).
Qed.

Lemma confirmed_first l : submitted_at l = None -> confirmed l = true.
Proof. unfold confirmed. by intros ->. Qed.

Lemma on_time_submit l d s c : on_time (submit l d s c).
Proof. intros t [= <-]. cbn. lia. Qed.

Lemma on_time_tick ms l : on_time l -> on_time (tick ms l).
Proof. intros H t Ht. specialize (H t Ht). cbn. lia. Qed.

Lemma honoured_all Mo R good :
  (forall c, honoured Mo R good c) -> honours Mo R good.
Proof. intros H s w c. apply H. Qed.

End ledger.

(** ** No branching, whoever the client is *)

Section sanity.
Context `{Ch : Chain}.

#[local] Instance extends_refl : Reflexive extends.
Proof. intros l u older H. by exists []. Qed.

#[local] Instance extends_trans : Transitive extends.
Proof.
  intros l1 l2 l3 H12 H23 u older H.
  destruct (H12 _ _ H) as [n1 H1]. destruct (H23 _ _ H1) as [n2 H2].
  exists (n2 ++ n1). by rewrite <- app_assoc.
Qed.

Lemma extends_insert l l' u newer older :
  chains l !! u = older -> chains l' = <[u := newer ++ default [] older]> (chains l) ->
  extends l l'.
Proof.
  intros <- Hl' u' o Ho. rewrite Hl'. destruct (decide (u' = u)) as [->|Hne].
  - rewrite lookup_insert_eq, Ho. by exists newer.
  - rewrite lookup_insert_ne by done. by exists [].
Qed.

Lemma register_op_extends a l : extends l (register_op a l).2.
Proof.
  unfold register_op. destruct (_ && _) eqn:E; [|done].
  apply andb_true_iff in E as [[_ Hc%bool_decide_eq_true]%andb_true_iff _].
  by eapply (extends_insert _ _ _ [_]).
Qed.

Lemma update_op_extends a l : extends l (update_op a l).2.
Proof.
  unfold update_op.
  destruct (currUpdatedOracleDIDTx a); [|done].
  destruct (chains l !! _) as [[|h older]|] eqn:Hc; [done| |done].
  destruct (_ && _); [|done]. by eapply (extends_insert _ _ _ [_]).
Qed.

Lemma extends_same l l' : chains l' = chains l -> extends l l'.
Proof. intros H u older Hu. exists []. by rewrite H. Qed.

Lemma session_extends c (w : Session) r w' :
  session_handle c w = Some (r, w') -> extends (ledger w) (ledger w').
Proof.
  destruct c; cbn; try (destruct (inquire _ _) as [[??]|]; [|done]);
    intros [= <- <-]; cbn;
    auto using extends_same, register_op_extends, update_op_extends;
    apply extends_same.
  - unfold mint_op. by destruct (confirmed _).
  - unfold init_op. by destruct (confirmed _).
  - by case_bool_decide.
  - unfold query_op. destruct tx; [|done]. by destruct (_ && _).
Qed.

(** No branching, whoever the client is: whatever program runs against
    the ledger, the chain of an identity only grows at its head. *)
Lemma ledger_no_branching {A} (p : Prog A) (w : Session) u older :
  chains (ledger w) !! u = Some older ->
  exists newer, chains (ledger (final (run p w))) !! u = Some (newer ++ older).
Proof.
  revert u older. change (extends (ledger w) (ledger (final (run p w)))).
  apply (run_final_rel (fun w w' => extends (ledger w) (ledger w')) p w).
  - intros w1. reflexivity.
  - intros w1 w2 w3. apply extends_trans.
  - intros c w1 r w2. apply session_extends.
Qed.
End sanity.

(** ** The script's side of the contract *)

Lemma heads_of_snoc t e :
  heads_of (t ++ [e]) = from_option (fun h => h :: heads_of t) (heads_of t) (new_head e).
Proof.
  unfold heads_of. rewrite omap_app, rev_app_distr. cbn.
  by destruct (new_head e).
Qed.

Lemma mrun_history t hist : mrun history hist t = Some (heads_of t ++ hist).
Proof.
  revert hist; induction t as [|e t IH] using rev_ind; intros hist; [done|].
  rewrite mrun_app, IH, heads_of_snoc. cbn. by destruct (new_head e).
Qed.

Lemma main_contract n g :
  mwp contract (main n g) (Unstarted, true, []) in_loop.
Proof.
  eapply mwp_mono; [|apply mwp_both;
    [exact (mwp_both _ _ _ _ _ _ _ (main_lifecycle n g) (main_waits n g))
    |by apply (mwp_liberal history)]].
  by intros x s [H _].
Qed.

Lemma forallb_accepted `{Ch : Chain} t :
  Forall accepted t -> forallb good t = true.
Proof.
  induction 1 as [|e t [He Ha] _ IH]; [done|]. cbn. rewrite IH, andb_true_r.
  unfold good. rewrite He. destruct e; try done. by apply bool_decide_eq_true.
Qed.

Lemma bootstrap_patience g :
  mwp patience (bootstrap g) 0 (fun _ s => s = CONFIRMATION_WAIT).
Proof.
  unfold bootstrap, startup, newInstance, instanceConfig, mintOracle,
    firstInit, initRNG, registerOracle.
  script_go; eauto.
Qed.

Lemma iteration_patience g s :
  s = CONFIRMATION_WAIT ->
  mwp patience (iteration g) s (fun _ s' => s' = CONFIRMATION_WAIT).
Proof.
  intros ->. unfold iteration, when, generate, query, initRNG.
  script_go; eauto.
Qed.

Lemma main_patience n g :
  mwp patience (main n g) 0 (fun _ s => s = CONFIRMATION_WAIT).
Proof.
  apply (main_mwp patience (fun _ s => s = CONFIRMATION_WAIT));
    auto using bootstrap_patience, iteration_patience.
Qed.

(** ** The ledger's side of the contract, on a timely chain *)

(** Open the statement of [honoured]: name the phase, the state of the
    second monitor and the ledger, and evaluate the handler. *)
Ltac honour_start :=
  intros [[ph b] hist] [l ops] r w' HR [[Hp Hw]%andb_true_iff _]%andb_true_iff Hh;
  cbn in Hp, Hw, Hh;
  try (destruct (inquire _ ops) as [[??]|] eqn:Hq; [|discriminate Hh]);
  injection Hh as <- <-.

(** A request to the RNG instance is allowed in few phases, and only
    when the last transaction is confirmed. *)
Ltac executor_call :=
  honour_start;
  lazymatch goal with
  | HR : tracks (?ph, ?b, _) _ |- _ =>
      destruct HR as (Hph & Ht & Hs); cbn in Hph, Ht, Hs;
      destruct b; try discriminate; specialize (Hs eq_refl);
      destruct ph; try discriminate; cbn in Hph; destruct_and? Hph
  end;
  repeat match goal with H : ex _ |- _ => destruct H as (? & -> & ?) end;
  subst.

(** The reply is accepted and the monitors step: what is left is that
    the session tracks their next state. *)
Ltac honour_step :=
  unfold accepted, has_tx; cbn;
  rewrite ?tx_id_truthy, ?orb_false_r, ?bool_decide_eq_true_2 by done;
  split; [by eauto|]; intros ? [= <-]; repeat apply conj; cbn;
  repeat match goal with H : chains _ = ∅ |- _ => rewrite H end;
  auto using on_time_submit, on_time_tick;
  try done; try (by eauto); try by apply elem_of_union_l, elem_of_singleton.

Section timely.
Context `{Ch : Chain}.
Hypothesis timely : latency <= CONFIRMATION_WAIT.

#[local] Abbreviation honoured_timely := (honoured contract tracks accepted).

Lemma confirmed_tick ms l :
  on_time l -> (confirmed l = true \/ CONFIRMATION_WAIT <= ms) ->
  confirmed (tick ms l) = true.
Proof.
  unfold confirmed, on_time, tick; cbn. intros Ht H.
  destruct (submitted_at l) as [t|]; [|done].
  specialize (Ht t eq_refl). apply bool_decide_eq_true.
  destruct H as [H%bool_decide_eq_true|H]; lia.
Qed.

Lemma honoured_quiet c :
  is_executor_call c = false ->
  (forall ms, c <> SetTimeout ms) -> (forall qs, c <> Prompt qs) ->
  honoured_timely c.
Proof.
  intros Hc Hms Hqs.
  destruct c; try discriminate Hc; try (by destruct (Hms ms));
    try (by destruct (Hqs questions)).
  all: honour_start; destruct HR as (? & ? & ?); honour_step.
Qed.

Lemma honoured_prompt qs : honoured_timely (Prompt qs).
Proof.
  honour_start. destruct HR as (? & ? & ?).
  apply inquire_answered in Hq as [? _]. honour_step.
Qed.

Lemma honoured_timer ms : honoured_timely (SetTimeout ms).
Proof.
  honour_start. destruct HR as (Hph & Ht & Hs). honour_step.
  intros [Hb%Hs| H%bool_decide_eq_true]%orb_true_iff; apply confirmed_tick; auto.
Qed.

Lemma honoured_mint name : honoured_timely (OracleMint name).
Proof.
  executor_call. rewrite (mint_op_confirmed _ Hs). honour_step.
Qed.

Lemma honoured_init : honoured_timely RngInit.
Proof. executor_call; rewrite (init_op_confirmed _ Hs); honour_step. Qed.

Lemma honoured_register a : honoured_timely (OracleRegister a).
Proof.
  executor_call. apply bool_decide_eq_true in Hp as ->.
  rewrite register_op_minted by done. honour_step.
  eexists. split; [done|]. apply lookup_insert_eq.
Qed.

Lemma honoured_config k v : honoured_timely (UpdateConfig k v).
Proof. executor_call. unfold config_op. case_bool_decide; honour_step. Qed.

Lemma honoured_update a : honoured_timely (OracleUpdate a).
Proof.
  executor_call. apply bool_decide_eq_true in Hp as ->.
  erewrite update_op_head by done. honour_step.
  eexists. split; [done|]. apply lookup_insert_eq.
Qed.

Lemma honoured_query tx : honoured_timely (OracleQuery tx).
Proof.
  executor_call. apply bool_decide_eq_true in Hp as ->.
  erewrite query_op_head by done. honour_step; eauto.
Qed.

(** The ledger honours the lifecycle and the waits. *)
Lemma ledger_honours : honours contract tracks accepted.
Proof.
  apply honoured_all. intros c.
  destruct c; auto using honoured_prompt, honoured_timer, honoured_mint, honoured_init,
    honoured_register, honoured_config, honoured_update, honoured_query.
  all: by apply honoured_quiet.
Qed.

(** The two sides meet, from any session that tracks the start of the
    contract: the replies of a run are accepted, nothing is thrown, and
    at its end the session still tracks the monitors, together with
    whatever else [R] its steps keep. *)
Lemma main_tracked {HW : World Session} (R : mstate contract -> Session -> Prop)
    n g (w : Session) :
  below HW session_world ->
  (forall s (w : Session) c r w' s',
     tracks s w -> R s w -> mallow contract s c = true ->
     @handle _ _ HW c w = Some (r, w') ->
     mstep contract s (ev_of c r) = Some s' -> R s' w') ->
  tracks (Unstarted, true, []) w -> R (Unstarted, true, []) w ->
  let r := run (main n g) w in
  Forall accepted (trace r) /\ (forall e, outcome r <> Thrown e) /\
  exists s, s.2 = heads_of (trace r) /\ tracks s (final r) /\ R s (final r) /\
    mpost contract in_loop s (outcome r).
Proof.
  intros Hb HR H0 HR0 r.
  destruct (mwp_honoured _ _ _
    (honours_conj _ _ R _ (honours_below _ _ _ _ _ Hb ledger_honours) HR) _ _ _ _
    (main_contract n g) (conj H0 HR0)) as (Hg & s & Hrun & [Ht HRf] & Hp).
  fold r in Hg, Hrun, Ht, HRf, Hp. split; [exact Hg|]. split.
  - intros e He.
    destruct (mwp_run cooperative _ _ _ w (main_cooperative n g)) as (c & Hc & Hpost).
    fold r in Hc, Hpost.
    rewrite cooperative_mrun, (forallb_accepted _ Hg) in Hc. injection Hc as <-.
    by rewrite He in Hpost.
  - exists s. split; [|done].
    unfold contract in Hrun. rewrite mrun_both, mrun_history in Hrun.
    destruct (mrun _ _ _); [|done]. injection Hrun as <-. cbn. by rewrite app_nil_r.
Qed.

Lemma main_on_ledger n g ops :
  let r := run (main n g) (fresh_session ops) in
  Forall accepted (trace r) /\
  exists s, s.2 = heads_of (trace r) /\ tracks s (final r) /\
    mpost contract in_loop s (outcome r).
Proof.
  destruct (main_tracked (fun _ _ => True) n g (fresh_session ops))
    as (Hg & _ & s & ? & ? & _ & ?); [by intros ?|done..|]; eauto.
Qed.

(** Every reply of a run is accepted, and nothing is thrown. *)
Lemma main_accepted n g ops :
  let r := run (main n g) (fresh_session ops) in
  Forall accepted (trace r) /\ forall e, outcome r <> Thrown e.
Proof.
  destruct (main_tracked (fun _ _ => True) n g (fresh_session ops))
    as (Hg & Hn & _); [by intros ?|done..|]; eauto.
Qed.

(** C6: on a chain that confirms within the time the script waits, the
    ledger and the keyboard never make the script fail: whatever the
    operator types and however long the loop runs, every prompt of the
    run is answered question by question, every mint, init, register
    and update succeeds, every query is answered with the number the
    transaction it names published, and the script throws nothing. *)
Theorem ledger_accepts_script n g ops :
  let r := run (main n g) (fresh_session ops) in
  Forall accepted (trace r) /\ forall e, outcome r <> Thrown e.
Proof. apply main_accepted. Qed.

(** C7: the variables of the script and the ledger agree: when [main]
    returns, the identity in [BASE_ORACLEDID] is registered on the
    ledger; its update chain there is made of the transactions of the
    successful register and updates of the run, the newest first, so
    after N generate actions its head is the transaction of the N-th
    update; that head is the transaction in [CURR_ORACLE_UPDATED_TX],
    and it is confirmed. *)
Theorem ledger_head_is_curr n g ops g' :
  let r := run (main n g) (fresh_session ops) in
  outcome r = Done (tt, g') ->
  exists u h,
    g' = {| BASE_ORACLEDID :=
              Some {| OracleDID.unit := u; OracleDID.registered := true |};
            CURR_ORACLE_UPDATED_TX := Some h |} /\
    chains (ledger (final r)) !! u = Some (heads_of (trace r)) /\
    head (heads_of (trace r)) = Some h /\
    confirmed (ledger (final r)) = true.
Proof.
  intros r Ho.
  destruct (main_on_ledger n g ops) as (_ & [[ph b] hist] & Hh & Ht & Hp).
  fold r in Hh, Ht, Hp. rewrite Ho in Hp. cbn in Hh. subst hist.
  destruct Hp as [(u & h & Hph & Hg & _) Hb]. cbn in Hph, Hb, Hg. subst.
  destruct Ht as ((older & Hhist & Hc) & _ & Hs). cbn in Hhist, Hc, Hs.
  exists u, h. rewrite Hhist in *. auto.
Qed.

End timely.

(** ** A chain that confirms too late *)

Section slow.
Context `{Ch : Chain}.
Hypothesis slow : CONFIRMATION_WAIT < latency.

(** The ledger keeps the script before its first init: the mint is
    never old enough when the script calls init. *)
Lemma slow_honours :
  honours (both lifecycle_code patience) stalled (fun _ => True).
Proof.
  intros [ph waited] [l ops] c r w' [Hc Hph] [Hp Hw]%andb_true_iff Hh.
  split; [done|]. cbn in Hp, Hw, Hc, Hph.
  destruct c; cbn in Hh; try (destruct (inquire _ ops) as [[??]|]; [|done]);
    injection Hh as <- <-.
  all: destruct ph; try done.
  all: rewrite ?mint_op_confirmed by by apply confirmed_first.
  all: try (destruct Hph as (t & Ht & Hle); apply bool_decide_eq_true in Hw;
            rewrite (init_op_unconfirmed _ t) by (done || lia)).
  all: cbn; unfold has_tx; cbn; rewrite ?tx_id_truthy; intros s' [= <-].
  all: split; cbn; try done.
  - destruct Hph as (t & Ht & Hle). exists t. split; [done|lia].
  - eexists. split; [done|lia].
Qed.

(** C28: on a chain that confirms later than the script waits, and on
    which no time passes but the timers', the script never gets past its
    first init: no identity is ever registered on the ledger and [main]
    never returns, whatever the operator answers. *)
Theorem slow_chain_never_registers n g ops :
  let r := run (main n g) (fresh_session ops) in
  chains (ledger (final r)) = ∅ /\ forall x, outcome r <> Done x.
Proof.
  assert (stalled (Unstarted, 0) (fresh_session ops)) as H0 by done.
  pose proof (mwp_both _ _ _ _ _ _ _ (main_lifecycle n g) (main_patience n g)) as Hm.
  destruct (mwp_honoured _ _ _ slow_honours _ _ _ _ Hm H0)
    as (_ & [ph z] & _ & [Hc Hph] & Hp).
  split; [exact Hc|]. intros x Hx. rewrite Hx in Hp.
  destruct Hp as [(u & h & Hr & _) _]. cbn in Hr, Hph. by subst.
Qed.

End slow.

(** ** The scenarios of the specification, on the ledger *)

Lemma ledger_accepts_script_witness :
  let r := session_run scenario_chain 2 in
  Forall (@accepted scenario_chain) (trace r) /\ forall e, outcome r <> Thrown e.
Proof.
  apply (@ledger_accepts_script scenario_chain). by vm_compute.
Defined.

Lemma ledger_head_is_curr_witness :
  let r := session_run scenario_chain 2 in
  exists u h,
    {| BASE_ORACLEDID :=
         Some {| OracleDID.unit := "U1"; OracleDID.registered := true |};
       CURR_ORACLE_UPDATED_TX := Some "T5" |} =
    {| BASE_ORACLEDID :=
         Some {| OracleDID.unit := u; OracleDID.registered := true |};
       CURR_ORACLE_UPDATED_TX := Some h |} /\
    chains (ledger (final r)) !! u = Some (heads_of (trace r)) /\
    head (heads_of (trace r)) = Some h /\
    @confirmed scenario_chain (ledger (final r)) = true.
Proof.
  apply (@ledger_head_is_curr scenario_chain).
  - by vm_compute.
  - vm_compute. reflexivity.
Defined.

Lemma slow_chain_never_registers_witness :
  chains (ledger (final (session_run slow_chain 2))) = ∅ /\
  forall x, outcome (session_run slow_chain 2) <> Done x.
Proof.
  apply (@slow_chain_never_registers slow_chain). by vm_compute.
Defined.

(** What the two chains do to the script of the scenarios: on the first
    the run is the run against the scripted world [happy], event by
    event, with the transactions T1 to T5 of section 8 of the
    specification and the query that prints 42; on the second the init
    is refused and the script throws the ledger's reason. *)
Example ledger_scenarios :
  trace (session_run scenario_chain 2) = trace (run (main 2 initial_globals) happy) /\
  outcome (session_run scenario_chain 2) = outcome (run (main 2 initial_globals) happy) /\
  outcome (session_run slow_chain 2) =
    Thrown (Error (Some "previous transaction not confirmed")).
Proof. repeat apply conj; vm_compute; reflexivity. Qed.
