(* ===== verification/Restart.v ===== *)
(** * Restart: a new process on the ledger an earlier one left

    The two variables of the script live in the memory of the process
    (lines 63 to 68): a process that starts again starts from
    [initial_globals], whatever an earlier process did.  This file runs
    the script on a ledger that already holds identities, behind a
    network on which any call may fail ([flaky]): the process dies
    where a call fails, with its reply lost or its effect too, and is
    started again. *)

From stdpp Require Import gmap.
From S2P Require Import Prelude JsBuiltins Prog Monitor Interface Fake Config.
From S2P Require Import Bootstrap ActionLoop Lifecycle Machine Discipline Rejection.
From S2P Require Import Liveness Ledger.

#[local] Open Scope Z_scope.

Section definitions.
Context `{Ch : Chain}.

(** The units the chain has given to the transactions so far. *)
Definition minted (l : Ledger) : gset string :=
  list_to_set (unit_id <$> seq 0 (nonce l)).

(** Every chain belongs to an identity, and every identity was minted by
    a transaction of the ledger. *)
Definition wf_ledger (l : Ledger) : Prop :=
  dom (chains l) ⊆ dids l /\ dids l ⊆ minted l.

(** The wallet can start a new identity: its last transaction is
    confirmed and not in the future, and the unit that comes next has no
    chain. *)
Definition ready (l : Ledger) : bool :=
  confirmed l
  && match submitted_at l with Some t => bool_decide (t <= clock l) | None => true end
  && bool_decide (chains l !! unit_id (nonce l) = None).

(** The session of a process started on ledger [l]. *)
Definition started (l : Ledger) (keyboard : list string) : Session :=
  {| ledger := l; keyboard := keyboard |}.

(** The chains of [l0] are on the ledger as they were, and the identity
    of the process is none of them. *)
Definition frame (l0 : Ledger) (s : mstate contract) (w : Session) : Prop :=
  forall u c, chains l0 !! u = Some c ->
    chains (ledger w) !! u = Some c /\ phase_unit s.1.1 <> Some u.

(** The ledger behind a network that fails: [bad] says, of a call in a
    state, whether it fails, with which error, and whether its effect
    reached the ledger before the reply was lost. *)
Definition flaky (bad : Request -> Session -> option (JsError * bool)) :
    @Host script_sig Session :=
  fun c w =>
    match bad c w, session_handle c w with
    | Some (e, true), Some (_, w') => Rejected e w'
    | Some (e, _), _ => Rejected e w
    | None, Some (r, w') => Resolved r w'
    | None, None => Unsettled
    end.

End definitions.

(** The reply of an update is lost, the update done. *)
Definition update_lost (c : Request) (w : Session) : option (JsError * bool) :=
  match c with
  | OracleUpdate _ => Some (Error (Some "fetch failed"), true)
  | _ => None
  end.

(** The script started again, with the same lines, on the ledger the
    scenarios of the specification left. *)
Definition scenario_left : Ledger := ledger (final (session_run scenario_chain 2)).

Definition scenario_restart (n : nat) : Execution (unit * Globals) Session :=
  execute (H := @flaky scenario_chain update_lost) (main n initial_globals)
    (started scenario_left scenario_operator).

(** * Properties *)

Section restart.
Context `{Ch : Chain}.

Lemma ready_tracks l kb : ready l = true -> tracks (Unstarted, true, []) (started l kb).
Proof.
  intros [[Hc Ht]%andb_true_iff Hf%bool_decide_eq_true]%andb_true_iff.
  repeat split; [done| |done]. intros t Hs. cbn in *. rewrite Hs in Ht.
  by apply bool_decide_eq_true in Ht.
Qed.

Lemma ready_frame l kb : frame l (Unstarted, true, []) (started l kb).
Proof. by intros u c Hu. Qed.

(** Only a register or an update of an identity touches its chain. *)
Lemma session_handle_chains c (w : Session) r w' u :
  session_handle c w = Some (r, w') ->
  (forall a, c = OracleRegister a -> reg_oracleDIDUnit a <> u) ->
  (forall a, c = OracleUpdate a -> upd_oracleDIDUnit a <> u) ->
  chains (ledger w') !! u = chains (ledger w) !! u.
Proof.
  intros Hh Hr Hu.
  destruct c; cbn in Hh; try (destruct (inquire _ _) as [[??]|]; [|done]);
    injection Hh as <- <-; cbn;
    unfold mint_op, init_op, register_op, update_op, query_op, config_op;
    repeat case_match; cbn; try done.
  - apply lookup_insert_ne. by apply (Hr args).
  - apply lookup_insert_ne. by apply (Hu args).
Qed.

(** The lifecycle's part of a step of the contract. *)
Lemma contract_step_phase ph b hist e ph' b' hist' :
  mstep contract (ph, b, hist) e = Some (ph', b', hist') ->
  transition has_data ph e ph'.
Proof.
  intros Hs. apply mstep_transition. cbn in Hs |- *.
  destruct (permits ph (req_of e)); [|done].
  destruct (if is_executor_event e then _ else _); [|done]. by injection Hs as -> _ _.
Qed.

(** The unit a mint on the ledger returns is the one that comes next. *)
Lemma mint_op_unit l :
  tx_of oracleDIDUnit (mint_op l).1 = unit_id (nonce l) \/ has_tx mint_txHash (mint_op l).1 = false.
Proof. unfold mint_op. destruct (confirmed l); [by left|by right]. Qed.

(** A call the contract allows leaves the chains that were there. *)
Lemma frame_chains l0 s (w : Session) c r w' :
  tracks s w -> frame l0 s w -> mallow contract s c = true ->
  session_handle c w = Some (r, w') ->
  forall u c0, chains l0 !! u = Some c0 -> chains (ledger w') !! u = Some c0.
Proof.
  destruct s as [[ph b] hist].
  intros _ HF [[Hp _]%andb_true_iff _]%andb_true_iff Hh u c0 Hu.
  destruct (HF u c0 Hu) as [Hc Hn]. cbn in Hp, Hn. rewrite <- Hc.
  apply (session_handle_chains c w r w' u Hh); intros a ->.
  - apply permits_register in Hp as ->. naive_solver.
  - apply permits_update in Hp as (h & _ & ->). naive_solver.
Qed.

Lemma frame_step l0 s (w : Session) c r w' s' :
  tracks s w -> frame l0 s w -> mallow contract s c = true ->
  session_handle c w = Some (r, w') ->
  mstep contract s (ev_of c r) = Some s' -> frame l0 s' w'.
Proof.
  intros HR HF Ha Hh Hs u c0 Hu. split; [by eapply frame_chains|].
  destruct s as [[ph b] hist], w as [l kb], s' as [[ph' b'] hist'].
  destruct HR as [Hph _]. apply contract_step_phase in Hs as Ht.
  destruct (HF u c0 Hu) as [Hc Hn]. cbn in Hc, Hn, Hph |- *.
  destruct (phase_unit ph) as [u2|] eqn:E.
  - destruct (transition_unit _ _ _ _ _ Ht E) as [-> | ->]; naive_solver.
  - destruct ph; try done.
    inversion Ht as [name r0 Hr Hx He| | | | | | | |]; subst; try done.
    destruct c; try discriminate He. injection He as -> ->.
    injection Hh as <- <-. cbn. intros [= <-].
    destruct (mint_op_unit l) as [Hm|Hm]; [|congruence].
    rewrite Hm in Hc. destruct Hph as [Hph _]. congruence.
Qed.

(** ** Identities are minted by transactions *)

Lemma minted_succ l (d s : gset string) c :
  minted (submit l d s c) = {[unit_id (nonce l)]} ∪ minted l.
Proof.
  unfold minted. cbn [nonce submit]. rewrite seq_S, fmap_app, list_to_set_app_L.
  cbn. rewrite union_empty_r_L. apply (comm_L _).
Qed.

Lemma elem_of_minted l u :
  u ∈ minted l <-> exists k, (k < nonce l)%nat /\ u = unit_id k.
Proof.
  unfold minted. rewrite elem_of_list_to_set, list_elem_of_fmap.
  split.
  - intros (k & -> & Hk%elem_of_seq). exists k. split; [lia|done].
  - intros (k & Hk & ->). exists k. split; [done|]. apply elem_of_seq. lia.
Qed.

(** Whoever the client is, the ledger stays well formed. *)
Lemma session_handle_wf c (w : Session) r w' :
  session_handle c w = Some (r, w') ->
  wf_ledger (ledger w) -> wf_ledger (ledger w').
Proof.
  unfold wf_ledger. intros Hh [Hd Hm].
  destruct c; cbn in Hh; try (destruct (inquire _ _) as [[??]|]; [|done]);
    injection Hh as <- <-; cbn; try done;
    unfold mint_op, init_op, register_op, update_op, query_op, config_op;
    repeat case_match; cbn [fst snd]; rewrite ?minted_succ;
    cbn [chains dids submit]; rewrite ?dom_insert_L; try done.
  - split; [by apply union_subseteq_r'|by apply union_mono_l].
  - split; [done|]. by apply union_subseteq_r'.
  - split; [|by apply union_subseteq_r'].
    apply andb_true_iff in H as [[[_ H]%andb_true_iff _]%andb_true_iff _].
    apply bool_decide_eq_true in H. apply union_least; [|done].
    by apply singleton_subseteq_l.
  - split; [|by apply union_subseteq_r'].
    apply union_least; [|done]. apply singleton_subseteq_l, Hd, elem_of_dom. eauto.
Qed.

Lemma run_wf {HW : World Session} {A} (p : Prog A) (w : Session) :
  below HW session_world ->
  wf_ledger (ledger w) -> wf_ledger (ledger (final (run p w))).
Proof.
  intros Hb.
  apply (run_final_rel (fun w w' => wf_ledger (ledger w) -> wf_ledger (ledger w')));
    eauto using session_handle_wf.
Qed.

(** Whoever the client is, no transaction is in the future. *)
Lemma session_handle_on_time c (w : Session) r w' :
  session_handle c w = Some (r, w') -> on_time (ledger w) -> on_time (ledger w').
Proof.
  intros Hh Ht.
  destruct c; cbn in Hh; try (destruct (inquire _ _) as [[??]|]; [|done]);
    injection Hh as <- <-; cbn; try done;
    unfold mint_op, init_op, register_op, update_op, query_op, config_op;
    repeat case_match; cbn [fst snd];
    auto using on_time_submit, on_time_tick.
Qed.

(** ** The network that fails *)

Lemma flaky_below bad : below (resolving (H := flaky bad)) session_world.
Proof.
  intros c w r w'. unfold handle, resolving, answer, flaky, session_world.
  destruct (bad c w) as [[e []]|], (session_handle c w) as [[r0 w0]|]; by try done.
Qed.

(** The world a call that failed leaves is the one it found, or the one
    the call leaves when it succeeds. *)
Lemma flaky_rejected bad c (w : Session) e w' :
  answer (Host := flaky bad) c w = Rejected e w' ->
  w' = w \/ exists r, session_handle c w = Some (r, w').
Proof.
  unfold answer, flaky.
  destruct (bad c w) as [[e0 []]|], (session_handle c w) as [[r0 w0]|];
    intros [= <- <-] || intros [=]; eauto.
Qed.

(** The world at the end of an execution is the world at the end of the
    run, or one call later. *)
Lemma flaky_settle bad {A} (r : Run A Session) :
  let x := settle (H := flaky bad) r in
  events x = trace r /\
  match ending x with
  | Returned a => outcome r = Done a
  | Raised e => outcome r = Thrown e
  | Uncaught c _ | Waiting c => outcome r = Pending c
  end /\
  (world x = final r \/
   exists c r', outcome r = Pending c /\ session_handle c (final r) = Some (r', world x)).
Proof.
  unfold settle. destruct (outcome r) as [a|e|c]; cbn; [by auto..|].
  destruct (answer c (final r)) as [|e w'|] eqn:E; cbn; [by auto| |by auto].
  repeat split. apply flaky_rejected in E as [->|[r' E]]; eauto.
Qed.

Section inj.
Context `{!Inj (=) (=) (@unit_id Ch)}.

(** On a chain that names no two identities alike, the unit that comes
    next is new. *)
Lemma wf_next_fresh l : wf_ledger l -> chains l !! unit_id (nonce l) = None.
Proof.
  intros [Hd Hm]. apply not_elem_of_dom. intros Hu%Hd%Hm%elem_of_minted.
  destruct Hu as (k & Hk & He%(inj _)). lia.
Qed.

Lemma wf_ready l :
  wf_ledger l -> on_time l -> confirmed l = true -> ready l = true.
Proof.
  intros Hwf Ht Hc. unfold ready. rewrite Hc, (bool_decide_eq_true_2 _ (wf_next_fresh l Hwf)).
  destruct (submitted_at l) as [t|] eqn:E; [|done].
  by rewrite bool_decide_eq_true_2 by auto.
Qed.

End inj.

(** ** The script on a ledger that holds identities *)

Section timely.
Context `{!Inj (=) (=) (@unit_id Ch)}.
Hypothesis timely : latency <= CONFIRMATION_WAIT.
Variable bad : Request -> Session -> option (JsError * bool).

(** The run of the part of the execution that resolved. *)
#[local] Abbreviation resolved n g l kb :=
  (run (H := resolving (H := flaky bad)) (main n g) (started l kb)) (only parsing).

Lemma resolved_tracked n g l kb :
  ready l = true ->
  let r := resolved n g l kb in
  Forall accepted (trace r) /\ (forall e, outcome r <> Thrown e) /\
  exists s, s.2 = heads_of (trace r) /\ tracks s (final r) /\ frame l s (final r) /\
    mpost contract in_loop s (outcome r).
Proof.
  intros Hr.
  apply (main_tracked timely (frame l) n g (started l kb) (flaky_below bad));
    [|by apply ready_tracks|apply ready_frame].
  intros s w c r w' s' Ht HF Ha Hh%flaky_below. by eapply frame_step.
Qed.

(** What holds of the ledger wherever the process stops. *)
Lemma main_stopped n g l kb :
  wf_ledger l -> ready l = true ->
  let x := execute (H := flaky bad) (main n g) (started l kb) in
  (forall u c, chains l !! u = Some c -> chains (ledger (world x)) !! u = Some c) /\
  wf_ledger (ledger (world x)) /\ on_time (ledger (world x)).
Proof.
  intros Hwf Hr x. unfold x. rewrite execute_settle.
  destruct (resolved_tracked n g l kb Hr) as (_ & _ & s & _ & Ht & HF & Hp).
  pose proof (run_wf (main n g) (started l kb) (flaky_below bad) Hwf) as Hw.
  destruct (flaky_settle bad (resolved n g l kb)) as (_ & _ & [->|(c & r' & Ho & Hh)]).
  - split; [intros u c Hu; by destruct (HF u c Hu)|].
    split; [exact Hw|by destruct Ht as (_ & ? & _)].
  - rewrite Ho in Hp. split; [by eapply frame_chains|].
    split; [by eapply session_handle_wf|].
    eapply session_handle_on_time; [done|by destruct Ht as (_ & ? & _)].
Qed.

Lemma main_restarted n g l kb :
  wf_ledger l -> ready l = true ->
  let x := execute (H := flaky bad) (main n g) (started l kb) in
  Forall accepted (events x) /\ (forall e, ending x <> Raised e) /\
  (forall u c, chains l !! u = Some c -> chains (ledger (world x)) !! u = Some c) /\
  wf_ledger (ledger (world x)) /\
  (forall ms, CONFIRMATION_WAIT <= ms -> ready (tick ms (ledger (world x))) = true) /\
  forall g', ending x = Returned (tt, g') ->
    ready (ledger (world x)) = true /\
    exists u h,
      g' = {| BASE_ORACLEDID :=
                Some {| OracleDID.unit := u; OracleDID.registered := true |};
              CURR_ORACLE_UPDATED_TX := Some h |} /\
      chains l !! u = None /\
      chains (ledger (world x)) !! u = Some (heads_of (events x)) /\
      head (heads_of (events x)) = Some h.
Proof.
  intros Hwf Hr x. destruct (main_stopped n g l kb Hwf Hr) as (Hc & Hw & Hot).
  fold x in Hc, Hw, Hot.
  destruct (resolved_tracked n g l kb Hr) as (Hg & Hn & [[ph b] hist] & Hh & Ht & HF & Hp).
  destruct (flaky_settle bad (resolved n g l kb)) as (He & Hend & Hwd).
  rewrite <- execute_settle in He, Hend, Hwd. fold x in He, Hend, Hwd. rewrite He.
  set (r := resolved n g l kb) in *.
  split; [done|]. split; [|split; [done|split; [done|split]]].
  - intros e Hx. rewrite Hx in Hend. by apply Hn in Hend.
  - intros ms Hms. apply wf_ready; [done|by apply on_time_tick|].
    apply confirmed_tick; auto.
  - intros g' Hx. rewrite Hx in Hend. rewrite Hend in Hp, Hwd.
    destruct Hwd as [Hwd|(? & ? & [=] & _)]. rewrite Hwd in *. cbn in Hh. subst hist.
    destruct Hp as [(u & h & Hph & Hgl & _) Hb]. cbn in Hph, Hb, Hgl. subst.
    destruct Ht as ((older & Hhist & Hch) & _ & Hs). cbn in Hhist, Hch, Hs. split.
    + apply wf_ready; auto.
    + exists u, h. rewrite Hhist in *. repeat split; auto.
      destruct (chains l !! u) as [c|] eqn:E; [|done]. by destruct (HF u c E) as [_ []].
Qed.

(** C10: a process that starts again does not resume.  On a chain that
    confirms within the time the script waits and names no two
    identities alike, behind a network on which any call may fail, its
    effect lost or only its reply: the script started on a ledger that
    already holds identities (well formed, its last transaction
    confirmed) is never refused and throws nothing of its own; it
    leaves every chain that was there as it was; wherever it stops, a
    confirmation wait later the ledger is ready for the next process;
    and when it returns the identity in [BASE_ORACLEDID] is a new one,
    whose chain is made of the register and the updates of this run
    alone.  The identity an earlier process registered is never updated
    again. *)
Theorem restart_leaves_chains n g l kb :
  wf_ledger l -> ready l = true ->
  let x := execute (H := flaky bad) (main n g) (started l kb) in
  Forall accepted (events x) /\ (forall e, ending x <> Raised e) /\
  (forall u c, chains l !! u = Some c -> chains (ledger (world x)) !! u = Some c) /\
  wf_ledger (ledger (world x)) /\
  (forall ms, CONFIRMATION_WAIT <= ms -> ready (tick ms (ledger (world x))) = true) /\
  forall g', ending x = Returned (tt, g') ->
    ready (ledger (world x)) = true /\
    exists u h,
      g' = {| BASE_ORACLEDID :=
                Some {| OracleDID.unit := u; OracleDID.registered := true |};
              CURR_ORACLE_UPDATED_TX := Some h |} /\
      chains l !! u = None /\
      chains (ledger (world x)) !! u = Some (heads_of (events x)) /\
      head (heads_of (events x)) = Some h.
Proof. apply main_restarted. Qed.

End timely.

End restart.

(** The chain of the scenarios names no two identities alike. *)
Lemma scenario_units_inj : Inj (=) (=) (@unit_id scenario_chain).
Proof.
  assert (forall z, parseInt (decimal z) = Num z) as Hd.
  { intros z. rewrite <- (append_nil_r (decimal z)). by apply parseInt_decimal_tail. }
  intros a b [= H%(f_equal parseInt)]. rewrite !Hd in H. injection H. lia.
Qed.

Lemma fresh_ledger_wf `{Ch : Chain} : wf_ledger fresh_ledger.
Proof. split; cbn; [by rewrite dom_empty_L|apply empty_subseteq]. Qed.

Lemma restart_leaves_chains_witness :
  let x := scenario_restart 1 in
  Forall (@accepted scenario_chain) (events x) /\ (forall e, ending x <> Raised e) /\
  (forall u c, chains scenario_left !! u = Some c ->
     chains (ledger (world x)) !! u = Some c) /\
  @wf_ledger scenario_chain (ledger (world x)) /\
  (forall ms, CONFIRMATION_WAIT <= ms ->
     @ready scenario_chain (tick ms (ledger (world x))) = true) /\
  forall g', ending x = Returned (tt, g') ->
    @ready scenario_chain (ledger (world x)) = true /\
    exists u h,
      g' = {| BASE_ORACLEDID :=
                Some {| OracleDID.unit := u; OracleDID.registered := true |};
              CURR_ORACLE_UPDATED_TX := Some h |} /\
      chains scenario_left !! u = None /\
      chains (ledger (world x)) !! u = Some (heads_of (events x)) /\
      head (heads_of (events x)) = Some h.
Proof.
  apply (@restart_leaves_chains scenario_chain scenario_units_inj);
    [by vm_compute|apply (run_wf (HW := @session_world scenario_chain));
      [by intros ?|apply fresh_ledger_wf]|by vm_compute].
Defined.

(** The scenario, evaluated.  The first process registered U1 and left
    the chain T5, T3.  The second mints U6 and registers it as T8; the
    reply of its update is lost, and it dies thinking the head is T8
    while the ledger has T10.  U1 still has T5, T3. *)
Example restart_scenario :
  let x := scenario_restart 1 in
  chains scenario_left = {[ "U1" := ["T5"; "T3"] ]} /\
  chains (ledger (world x)) = {[ "U1" := ["T5"; "T3"]; "U6" := ["T10"; "T8"] ]} /\
  heads_of (events x) = ["T8"] /\
  dies (ending x) = Some (Error (Some "fetch failed")).
Proof. vm_compute. repeat split. Qed.
