(* ===== verification/Unbounded.v ===== *)
(** * Unbounded: the script with its loop, as an interaction tree

    [main n] cuts [while (true)] after [n] iterations.  Here the script
    is an interaction tree whose loop is [ITree.iter]: it never returns,
    which its type says.  A program of [Prog] embeds as a finite tree,
    a request as a visible event answered by its reply and a throw as an
    event that has no answer.  The theorem states that the script is,
    for every [n], [main n] followed by the rest of the loop: the
    unrollings the other files reason about are exactly the finite
    prefixes of the script. *)

From ITree Require Import ITree ITreeFacts.
From stdpp Require Import gmap.
From S2P Require Import Prelude JsBuiltins Prog Interface Config Bootstrap ActionLoop.

(** The events of the script: a request, answered by its reply, and a
    throw, which nothing answers. *)
Variant scriptE : Type -> Type :=
| Call (c : Request) : scriptE (ReplyOf c)
| Raise (e : JsError) : scriptE Empty_set.

(** A program as an interaction tree. *)
Fixpoint embed {A : Type} (p : Prog A) : itree scriptE A :=
  match p with
  | Prog.Ret a => ITreeDefinition.Ret a
  | Throw e => ITreeDefinition.Vis (Raise e) (fun v : Empty_set => match v with end)
  | Prog.Vis c k => ITreeDefinition.Vis (Call c) (fun r => embed (k r))
  end.

(** The body of [while (true)]: one iteration, then again with the
    variables it left. *)
Definition body (g : Globals) : itree scriptE (Globals + Empty_set) :=
  ITree.bind (embed (iteration g)) (fun x => ITreeDefinition.Ret (inl (snd x))).

(** Lines 158-227: [while (true) { ... }]. *)
Definition forever : Globals -> itree scriptE Empty_set := ITree.iter body.

(** Lines 23-227: the script. *)
Definition script (g : Globals) : itree scriptE Empty_set :=
  ITree.bind (embed (bootstrap g)) (fun x => forever (snd x)).

(** * Properties *)

Section embedding.
Context {A B : Type}.

(** Sequencing in [Prog] is sequencing of trees. *)
Lemma embed_bind (p : Prog A) (f : A -> Prog B) :
  embed (Prog.bind p f) ≅ ITree.bind (embed p) (fun a => embed (f a)).
Proof.
  induction p as [a|e|c k IH]; cbn.
  - rewrite Eqit.bind_ret_l. reflexivity.
  - rewrite Eqit.bind_vis. apply eqit_Vis. intros [].
  - rewrite Eqit.bind_vis. apply eqit_Vis. intros r. apply IH.
Qed.

(** Equivalent programs are the same tree. *)
Lemma embed_equiv (p q : Prog A) : p ≡ q -> embed p ≅ embed q.
Proof.
  induction 1 as [a|e|c k k' Hk IH]; cbn; [reflexivity | reflexivity |].
  apply eqit_Vis. exact IH.
Qed.

End embedding.

#[export] Instance embed_proper {A : Type} :
  Proper ((≡) ==> eq_itree eq) (@embed A).
Proof. intros p q H. by apply embed_equiv. Qed.

(** The loop is one iteration followed by the loop. *)
Lemma forever_unfold (g : Globals) :
  forever g ≈ ITree.bind (embed (iteration g)) (fun x => forever (snd x)).
Proof.
  unfold forever at 1. rewrite unfold_iter. unfold body. rewrite Eqit.bind_bind.
  apply eqit_bind; [reflexivity|]. intros x.
  rewrite Eqit.bind_ret_l, Eqit.tau_eutt. reflexivity.
Qed.

(** The loop is [n] iterations followed by the loop. *)
Lemma forever_loop (n : nat) (g : Globals) :
  forever g ≈ ITree.bind (embed (loop n g)) (fun x => forever (snd x)).
Proof.
  revert g; induction n as [|n IH]; intros g.
  - cbn. rewrite Eqit.bind_ret_l. reflexivity.
  - unfold loop. rewrite iterate_succ, embed_bind, Eqit.bind_bind, forever_unfold.
    apply eqit_bind; [reflexivity|]. intros x. apply IH.
Qed.

