(* ===== verification/Adequacy.v ===== *)
(** * Adequacy: the runs of the script with its unbounded loop

    [exec] runs an interaction tree against a world for a bounded number
    of steps; it is executable, and the run of [script] against a
    scripted world is computed by it.  A program of [Prog] embedded as a
    tree runs as [run] says.  The theorems connect the two models of the
    loop: when the run of [main n] threw or is left waiting, it is the
    one run of [script]; and against a cooperative world, where every
    [main n] returns, [script] has no finite run at all. *)

From ITree Require Import ITree ITreeFacts.
From stdpp Require Import gmap.
From S2P Require Import Prelude JsBuiltins Prog Monitor Interface Fake Config.
From S2P Require Import Bootstrap ActionLoop Unrolling Liveness Unbounded.

Section exec.
Context {W : Type} `{HW : !World W}.

(** Run a tree against a world, [fuel] steps at most: [None] when the
    fuel runs out before the tree returns, throws or is left waiting. *)
Fixpoint exec {A : Type} (fuel : nat) (t : itree scriptE A) (w : W) : option (Run A W) :=
  match fuel with
  | O => None
  | S fuel' =>
      match observe t with
      | RetF a => Some (mkRun [] (Done a) w)
      | TauF u => exec fuel' u w
      | VisF e k =>
          match e in scriptE X return (X -> itree scriptE A) -> option (Run A W) with
          | Call c => fun k =>
              match handle c w with
              | Some (x, w') => cons_event (ev_of c x) <$> exec fuel' (k x) w'
              | None => Some (mkRun [] (Pending c) w)
              end
          | Raise e => fun _ => Some (mkRun [] (Thrown e) w)
          end k
      end
  end.

(** A run that did not return, as a run of any result type. *)
Definition stuck {A B : Type} (r : Run A W) : option (Run B W) :=
  match outcome r with
  | Done _ => None
  | Thrown e => Some (mkRun (trace r) (Thrown e) (final r))
  | Pending c => Some (mkRun (trace r) (Pending c) (final r))
  end.

(** What follows a run of [t] in a run of [ITree.bind t k]: the run
    [r'] of the continuation, or nothing when [t] did not return. *)
Definition followed_by {A B : Type} (r : Run A W) (r' : A -> option (Run B W)) : option (Run B W) :=
  match outcome r with
  | Done a => (fun r2 => mkRun (trace r ++ trace r2) (outcome r2) (final r2)) <$> r' a
  | Thrown e => Some (mkRun (trace r) (Thrown e) (final r))
  | Pending c => Some (mkRun (trace r) (Pending c) (final r))
  end.

(** The rest of the loop after a result of the script, with fuel [f]. *)
Definition resume (f : nat) (w : W) (x : unit * Globals) : option (Run Empty_set W) :=
  exec f (forever (snd x)) w.

(** What the loop does after one turn of its body. *)
Definition turn (lr : Globals + Empty_set) : itree scriptE Empty_set :=
  match lr with
  | inl g => ITreeDefinition.Tau (forever g)
  | inr r => ITreeDefinition.Ret r
  end.

(** * Properties *)

Lemma exec_S {A} fuel (t : itree scriptE A) w :
  exec (S fuel) t w =
  match observe t with
  | RetF a => Some (mkRun [] (Done a) w)
  | TauF u => exec fuel u w
  | VisF e k =>
      match e in scriptE X return (X -> itree scriptE A) -> option (Run A W) with
      | Call c => fun k =>
          match handle c w with
          | Some (x, w') => cons_event (ev_of c x) <$> exec fuel (k x) w'
          | None => Some (mkRun [] (Pending c) w)
          end
      | Raise e => fun _ => Some (mkRun [] (Thrown e) w)
      end k
  end.
Proof. reflexivity. Qed.

#[local] Arguments exec : simpl never.

Lemma exec_observe {A} fuel (t t' : itree scriptE A) w :
  observe t = observe t' -> exec fuel t w = exec fuel t' w.
Proof. intros E. destruct fuel; [done|]. by rewrite !exec_S, E. Qed.

Lemma exec_mono {A} fuel fuel' (t : itree scriptE A) w r :
  exec fuel t w = Some r -> fuel <= fuel' -> exec fuel' t w = Some r.
Proof.
  revert fuel' t w r; induction fuel as [|fuel IH]; intros fuel' t w r; [done|].
  intros H Hle. destruct fuel' as [|fuel']; [lia|]. rewrite exec_S in *.
  destruct (observe t) as [a|u|X e k]; [done | apply IH; [done|lia] |].
  destruct e as [c|e]; [|done].
  destruct (handle _ w) as [[x w']|]; [|done].
  destruct (exec fuel (k x) w') as [r0|] eqn:E; [|done].
  by rewrite (IH fuel' _ _ _ E) by lia.
Qed.

Lemma exec_embed {A} (p : Prog A) w : exists fuel, exec fuel (embed p) w = Some (run p w).
Proof.
  revert w; induction p as [a|e|c k IH]; intros w; [by exists 1%nat..|].
  destruct (handle c w) as [[x w']|] eqn:E.
  - destruct (IH x w') as [fuel Hf]. exists (S fuel). rewrite exec_S. cbn.
    rewrite E, Hf. cbn. by rewrite (run_vis_some _ _ _ _ _ E).
  - exists 1%nat. rewrite exec_S. cbn. by rewrite E, (run_vis_none _ _ _ E).
Qed.

Lemma followed_by_cons {A B} e (r : Run A W) (r' : A -> option (Run B W)) :
  followed_by (cons_event e r) r' = cons_event e <$> followed_by r r'.
Proof.
  unfold followed_by. destruct r as [t [a|x|c] w]; cbn; [|done..].
  by destruct (r' a).
Qed.

Lemma observe_bind_ret {A B} (t : itree scriptE A) (k : A -> itree scriptE B) a :
  observe t = RetF a -> observe (ITree.bind t k) = observe (k a).
Proof. intros E. rewrite observe_bind. by rewrite E. Qed.

(** A run of [t] followed by a run of the continuation is a run of
    [ITree.bind t k], with the fuel of both. *)
Lemma exec_bind {A B} f f' (t : itree scriptE A) (k : A -> itree scriptE B) w r r' :
  exec f t w = Some r ->
  followed_by r (fun a => exec f' (k a) (final r)) = Some r' ->
  exec (f + f') (ITree.bind t k) w = Some r'.
Proof.
  revert t w r r'; induction f as [|f IH]; intros t w r r'; [done|].
  cbn [Nat.add]. rewrite !exec_S, observe_bind.
  destruct (observe t) as [a|u|X e k0] eqn:Et.
  - intros [= <-]. unfold followed_by. cbn.
    destruct (exec f' (k a) w) as [r2|] eqn:E2; [|done]. intros [= <-].
    destruct r2 as [t2 o2 w2]. cbn. rewrite <- exec_S.
    eapply exec_mono; [exact E2 | lia].
  - cbn. apply IH.
  - destruct e as [c|e]; cbn.
    + destruct (handle _ w) as [[x w']|]; [|by intros [= <-] [= <-]].
      destruct (exec f (k0 x) w') as [r0|] eqn:E0; [|done]. cbn. intros [= <-].
      rewrite followed_by_cons.
      destruct (followed_by r0 _) as [r1|] eqn:E1; [|done]. cbn. intros [= <-].
      by rewrite (IH _ _ _ _ E0 E1).
    + by intros [= <-] [= <-].
Qed.

(** Conversely a run of [ITree.bind t k] is a run of [t] followed by a
    run of the continuation. *)
Lemma exec_bind_inv {A B} f (t : itree scriptE A) (k : A -> itree scriptE B) w r' :
  exec f (ITree.bind t k) w = Some r' ->
  exists r, exec f t w = Some r /\
    followed_by r (fun a => exec f (k a) (final r)) = Some r'.
Proof.
  revert t w r'; induction f as [|f IH]; intros t w r'; [done|].
  intros H. pose proof H as H'. rewrite exec_S, observe_bind in H.
  rewrite exec_S. destruct (observe t) as [a|u|X e k0] eqn:Et.
  - exists (mkRun [] (Done a) w). split; [done|]. unfold followed_by. cbn.
    rewrite (exec_observe (S f) (k a) (ITree.bind t k)), H'; [by destruct r'|].
    symmetry. by apply observe_bind_ret.
  - cbn in H. destruct (IH _ _ _ H) as (r & Hr & Hf). exists r. split; [done|].
    unfold followed_by in *. destruct (outcome r) as [a| |]; [|done..].
    destruct (exec f (k a) (final r)) as [r2|] eqn:E2; [|done].
    by rewrite (exec_mono _ (S f) _ _ _ E2) by lia.
  - destruct e as [c|e]; cbn in H.
    + destruct (handle _ w) as [[x w']|]; [|injection H as <-; by eexists].
      destruct (exec f (ITree.bind (k0 x) k) w') as [r1|] eqn:E1; [|done].
      injection H as <-. destruct (IH _ _ _ E1) as (r & Hr & Hf).
      exists (cons_event (@event_of script_sig c x) r). rewrite Hr. split; [done|].
      rewrite followed_by_cons. cbn [final cons_event].
      unfold followed_by in *. destruct (outcome r) as [a| |]; cbn in *.
      * destruct (exec f (k a) (final r)) as [r2|] eqn:E2; [|done].
        rewrite (exec_mono _ (S f) _ _ _ E2) by lia. cbn in *. congruence.
      * congruence.
      * congruence.
    + injection H as <-. by eexists.
Qed.

Lemma exec_det {A} f1 f2 (t : itree scriptE A) w r1 r2 :
  exec f1 t w = Some r1 -> exec f2 t w = Some r2 -> r1 = r2.
Proof.
  intros H1 H2.
  apply (exec_mono _ (f1 + f2)) in H1; [|lia].
  apply (exec_mono _ (f1 + f2)) in H2; [|lia]. congruence.
Qed.

Lemma exec_embed_inv {A} f (p : Prog A) w r :
  exec f (embed p) w = Some r -> r = run p w.
Proof. intros H. destruct (exec_embed p w) as [f' H']. by eapply exec_det. Qed.

(** What follows is monotone in the fuel given to the continuation. *)
Lemma followed_by_mono {A B} (r : Run A W) (k k' : A -> option (Run B W)) r' :
  (forall a r2, k a = Some r2 -> k' a = Some r2) ->
  followed_by r k = Some r' -> followed_by r k' = Some r'.
Proof.
  intros Hk. unfold followed_by. destruct (outcome r) as [a| |]; [|done..].
  destruct (k a) as [r2|] eqn:E; [|done]. by rewrite (Hk _ _ E).
Qed.

(** Sequencing in [Prog], then a tree. *)
Lemma followed_by_then_run {A B C} (r : Run A W) (k : A -> Prog B)
    (k' : W -> B -> option (Run C W)) :
  followed_by (then_run r k) (k' (final (then_run r k))) =
  followed_by r (fun a => followed_by (run (k a) (final r)) (k' (final (run (k a) (final r))))).
Proof.
  unfold followed_by, then_run. destruct r as [t [a|e|c] w1]; cbn; [|done..].
  destruct (run (k a) w1) as [t2 [b|e|c] w2]; cbn; [|by rewrite ?app_nil_r..].
  destruct (k' w2 b) as [r3|]; cbn; [|done]. by rewrite app_assoc.
Qed.

Lemma exec_embed_bind {A B} f (p : Prog A) (k : A -> itree scriptE B) w r' :
  followed_by (run p w) (fun a => exec f (k a) (final (run p w))) = Some r' ->
  exists f', exec f' (ITree.bind (embed p) k) w = Some r'.
Proof.
  intros H. destruct (exec_embed p w) as [f0 H0]. exists (f0 + f).
  by eapply exec_bind.
Qed.

Lemma exec_embed_bind_inv {A B} f (p : Prog A) (k : A -> itree scriptE B) w r' :
  exec f (ITree.bind (embed p) k) w = Some r' ->
  followed_by (run p w) (fun a => exec f (k a) (final (run p w))) = Some r'.
Proof.
  intros (r & Hr & Hf)%exec_bind_inv. by rewrite <- (exec_embed_inv _ _ _ _ Hr).
Qed.

Lemma resume_mono f f' w x r : resume f w x = Some r -> f <= f' -> resume f' w x = Some r.
Proof. apply exec_mono. Qed.

Lemma observe_forever g :
  observe (forever g) = observe (ITree.bind (body g) turn).
Proof. reflexivity. Qed.

Lemma exec_body f g w rb :
  exec f (body g) w = Some rb ->
  followed_by (run (iteration g) w)
    (fun x => Some (mkRun [] (Done (inl (snd x))) (final (run (iteration g) w)))) = Some rb.
Proof.
  intros H%exec_embed_bind_inv. eapply followed_by_mono; [|exact H].
  intros x r2. destruct f; [done|]. by rewrite exec_S.
Qed.

Lemma exec_forever_inv f g w r' :
  exec f (forever g) w = Some r' ->
  followed_by (run (iteration g) w) (resume f (final (run (iteration g) w))) = Some r'.
Proof.
  rewrite (exec_observe f _ _ w (observe_forever g)).
  intros (rb & Hb%exec_body & Hf)%exec_bind_inv. revert Hb Hf. unfold followed_by.
  destruct (run (iteration g) w) as [t1 [x|e|c] w1]; cbn; intros [= <-]; cbn; [|done..].
  destruct f as [|f]; [done|]. rewrite exec_S. cbn.
  destruct (exec f (forever (snd x)) w1) as [r2|] eqn:E2; [|done].
  unfold resume. rewrite (exec_mono _ (S f) _ _ _ E2) by lia.
  cbn. by rewrite app_nil_r.
Qed.

Lemma exec_forever f g w r' :
  followed_by (run (iteration g) w) (resume f (final (run (iteration g) w))) = Some r' ->
  exists f', exec f' (forever g) w = Some r'.
Proof.
  intros H. destruct (exec_embed (iteration g) w) as [f1 H1].
  exists ((f1 + 1) + S f). rewrite (exec_observe _ _ _ w (observe_forever g)).
  revert H H1. unfold followed_by, resume.
  destruct (run (iteration g) w) as [t1 [x|e|c] w1]; cbn; intros H H1.
  - destruct (exec f (forever (snd x)) w1) as [r2|] eqn:E2; [|done]. injection H as <-.
    eapply exec_bind; [eapply (exec_bind _ 1); [exact H1 | reflexivity]|].
    unfold followed_by. cbn. rewrite exec_S. cbn. rewrite E2. cbn. by rewrite app_nil_r.
  - injection H as <-.
    eapply exec_bind; [eapply (exec_bind _ 1); [exact H1 | reflexivity]|]. done.
  - injection H as <-.
    eapply exec_bind; [eapply (exec_bind _ 1); [exact H1 | reflexivity]|]. done.
Qed.

Lemma followed_by_done {A B} (w : W) (a : A) (k : A -> option (Run B W)) :
  followed_by (mkRun [] (Done a) w) k = k a.
Proof. unfold followed_by. cbn. by destruct (k a) as [[]|]. Qed.

(** A continuation that runs with some fuel for each result runs with
    one fuel for the result there is. *)
Lemma followed_by_ex (r : Run (unit * Globals) W) k r' :
  followed_by r k = Some r' ->
  (forall a r2, k a = Some r2 -> exists f, resume f (final r) a = Some r2) ->
  exists f, followed_by r (resume f (final r)) = Some r'.
Proof.
  unfold followed_by. intros H Hk.
  destruct (outcome r) as [a| |]; [|by exists 0%nat..].
  destruct (k a) as [r2|] eqn:E; [|done]. destruct (Hk _ _ E) as [f Hf].
  exists f. by rewrite Hf.
Qed.

Lemma run_loop_succ n g w :
  run (loop (S n) g) w = then_run (run (iteration g) w) (fun x => loop n (snd x)).
Proof. unfold loop. by rewrite iterate_succ, run_bind. Qed.

Lemma exec_loop n f g w r' :
  followed_by (run (loop n g) w) (resume f (final (run (loop n g) w))) = Some r' ->
  exists f', exec f' (forever g) w = Some r'.
Proof.
  revert f g w r'; induction n as [|n IH]; intros f g w r'.
  - change (run (loop 0 g) w) with (mkRun [] (Done (tt, g)) w).
    rewrite followed_by_done. by exists f.
  - rewrite run_loop_succ, (followed_by_then_run _ _ (resume f)).
    intros [f' H]%followed_by_ex; [by eapply exec_forever|].
    intros x r2. apply IH.
Qed.

Lemma exec_loop_inv n f g w r' :
  exec f (forever g) w = Some r' ->
  followed_by (run (loop n g) w) (resume f (final (run (loop n g) w))) = Some r'.
Proof.
  revert g w r'; induction n as [|n IH]; intros g w r'.
  - change (run (loop 0 g) w) with (mkRun [] (Done (tt, g)) w).
    by rewrite followed_by_done.
  - intros H%exec_forever_inv.
    rewrite run_loop_succ, (followed_by_then_run _ _ (resume f)).
    eapply followed_by_mono; [|exact H]. intros x r2. apply IH.
Qed.

Lemma run_main n g w :
  run (main n g) w = then_run (run (bootstrap g) w) (fun x => loop n (snd x)).
Proof. unfold main, mbind. by rewrite run_bind. Qed.

(** The script does what [main n] does, then the rest of the loop. *)
Lemma exec_script n f g w r' :
  followed_by (run (main n g) w) (resume f (final (run (main n g) w))) = Some r' ->
  exists f', exec f' (script g) w = Some r'.
Proof.
  rewrite run_main, (followed_by_then_run _ _ (resume f)).
  intros [f' H]%followed_by_ex; [by eapply exec_embed_bind|].
  intros x r2. apply exec_loop.
Qed.

Lemma exec_script_inv n f g w r' :
  exec f (script g) w = Some r' ->
  followed_by (run (main n g) w) (resume f (final (run (main n g) w))) = Some r'.
Proof.
  intros H%exec_embed_bind_inv.
  rewrite run_main, (followed_by_then_run _ _ (resume f)).
  eapply followed_by_mono; [|exact H]. intros x r2. apply exec_loop_inv.
Qed.

Lemma followed_by_stuck {A B} (r : Run A W) (k : A -> option (Run B W)) r' :
  stuck r = Some r' -> followed_by r k = Some r'.
Proof. unfold stuck, followed_by. by destruct (outcome r). Qed.

Lemma followed_by_prefix {A B} (r : Run A W) (k : A -> option (Run B W)) r' :
  followed_by r k = Some r' -> trace r `prefix_of` trace r'.
Proof.
  unfold followed_by. destruct (outcome r) as [a| |]; [|by intros [= <-]..].
  destruct (k a) as [r2|]; [|done]. intros [= <-]. by apply prefix_app_r.
Qed.

(** The run of a script that is stuck after [n] iterations is the run of
    the unbounded script, and its only one. *)
Lemma exec_script_stuck n g w r' :
  stuck (run (main n g) w) = Some r' ->
  (exists f, exec f (script g) w = Some r') /\
  (forall f r'', exec f (script g) w = Some r'' -> r'' = r').
Proof.
  intros H. split.
  - apply (exec_script n 0). by apply followed_by_stuck.
  - intros f r'' H'%(exec_script_inv n).
    rewrite (followed_by_stuck _ _ _ H) in H'. congruence.
Qed.


(** C27: against a cooperative world the script with its unbounded loop
    has no finite run: whatever the fuel, it is still running. *)
Theorem script_runs_forever `{HC : !Cooperative W} f g w :
  exec f (script g) w = None.
Proof.
  destruct (exec f (script g) w) as [r'|] eqn:E; [exfalso | done].
  apply (exec_script_inv (S (length (trace r')))), followed_by_prefix in E.
  apply prefix_length in E.
  destruct (cooperative_returns (S (length (trace r'))) g w) as [g' Hg].
  apply main_done_length in Hg. ev_norm. lia.
Qed.

End exec.

#[global] Arguments exec : simpl never.


Lemma script_runs_forever_witness :
  exec 1000 (script initial_globals) steady = None.
Proof. apply (script_runs_forever 1000 initial_globals steady). Defined.
