(* ===== verification/EndToEnd.v ===== *)
(** * EndToEnd: the whole script, the ledger and the operator

    The script ([ActionLoop], and with its unbounded loop [Unbounded],
    executed by [Adequacy]) against the ledger and the keyboard of
    [Ledger].  On a chain that confirms in time nothing fails, so only
    the keyboard decides how far the script gets: with enough lines
    typed it completes any number of iterations; when the lines run out
    it waits at a prompt, and that is the one run of the unbounded
    script. *)

From ITree Require Import ITree.
From stdpp Require Import gmap.
From S2P Require Import Prelude JsBuiltins Prog Monitor Interface Fake Config.
From S2P Require Import Bootstrap ActionLoop Lifecycle Discipline Unrolling.
From S2P Require Import Metering Ledger Unbounded Adequacy.

(** The script waits for the operator. *)
Definition waits_for_operator {A : Type} (o : Outcome A) : Prop :=
  exists qs, o = Pending (Prompt qs).

(** The lines typed and not yet read, and the time on the ledger. *)
Definition unread (w : Session) : nat := length (keyboard w).
Definition elapsed (w : Session) : Z := clock (ledger w).

(** The unbounded script on the chain of the scenarios. *)
Definition scenario_exec (fuel : nat) : option (Run Empty_set Session) :=
  exec (HW := @session_world scenario_chain) fuel (script initial_globals)
    (fresh_session scenario_operator).

(** * Properties *)

Section session.
Context `{Ch : Chain}.

(** The session leaves only prompts unanswered, and only for want of
    lines. *)
Lemma session_pending c (w : Session) :
  session_handle c w = None ->
  exists qs, c = Prompt qs /\ length (keyboard w) < length qs.
Proof.
  destruct c; cbn; try done. unfold inquire.
  case_decide; [done|]. intros _. eexists. split; [done|lia].
Qed.

(** A request takes as many lines as it asks questions. *)
Lemma session_handle_lines c (w : Session) r w' :
  session_handle c w = Some (r, w') ->
  length (keyboard w) = asks c + length (keyboard w').
Proof.
  destruct c; cbn; try (by intros [= <- <-]).
  destruct (inquire _ _) as [[a kb]|] eqn:E; [|done]. intros [= <- <-].
  by apply inquire_answered in E as [_ ->].
Qed.

Lemma lines_meter_step m c (r : ReplyOf c) :
  lines (meter_step m (ev_of c r)) = lines m + asks c.
Proof. destruct c; cbn; try lia. all: by destruct (has_tx _ _) || lia. Qed.

(** The lines a run read are lines the operator typed. *)
Lemma keyboard_read {A} (p : Prog A) (w : Session) m :
  lines (fold_left meter_step (trace (run p w)) m) + length (keyboard (final (run p w))) =
  lines m + length (keyboard w).
Proof.
  revert w m; induction p as [a|e|c k IH]; intros w m; [reflexivity..|].
  destruct (handle c w) as [[r w']|] eqn:E;
    [rewrite (run_vis_some _ _ _ _ _ E)|by rewrite (run_vis_none _ _ _ E)].
  cbn [trace final cons_event fold_left]. rewrite IH.
  rewrite (session_handle_lines _ _ _ _ E).
  change (event_of c r) with (ev_of c r). rewrite lines_meter_step. lia.
Qed.

(** The clock of the ledger moves with the timers and with nothing
    else. *)
Lemma session_handle_clock c (w : Session) r w' :
  session_handle c w = Some (r, w') ->
  clock (ledger w') = (clock (ledger w) + slept [ev_of c r])%Z.
Proof.
  destruct c; cbn; try (destruct (inquire _ _) as [[??]|]; [|done]);
    intros [= <- <-]; cbn;
    unfold mint_op, init_op, register_op, update_op, query_op, config_op;
    repeat case_match; cbn; lia.
Qed.

(** The time on the ledger is the time the script slept. *)
Lemma session_clock {A} (p : Prog A) (w : Session) :
  clock (ledger (final (run p w))) =
  (clock (ledger w) + slept (trace (run p w)))%Z.
Proof.
  revert w; induction p as [a|e|c k IH]; intros w;
    [symmetry; apply Z.add_0_r..|].
  destruct (handle c w) as [[r w']|] eqn:E;
    [rewrite (run_vis_some _ _ _ _ _ E)
    |rewrite (run_vis_none _ _ _ E); symmetry; apply Z.add_0_r].
  cbn [trace final cons_event]. rewrite IH, slept_cons.
  rewrite (session_handle_clock _ _ _ _ E). cbn [slept foldr].
  change (event_of c r) with (ev_of c r). destruct (ev_of c r); lia.
Qed.

(** The script cut after more iterations than there are lines does not
    return. *)
Lemma main_outlasts_operator g kb x :
  outcome (run (main (S (length kb)) g) (fresh_session kb)) <> Done x.
Proof.
  intros Hx.
  destruct (main_costs (S (length kb)) g (fresh_session kb)) as (_ & _ & Hd).
  destruct (Hd x Hx) as (k & _ & H & _).
  pose proof (keyboard_read (main (S (length kb)) g) (fresh_session kb) (mkMeter 0 0 0)) as Hk.
  unfold metered in H. cbn [lines keyboard fresh_session] in Hk. ev_norm. lia.
Qed.

Hypothesis timely : (latency <= CONFIRMATION_WAIT)%Z.

(** A run that did not return waits for the operator. *)
Lemma main_stuck_waits n g kb :
  (forall x, outcome (run (main n g) (fresh_session kb)) <> Done x) ->
  exists qs, outcome (run (main n g) (fresh_session kb)) = Pending (Prompt qs) /\
    length (keyboard (final (run (main n g) (fresh_session kb)))) < length qs.
Proof.
  intros Hnd. destruct (outcome _) as [x|e|c] eqn:Ho.
  - by destruct (Hnd x).
  - by destruct (main_accepted timely n g kb) as [_ []%(fun H => H e)].
  - apply run_pending_handle in Ho.
    destruct (session_pending _ _ Ho) as (qs & -> & Hl). eauto.
Qed.

(** With the lines of the bootstrap and two for each iteration, the
    script returns. *)
Lemma main_returns n g kb :
  9 + 2 * n <= length kb ->
  exists g', outcome (run (main n g) (fresh_session kb)) = Done (tt, g').
Proof.
  intros Hkb. destruct (outcome _) as [[[] g']|e|c] eqn:Ho; [by exists g'|..].
  - by destruct (main_accepted timely n g kb) as [_ []%(fun H => H e)].
  - destruct (main_stuck_waits n g kb) as (qs & Hq & Hl); [by rewrite Ho|].
    destruct (main_costs n g (fresh_session kb)) as (_ & Hp & _).
    specialize (Hp qs Hq).
    pose proof (keyboard_read (main n g) (fresh_session kb) (mkMeter 0 0 0)) as Hk.
    unfold metered in Hp. cbn [lines keyboard fresh_session] in Hk. ev_norm. lia.
Qed.

(** What the run took, when it returned: [k] is the number of generate
    actions among the [n] iterations. *)
Lemma main_progress n g kb :
  9 + 2 * n <= length kb ->
  let r := run (main n g) (fresh_session kb) in
  exists g' k, outcome r = Done (tt, g') /\ k <= n /\
    length kb = 9 + n + k + length (keyboard (final r)) /\
    clock (ledger (final r)) = (CONFIRMATION_WAIT * Z.of_nat (3 + 2 * k))%Z.
Proof.
  intros Hkb r. destruct (main_returns n g kb Hkb) as [g' Hg'].
  destruct (main_costs n g (fresh_session kb)) as ((_ & _ & _ & Hs) & _ & Hd).
  destruct (Hd _ Hg') as (k & Hk & Hl & Ht & Htm).
  pose proof (keyboard_read (main n g) (fresh_session kb) (mkMeter 0 0 0)) as Hr.
  exists g', k. subst r. repeat apply conj; [done|done|..].
  - unfold metered in Hl. cbn [lines keyboard fresh_session] in Hr. ev_norm. lia.
  - rewrite session_clock, Hs, Htm, Ht. cbn [clock ledger fresh_session fresh_ledger]. lia.
Qed.

(** C9: progress.  On a chain that confirms within the time the script
    waits, an operator who types the nine lines of the bootstrap and two
    lines for each iteration (whatever the lines say) gets the script
    through [n] iterations: it is never refused, never throws and never
    waits for anything but the lines.  With [k] generate actions among
    the iterations it has then read 9 + n + k of the lines, and the
    clock of the ledger has advanced by 120 seconds for each of the
    3 + 2k transactions. *)
Theorem ledger_progress n g kb :
  9 + 2 * n <= length kb ->
  let r := run (main n g) (fresh_session kb) in
  exists g' k, outcome r = Done (tt, g') /\ k <= n /\
    length kb = 9 + n + k + unread (final r) /\
    elapsed (final r) = (CONFIRMATION_WAIT * Z.of_nat (3 + 2 * k))%Z.
Proof. apply main_progress. Qed.

(** C8: the whole system.  On a chain that confirms within the time the
    script waits, and with an operator who types finitely many lines,
    the script with its unbounded loop has exactly one run; in it every
    prompt is answered and every transaction accepted, and it ends
    waiting for the operator at a prompt: the process never dies and
    never leaves the loop. *)
Theorem script_waits_for_operator g kb :
  exists r,
    (exists f, exec f (script g) (fresh_session kb) = Some r) /\
    (forall f r', exec f (script g) (fresh_session kb) = Some r' -> r' = r) /\
    Forall accepted (trace r) /\ waits_for_operator (outcome r).
Proof.
  destruct (main_accepted timely (S (length kb)) g kb) as [Hg _].
  destruct (main_stuck_waits (S (length kb)) g kb) as (qs & Hq & _);
    [apply main_outlasts_operator|].
  set (r0 := run (main (S (length kb)) g) (fresh_session kb)) in *.
  edestruct (exec_script_stuck (S (length kb)) g (fresh_session kb)) as [He Hu].
  { unfold stuck. fold r0. rewrite Hq. reflexivity. }
  eexists. repeat apply conj; [exact He|exact Hu|exact Hg|by exists qs].
Qed.

End session.

Lemma ledger_progress_witness :
  let r := session_run scenario_chain 1 in
  exists g' k, outcome r = Done (tt, g') /\ k <= 1 /\
    length scenario_operator = 9 + 1 + k + unread (final r) /\
    elapsed (final r) = (CONFIRMATION_WAIT * Z.of_nat (3 + 2 * k))%Z.
Proof.
  apply (@ledger_progress scenario_chain); [by vm_compute|cbn; lia].
Defined.

Lemma script_waits_for_operator_witness :
  exists r,
    (exists f, scenario_exec f = Some r) /\
    (forall f r', scenario_exec f = Some r' -> r' = r) /\
    Forall (@accepted scenario_chain) (trace r) /\ waits_for_operator (outcome r).
Proof. apply (@script_waits_for_operator scenario_chain). by vm_compute. Defined.

(** The run of the scenarios: after the generate and the query of the
    operator, the script asks for the next action. *)
Example script_on_ledger :
  outcome <$> scenario_exec 200 = Some (Pending (Prompt actionQuestions)).
Proof. vm_compute. reflexivity. Qed.
